(** * Sovereign Trust Layer: entropy-node controller and ritual controller

    A shallow embedding of
    - [src/controllers/sovereignEntropyNodeController.js]
      (class SovereignEntropyNodeController), and
    - the RitualController class of the controllers bundle
      ([initiateSignal], [verifySignal], [executeRitual],
      [quorumConsensusCheck]), together with
    - [ExchangeController.logComplianceEvent], the audit sink both use.

    The controllers are stateful JavaScript classes whose methods throw.
    They are embedded as computations in a state-and-exception monad over
    an explicit [World]; a thrown error keeps every mutation made before
    the throw, as in the source (there is no rollback anywhere).

    Numbers: the counters the controllers step by one and the thresholds
    they compare ([maxAttempts], [verificationCount], [votes_cast],
    [reputation_score]) are idealised as unbounded integers ([Z]).  The
    staking balance and the amounts added to it reach the controller
    unvalidated and are added as they come, so they are IEEE 754 binary64
    values ([Double]), with the rounding, the infinities and the NaN of
    JavaScript's [+] and [<]. *)

From Stdlib Require Import ZArith QArith Lia SpecFloat.
From stdpp Require Import base strings pretty list gmap.
From Equations Require Import Equations.

Local Open Scope string_scope.
Local Open Scope Z_scope.
Local Open Scope list_scope.

(** ** JavaScript values *)

#[local] Set Warnings "-register-all".

(** A JavaScript number as the engine holds it: an IEEE 754 binary64
    value (53 bits of precision, exponents up to 1024). *)
Definition Double : Type := spec_float.

(** [x + y] on numbers: the sum rounded to the nearest double, ties to
    even. *)
Definition jsAdd (x y : Double) : Double := SFadd 53 1024 x y.

(** [x < y] and [x <= y] on numbers: false when either side is NaN. *)
Definition jsLt (x y : Double) : bool := SFltb x y.
Definition jsLe (x y : Double) : bool := SFleb x y.

Definition jsZero : Double := S754_zero false.

(** The double nearest to an integer (the integer itself up to 2^53). *)
Definition ofInt (z : Z) : Double := binary_normalize 53 1024 z 0 false.

(** [Number.isNaN] and [Number.isFinite] *)
Definition isNaN (x : Double) : bool :=
  match x with S754_nan => true | _ => false end.

Definition isFinite (x : Double) : bool :=
  match x with S754_zero _ | S754_finite _ _ _ => true | _ => false end.

(** The sign bit of a double that is not NaN. *)
Definition signOf (x : Double) : option bool :=
  match x with
  | S754_zero s | S754_infinity s | S754_finite s _ _ => Some s
  | S754_nan => None
  end.

Arguments jsAdd : simpl never.
Arguments jsLt : simpl never.
Arguments jsLe : simpl never.

(** The values that cross the controllers opaquely (payloads, votes,
    entropy, the objects handed to [JSON.stringify]).  [VNum] holds an
    integer, [VDouble] a number the controller has done arithmetic on. *)
Inductive JsValue : Type :=
| VUndefined
| VNull
| VBool (b : bool)
| VNum (n : Z)
| VDouble (x : Double)
| VStr (s : string)
| VArr (items : list JsValue)
| VObj (props : list (string * JsValue)).

(** JavaScript truthiness, as used by [!x], [x || y] and [if (x)]. *)
Definition truthy (v : JsValue) : bool :=
  match v with
  | VUndefined | VNull => false
  | VBool b => b
  | VNum n => negb (n =? 0)%Z
  | VDouble x => match x with
                 | S754_zero _ | S754_nan => false
                 | _ => true
                 end
  | VStr s => negb (String.eqb s "")
  | VArr _ | VObj _ => true
  end.

(** [x || y] on an optional string: the empty string is falsy. *)
Definition truthyStr (o : option string) : option string :=
  match o with
  | Some s => if String.eqb s "" then None else Some s
  | None => None
  end.

Definition optStr (o : option string) : JsValue :=
  match o with Some s => VStr s | None => VUndefined end.

(** ** Data model of the entropy node *)

Record RetryPolicy : Type := {
  maxAttempts : Z;
  backoffMs : Z
}.

Record PostProcess : Type := {
  pp_type : string;
  pp_callback : JsValue
}.

(** [node.entropy_agent].  [postProcess] may be absent (the source reads
    it with [postProcess?.type]). *)
Record EntropyAgent : Type := {
  contracts : list string;
  method : string;
  format : string;
  cacheTTL : Z;
  retryPolicy : RetryPolicy;
  postProcess : option PostProcess
}.

(** Hooks are late-bound identifiers; an absent or empty one is falsy. *)
Record TransactionHooks : Type := {
  onEntropyFetch : option string;
  onVote : option string;
  onProjectCreate : option string
}.

Record Governance : Type := {
  proposalThreshold : Z;
  votingContract : string
}.

(** The descriptor handed to [createNode] ([data]).  [node_id] and
    [reputation_score] are optional there; the remaining properties are
    the ones the controller reads later, taken to be present with the
    type the controller uses them at ([votes_cast] and [staking_balance]
    as numbers, [entropy_agent] with its [retryPolicy]). *)
Record NodeData : Type := {
  d_node_id : option string;
  d_reputation_score : option Z;
  d_wallet_address : string;
  d_soulboundId : JsValue;
  d_username : JsValue;
  d_entropy_agent : EntropyAgent;
  d_transactionHooks : option TransactionHooks;
  d_karmaWage : JsValue;
  d_roles : list string;
  d_governance : Governance;
  d_votes_cast : Z;
  d_staking_balance : Double
}.

(** A stored node: [{...data, node_id, type, creation_date,
    reputation_score}]. *)
Record Node : Type := {
  node_id : string;
  node_type : string;
  creation_date : string;
  reputation_score : Z;
  wallet_address : string;
  soulboundId : JsValue;
  username : JsValue;
  entropy_agent : EntropyAgent;
  transactionHooks : option TransactionHooks;
  karmaWage : JsValue;
  roles : list string;
  governance : Governance;
  votes_cast : Z;
  staking_balance : Double
}.

(** [node.votes_cast = v] *)
Definition set_votes_cast (v : Z) (n : Node) : Node :=
  {| node_id := node_id n; node_type := node_type n;
     creation_date := creation_date n;
     reputation_score := reputation_score n;
     wallet_address := wallet_address n; soulboundId := soulboundId n;
     username := username n; entropy_agent := entropy_agent n;
     transactionHooks := transactionHooks n; karmaWage := karmaWage n;
     roles := roles n; governance := governance n;
     votes_cast := v; staking_balance := staking_balance n |}.

(** [node.staking_balance = v] *)
Definition set_staking_balance (v : Double) (n : Node) : Node :=
  {| node_id := node_id n; node_type := node_type n;
     creation_date := creation_date n;
     reputation_score := reputation_score n;
     wallet_address := wallet_address n; soulboundId := soulboundId n;
     username := username n; entropy_agent := entropy_agent n;
     transactionHooks := transactionHooks n; karmaWage := karmaWage n;
     roles := roles n; governance := governance n;
     votes_cast := votes_cast n; staking_balance := v |}.

(** ** Data model of the ritual controller *)

Inductive SignalStatus : Type := pending | verified | rejected.

Record Signal : Type := {
  sig_id : string;
  initiator : string;
  sig_type : string;
  payload : JsValue;
  sig_timestamp : string;
  status : SignalStatus;
  verificationCount : Z
}.

Record ConsensusRecord : Type := {
  signalId : string;
  reached : bool;
  cr_timestamp : string;
  verifications : Z
}.

(** An action as passed to [executeRitual] ([{type, target}]) ... *)
Record ActionRequest : Type := {
  req_type : string;
  req_target : string
}.

(** ... and as stored in the ritual ([{type, target, executedAt}]). *)
Record Action : Type := {
  act_type : string;
  target : string;
  executedAt : string
}.

Record Ritual : Type := {
  ritual_id : string;
  ritual_initiator : string;
  actions : list Action;
  ritual_status : string;
  ritual_timestamp : string
}.

(** [this.ritualData] *)
Record RitualData : Type := {
  rituals : list Ritual;
  signals : list Signal;
  consensusRecords : list ConsensusRecord
}.

(** ** The audit sink *)

(** One entry of [exchangeData.exchange.compliance.auditLog].  [details]
    holds the object the caller passes to [JSON.stringify]; its rendering
    as text is not modelled. *)
Record AuditEntry : Type := {
  event : string;
  audit_timestamp : string;
  user : string;
  details : JsValue
}.

(** ** The chain adapter *)

(** The calls the two controllers make on [this.chainAdapter]. *)
Inductive Call : Type :=
| VerifySoulboundId (wallet : string) (soulbound : JsValue)
| RegisterNode (nodeId : string) (node : Node)
| CallContract (contract : option string) (method format : string)
| ExecutePostProcess (type : string) (callback : JsValue) (entropy : JsValue)
| CacheEntropy (nodeId : string) (value : JsValue) (ttl : Z)
| ExecuteHook (hook : string) (arg : JsValue)
| DistributeKarmaWage (wallet : string) (wage : JsValue)
| UpdateReputation (wallet : string) (delta : Q)
| SubmitVote (contract wallet : string) (proposalId vote : JsValue)
| UpdateStaking (wallet : string) (balance : Double).

(** An awaited adapter promise either rejects with an error (of which the
    controller only ever reads [.message]) or resolves to a value. *)
Inductive Outcome : Type :=
| Rejects (message : string)
| Resolves (v : JsValue).

(** What the controller did to the outside world, oldest first. *)
Inductive Event : Type :=
| Invoked (c : Call) (o : Outcome)
| Slept (ms : Z).

(** ** Errors *)

(** The errors a call can end with.  Each constructor but the last two
    stands for one [throw new Error(...)] of the source. *)
Inductive Exn : Type :=
| ValidationFailed
    (* `Validation failed: ${JSON.stringify(validate.errors)}` *)
| InvalidSoulboundId (wallet : string)
    (* `Invalid soulbound ID for wallet ${node.wallet_address}` *)
| NodeNotFound
    (* 'Node not found' *)
| EntropyFetchFailed (attempts : Z) (cause : string)
    (* `Failed to fetch entropy after ${attempts} attempts: ${error.message}` *)
| NotAuthorizedToVote
    (* 'Node not authorized to vote' *)
| InsufficientReputation
    (* 'Insufficient reputation to vote' *)
| InsufficientStakingBalance
    (* 'Insufficient staking balance' *)
| SignalNotFound
    (* 'Signal not found' *)
| TypeError (what : string)
    (* raised by the runtime: property read on undefined *)
| AdapterRejected (message : string).
    (* an awaited adapter promise rejected outside any try/catch *)

Inductive Result (A : Type) : Type :=
| Ok (a : A)
| Throw (e : Exn).
Arguments Ok {A} a.
Arguments Throw {A} e.

(** ** The world *)

Record World : Type := {
  nodes : gmap string Node;          (* SovereignEntropyNodeController.nodes *)
  ritualData : RitualData;           (* RitualController.ritualData *)
  auditLog : list AuditEntry;        (* the exchange controller's audit log *)
  history : list Event;              (* adapter calls and timer waits so far *)
  dateReads : nat;                   (* how many times the clock was read *)
  uuidReads : nat                    (* how many UUIDs were drawn *)
}.

(** The collaborators that are not part of the controllers: the adapter
    (its answer may depend on everything done so far), the three compiled
    JSON-schema validators, the clock and the UUID generator.  The schema
    files are not part of the sources, so the validators are parameters;
    they are taken as predicates (Ajv's filling in of defaults for
    properties an object lacks is not modelled). *)
Record Env : Type := {
  chainAdapter : list Event -> Call -> Outcome;
  validateNode : NodeData -> bool;
  validateRitual : RitualData -> bool;
  validateExchange : list AuditEntry -> bool;
  dateISO : nat -> string;
  uuid : nat -> string
}.

(** ** The monad *)

Definition M (A : Type) : Type := World -> Result A * World.

Definition ret {A} (a : A) : M A := fun w => (Ok a, w).

Definition throw {A} (e : Exn) : M A := fun w => (Throw e, w).

Definition bind {A B} (m : M A) (k : A -> M B) : M B :=
  fun w =>
    match m w with
    | (Ok a, w') => k a w'
    | (Throw e, w') => (Throw e, w')
    end.

Notation "'let*' x ':=' m 'in' k" := (bind m (fun x => k))
  (at level 10, x name, m at level 100, k at level 200).
Notation "m ';;;' k" := (bind m (fun _ => k))
  (at level 100, k at level 200, right associativity).

Definition set_nodes (f : gmap string Node -> gmap string Node) (w : World) : World :=
  {| nodes := f (nodes w); ritualData := ritualData w;
     auditLog := auditLog w; history := history w;
     dateReads := dateReads w; uuidReads := uuidReads w |}.

Definition set_ritualData (f : RitualData -> RitualData) (w : World) : World :=
  {| nodes := nodes w; ritualData := f (ritualData w);
     auditLog := auditLog w; history := history w;
     dateReads := dateReads w; uuidReads := uuidReads w |}.

Definition set_auditLog (f : list AuditEntry -> list AuditEntry) (w : World) : World :=
  {| nodes := nodes w; ritualData := ritualData w;
     auditLog := f (auditLog w); history := history w;
     dateReads := dateReads w; uuidReads := uuidReads w |}.

Definition record_event (e : Event) (w : World) : World :=
  {| nodes := nodes w; ritualData := ritualData w;
     auditLog := auditLog w; history := history w ++ [e];
     dateReads := dateReads w; uuidReads := uuidReads w |}.

Definition modify (f : World -> World) : M unit := fun w => (Ok tt, f w).

Section Controllers.

Variable env : Env.

(** ** Ambient services *)

(** [new Date().toISOString()] *)
Definition now : M string :=
  fun w =>
    (Ok (dateISO env (dateReads w)),
     {| nodes := nodes w; ritualData := ritualData w;
        auditLog := auditLog w; history := history w;
        dateReads := S (dateReads w); uuidReads := uuidReads w |}).

(** [crypto.randomUUID()] and [uuidv4()] *)
Definition randomUUID : M string :=
  fun w =>
    (Ok (uuid env (uuidReads w)),
     {| nodes := nodes w; ritualData := ritualData w;
        auditLog := auditLog w; history := history w;
        dateReads := dateReads w; uuidReads := S (uuidReads w) |}).

(** One adapter call: the adapter answers knowing the history, and the
    call is recorded with its outcome. *)
Definition perform (c : Call) (w : World) : Outcome * World :=
  let o := chainAdapter env (history w) c in
  (o, record_event (Invoked c o) w).

(** [await this.chainAdapter.f(...)] outside a try block: a rejection
    propagates. *)
Definition invoke (c : Call) : M JsValue :=
  fun w =>
    match perform c w with
    | (Resolves v, w') => (Ok v, w')
    | (Rejects msg, w') => (Throw (AdapterRejected msg), w')
    end.

(** [await new Promise(resolve => setTimeout(resolve, ms))] *)
Definition sleep (ms : Z) (w : World) : World := record_event (Slept ms) w.

(** ** ExchangeController.logComplianceEvent *)

Definition logComplianceEvent (ev user_id : string) (dts : JsValue) : M AuditEntry :=
  let* ts := now in
  let log := {| event := ev; audit_timestamp := ts;
                user := user_id; details := dts |} in
  modify (set_auditLog (fun l => l ++ [log])) ;;;
  fun w =>
    if validateExchange env (auditLog w) then (Ok log, w)
    else (Throw ValidationFailed, w).

(** ** RitualController *)

(** [this.validateData(this.ritualData)] *)
Definition validateRitualData : M unit :=
  fun w =>
    if validateRitual env (ritualData w) then (Ok tt, w)
    else (Throw ValidationFailed, w).

Definition push_signal (s : Signal) (d : RitualData) : RitualData :=
  {| rituals := rituals d; signals := signals d ++ [s];
     consensusRecords := consensusRecords d |}.

Definition push_ritual (r : Ritual) (d : RitualData) : RitualData :=
  {| rituals := rituals d ++ [r]; signals := signals d;
     consensusRecords := consensusRecords d |}.

Definition push_consensus (c : ConsensusRecord) (d : RitualData) : RitualData :=
  {| rituals := rituals d; signals := signals d;
     consensusRecords := consensusRecords d ++ [c] |}.

Definition set_signals (l : list Signal) (d : RitualData) : RitualData :=
  {| rituals := rituals d; signals := l;
     consensusRecords := consensusRecords d |}.

(** [this.ritualData.signals.find(s => s.id === signalId)]: the first
    signal with that id, with its position (the source holds a reference
    to the array element and mutates it in place). *)
Definition findSignal (sid : string) (l : list Signal) : option (nat * Signal) :=
  list_find (fun s => sig_id s = sid) l.

Definition initiateSignal (who sty : string) (pl : JsValue) : M Signal :=
  let* id := randomUUID in
  let* ts := now in
  let signal := {| sig_id := id; initiator := who; sig_type := sty;
                   payload := pl; sig_timestamp := ts;
                   status := pending; verificationCount := 0 |} in
  modify (set_ritualData (push_signal signal)) ;;;
  validateRitualData ;;;
  logComplianceEvent "signal_initiated" who
    (VObj [("signalType", VStr sty); ("payload", pl)]) ;;;
  ret signal.

(** [signal.verificationCount += 1; signal.status = isValid ? ... : ...] *)
Definition verified_once (isValid : bool) (s : Signal) : Signal :=
  {| sig_id := sig_id s; initiator := initiator s; sig_type := sig_type s;
     payload := payload s; sig_timestamp := sig_timestamp s;
     status := if isValid then verified else rejected;
     verificationCount := verificationCount s + 1 |}.

Definition verifySignal (sid verifier : string) (isValid : bool) : M Signal :=
  fun w =>
    match findSignal sid (signals (ritualData w)) with
    | None => (Throw SignalNotFound, w)
    | Some (i, s) =>
        let signal := verified_once isValid s in
        (modify (set_ritualData
                   (fun d => set_signals (<[i := signal]> (signals d)) d)) ;;;
         validateRitualData ;;;
         logComplianceEvent "signal_verified" verifier
           (VObj [("signalId", VStr sid); ("isValid", VBool isValid)]) ;;;
         ret signal) w
    end.

(** [actions.map(a => ({type, target, executedAt: new Date()...}))] *)
Fixpoint stampActions (reqs : list ActionRequest) : M (list Action) :=
  match reqs with
  | [] => ret []
  | a :: rest =>
      let* ts := now in
      let* done := stampActions rest in
      ret ({| act_type := req_type a; target := req_target a;
              executedAt := ts |} :: done)
  end.

Definition requestJson (a : ActionRequest) : JsValue :=
  VObj [("type", VStr (req_type a)); ("target", VStr (req_target a))].

Definition executeRitual (ritualId : option string) (who : string)
    (reqs : list ActionRequest) : M Ritual :=
  let* id := match truthyStr ritualId with
             | Some s => ret s
             | None => randomUUID
             end in
  let* acts := stampActions reqs in
  let* ts := now in
  let ritual := {| ritual_id := id; ritual_initiator := who;
                   actions := acts; ritual_status := "completed";
                   ritual_timestamp := ts |} in
  modify (set_ritualData (push_ritual ritual)) ;;;
  validateRitualData ;;;
  logComplianceEvent "ritual_executed" who
    (VObj [("ritualId", optStr ritualId);
           ("actions", VArr (map requestJson reqs))]) ;;;
  ret ritual.

Definition quorumConsensusCheck (sid : string) (requiredVerifications : Z)
    : M ConsensusRecord :=
  fun w =>
    match findSignal sid (signals (ritualData w)) with
    | None => (Throw SignalNotFound, w)
    | Some (_, signal) =>
        (let* ts := now in
         let consensus :=
           {| signalId := sid;
              reached := (requiredVerifications <=? verificationCount signal)%Z;
              cr_timestamp := ts;
              verifications := verificationCount signal |} in
         modify (set_ritualData (push_consensus consensus)) ;;;
         validateRitualData ;;;
         (if reached consensus then
            let* rid := randomUUID in
            executeRitual (Some rid) (initiator signal)
              [{| req_type := "consensus_approved"; req_target := sid |}] ;;;
            ret tt
          else ret tt) ;;;
         ret consensus) w
    end.

(** ** SovereignEntropyNodeController *)

(** [this.validateData(data)] *)
Definition validateNodeData (data : NodeData) : M unit :=
  if validateNode env data then ret tt else throw ValidationFailed.

(** [data.reputation_score || 50] *)
Definition initialReputation (data : NodeData) : Z :=
  match d_reputation_score data with
  | Some r => if r =? 0 then 50 else r
  | None => 50
  end.

Definition createNode (data : NodeData) : M string :=
  validateNodeData data ;;;
  let* nodeId := match truthyStr (d_node_id data) with
                 | Some s => ret s
                 | None => randomUUID
                 end in
  let* created := now in
  let node :=
    {| node_id := nodeId; node_type := "entropy-node";
       creation_date := created;
       reputation_score := initialReputation data;
       wallet_address := d_wallet_address data;
       soulboundId := d_soulboundId data;
       username := d_username data;
       entropy_agent := d_entropy_agent data;
       transactionHooks := d_transactionHooks data;
       karmaWage := d_karmaWage data;
       roles := d_roles data;
       governance := d_governance data;
       votes_cast := d_votes_cast data;
       staking_balance := d_staking_balance data |} in
  let* isValidSoulbound :=
    invoke (VerifySoulboundId (wallet_address node) (soulboundId node)) in
  if negb (truthy isValidSoulbound)
  then throw (InvalidSoulboundId (wallet_address node))
  else
    modify (set_nodes (fun m => <[nodeId := node]> m)) ;;;
    invoke (RegisterNode nodeId node) ;;;
    logComplianceEvent "node_created" (wallet_address node)
      (VObj [("node_id", VStr nodeId); ("username", username node)]) ;;;
    ret nodeId.

(** [const node = this.nodes.get(nodeId); if (!node) throw ...] *)
Definition getNode (nodeId : string) : M Node :=
  fun w =>
    match nodes w !! nodeId with
    | Some node => (Ok node, w)
    | None => (Throw NodeNotFound, w)
    end.

(** The call every attempt makes: [callContract(contracts[contractIndex],
    method, format)]; an index out of range reads [undefined]. *)
Definition contractCall (agent : EntropyAgent) (contractIndex : nat) : Call :=
  CallContract (contracts agent !! contractIndex) (method agent) (format agent).

(** The retry loop of [fetchEntropy], entered with the current value of
    [attempts].  [entropy] is assigned only on the iteration that breaks
    out, so it is still [undefined] when the guard fails. *)
Equations? retryLoop (agent : EntropyAgent) (contractIndex : nat)
    (attempts : Z) (w : World) : Result JsValue * World
    by wf (Z.to_nat (maxAttempts (retryPolicy agent) - attempts)) lt :=
retryLoop agent contractIndex attempts w
    with Z_lt_dec attempts (maxAttempts (retryPolicy agent)) := {
  | right _ => (Ok VUndefined, w)
  | left _ with perform (contractCall agent contractIndex) w := {
    | (Resolves v, w1) => (Ok v, w1)
    | (Rejects msg, w1)
        with Z_ge_dec (attempts + 1) (maxAttempts (retryPolicy agent)) := {
      | left _ => (Throw (EntropyFetchFailed (attempts + 1) msg), w1)
      | right _ =>
          retryLoop agent contractIndex (attempts + 1)
            (sleep (backoffMs (retryPolicy agent)) w1) } } }.
Proof. lia. Qed.

(** [node.transactionHooks?.onX], when truthy *)
Definition hookOf (sel : TransactionHooks -> option string) (node : Node)
    : option string :=
  match transactionHooks node with
  | Some hooks => truthyStr (sel hooks)
  | None => None
  end.

(** [if (hook) await this.chainAdapter.executeHook(hook, arg)] *)
Definition triggerHook (hook : option string) (arg : JsValue) : M unit :=
  match hook with
  | Some h => invoke (ExecuteHook h arg) ;;; ret tt
  | None => ret tt
  end.

(** Post-processing step: [postProcess?.type !== 'none'] holds for an
    absent [postProcess] too, and then reading [postProcess.type] throws. *)
Definition postProcessStep (agent : EntropyAgent) (entropy : JsValue) : M JsValue :=
  match postProcess agent with
  | None => throw (TypeError "postProcess")
  | Some pp =>
      if String.eqb (pp_type pp) "none" then ret entropy
      else invoke (ExecutePostProcess (pp_type pp) (pp_callback pp) entropy)
  end.

Record EntropyResult : Type := { entropy : JsValue }.

(** Lines 80-98 of the controller: everything [fetchEntropy] does once the
    retry loop has left [entropy]. *)
Definition deliverEntropy (nodeId : string) (contractIndex : nat) (node : Node)
    (raw : JsValue) : M EntropyResult :=
  let agent := entropy_agent node in
  let* processedEntropy := postProcessStep agent raw in
  invoke (CacheEntropy nodeId processedEntropy (cacheTTL agent)) ;;;
  triggerHook (hookOf onEntropyFetch node)
    (VObj [("nodeId", VStr nodeId); ("entropy", processedEntropy)]) ;;;
  invoke (DistributeKarmaWage (wallet_address node) (karmaWage node)) ;;;
  invoke (UpdateReputation (wallet_address node) (1 # 2)%Q) ;;;
  logComplianceEvent "entropy_fetched" (wallet_address node)
    (VObj [("node_id", VStr nodeId);
           ("contract", optStr (contracts agent !! contractIndex))]) ;;;
  ret {| entropy := processedEntropy |}.

Definition fetchEntropy (nodeId : string) (contractIndex : nat) : M EntropyResult :=
  let* node := getNode nodeId in
  let* raw := retryLoop (entropy_agent node) contractIndex 0 in
  deliverEntropy nodeId contractIndex node raw.

(** [roles.includes(role)] *)
Definition includes (role : string) (l : list string) : bool :=
  existsb (String.eqb role) l.

Definition castVote (nodeId : string) (proposalId vote : JsValue) : M string :=
  let* node := getNode nodeId in
  if negb (includes "voter" (roles node)) then throw NotAuthorizedToVote
  else if reputation_score node <? proposalThreshold (governance node)
  then throw InsufficientReputation
  else
    invoke (SubmitVote (votingContract (governance node))
              (wallet_address node) proposalId vote) ;;;
    modify (set_nodes (fun m =>
      <[nodeId := set_votes_cast (votes_cast node + 1) node]> m)) ;;;
    triggerHook (hookOf onVote node)
      (VObj [("nodeId", VStr nodeId); ("proposalId", proposalId);
             ("vote", vote)]) ;;;
    invoke (DistributeKarmaWage (wallet_address node) (karmaWage node)) ;;;
    invoke (UpdateReputation (wallet_address node) (3 # 10)%Q) ;;;
    logComplianceEvent "vote_cast" (wallet_address node)
      (VObj [("node_id", VStr nodeId); ("proposalId", proposalId);
             ("vote", vote)]) ;;;
    ret "Vote cast successfully".

Definition updateStakingBalance (nodeId : string) (amount : Double)
    : M Double :=
  let* node := getNode nodeId in
  if jsLt amount jsZero && jsLt (jsAdd (staking_balance node) amount) jsZero
  then throw InsufficientStakingBalance
  else
    let balance := jsAdd (staking_balance node) amount in
    modify (set_nodes (fun m =>
      <[nodeId := set_staking_balance balance node]> m)) ;;;
    invoke (UpdateStaking (wallet_address node) balance) ;;;
    logComplianceEvent "staking_updated" (wallet_address node)
      (VObj [("node_id", VStr nodeId); ("amount", VDouble amount)]) ;;;
    ret balance.

End Controllers.

(** ** Observations on a history *)

Definition isContractCall (e : Event) : bool :=
  match e with
  | Invoked (CallContract _ _ _) _ => true
  | _ => false
  end.

(** How many gateway calls a history holds. *)
Definition gatewayCalls (h : list Event) : nat :=
  length (filter (fun e => isContractCall e = true) h).

(** The cache writes of a history: key, value and time to live. *)
Definition cacheWrites (h : list Event) : list (string * JsValue * Z) :=
  flat_map (fun e => match e with
                     | Invoked (CacheEntropy k v ttl) _ => [(k, v, ttl)]
                     | _ => []
                     end) h.

(** The karma credits of a history: wallet and wage. *)
Definition karmaCredits (h : list Event) : list (string * JsValue) :=
  flat_map (fun e => match e with
                     | Invoked (DistributeKarmaWage a wage) _ => [(a, wage)]
                     | _ => []
                     end) h.

(** The reputation credits of a history: wallet and increment. *)
Definition reputationCredits (h : list Event) : list (string * Q) :=
  flat_map (fun e => match e with
                     | Invoked (UpdateReputation a d) _ => [(a, d)]
                     | _ => []
                     end) h.

(** The hook dispatches of a history that rejected. *)
Definition failedHooks (h : list Event) : list (string * string) :=
  flat_map (fun e => match e with
                     | Invoked (ExecuteHook hk _) (Rejects msg) => [(hk, msg)]
                     | _ => []
                     end) h.

(** An event of a failed attempt of [fetchEntropy]: a rejected gateway
    call for [contracts[contractIndex]], or the wait that follows it. *)
Definition failedAttempt (agent : EntropyAgent) (contractIndex : nat)
    (e : Event) : Prop :=
  (exists msg, e = Invoked (contractCall agent contractIndex) (Rejects msg))
  \/ e = Slept (backoffMs (retryPolicy agent)).

(** A world that differs from [w] in its history only. *)
Definition with_history (h : list Event) (w : World) : World :=
  {| nodes := nodes w; ritualData := ritualData w;
     auditLog := auditLog w; history := h;
     dateReads := dateReads w; uuidReads := uuidReads w |}.

(** The history once the next [j] gateway attempts have each been
    rejected and waited after, starting from history [h]. *)
Fixpoint afterRejections (env : Env) (c : Call) (ms : Z)
    (h : list Event) (j : nat) : list Event :=
  match j with
  | O => h
  | S j' =>
      afterRejections env c ms
        (h ++ [Invoked c (chainAdapter env h c); Slept ms]) j'
  end.

(** What the gateway answers to attempt number [j] (counted from 0) when
    all earlier attempts were rejected. *)
Definition attemptOutcome (env : Env) (c : Call) (ms : Z)
    (h : list Event) (j : nat) : Outcome :=
  chainAdapter env (afterRejections env c ms h j) c.

(** Every adapter call other than the gateway call resolves. *)
Definition collaboratorsResolve (env : Env) : Prop :=
  forall h c,
    match c with
    | CallContract _ _ _ => True
    | _ => exists v, chainAdapter env h c = Resolves v
    end.

(** The exchange schema accepts every audit log. *)
Definition auditAccepted (env : Env) : Prop :=
  forall l, validateExchange env l = true.

(** The ritual schema accepts every ritual store. *)
Definition ritualAccepted (env : Env) : Prop :=
  forall d, validateRitual env d = true.

(** The record a quorum check builds for signal [s] in world [w]. *)
Definition consensusFor (env : Env) (sid : string) (k : Z) (s : Signal)
    (w : World)
    : ConsensusRecord :=
  {| signalId := sid;
     reached := k <=? verificationCount s;
     cr_timestamp := dateISO env (dateReads w);
     verifications := verificationCount s |}.

(** A ritual as the quorum check triggers it: one [consensus_approved]
    action on the signal, on behalf of the signal's initiator. *)
Definition approvalRitual (sid : string) (s : Signal) (r : Ritual) : Prop :=
  ritual_initiator r = initiator s /\
  ritual_status r = "completed" /\
  exists stamp,
    actions r = [{| act_type := "consensus_approved"; target := sid;
                    executedAt := stamp |}].

(** The two refusals of [castVote] that the specification calls an
    authorization error. *)
Definition isAuthorizationError (e : Exn) : Prop :=
  e = NotAuthorizedToVote \/ e = InsufficientReputation.

(** [n] successive [quorumConsensusCheck] calls with the same arguments:
    the results in order, and the final world. *)
Fixpoint repeatedChecks (env : Env) (sid : string) (k : Z) (n : nat)
    (w : World) : list (Result ConsensusRecord) * World :=
  match n with
  | O => ([], w)
  | S n' =>
      let '(r, w1) := quorumConsensusCheck env sid k w in
      let '(rs, w2) := repeatedChecks env sid k n' w1 in
      (r :: rs, w2)
  end.

(** Of [n] successive checks, the number that found the schema accepting
    the store right after their record was appended. *)
Fixpoint checksAccepted (env : Env) (sid : string) (k : Z) (n : nat)
    (w : World) : nat :=
  match n with
  | O => O
  | S n' =>
      let accepted :=
        match findSignal sid (signals (ritualData w)) with
        | Some (_, s) =>
            validateRitual env
              (push_consensus (consensusFor env sid k s w) (ritualData w))
        | None => false
        end in
      ((if accepted then 1 else 0)
       + checksAccepted env sid k n' (quorumConsensusCheck env sid k w).2)%nat
  end.

(** ** Concrete collaborators and nodes, for running the model *)

(** A gateway that rejects its first [k] calls and answers ["abc123"]
    from then on; every other adapter call resolves. *)
Definition flakyAdapter (k : nat) (h : list Event) (c : Call) : Outcome :=
  match c with
  | CallContract _ _ _ =>
      if (gatewayCalls h <? k)%nat then Rejects "timeout"
      else Resolves (VStr "abc123")
  | VerifySoulboundId _ _ => Resolves (VBool true)
  | _ => Resolves VUndefined
  end.

(** As [flakyAdapter 0], but every hook dispatch rejects. *)
Definition hookFailingAdapter (h : list Event) (c : Call) : Outcome :=
  match c with
  | ExecuteHook _ _ => Rejects "hook failed"
  | _ => flakyAdapter 0 h c
  end.

Definition permissiveEnv (adapter : list Event -> Call -> Outcome) : Env :=
  {| chainAdapter := adapter;
     validateNode := fun _ => true;
     validateRitual := fun _ => true;
     validateExchange := fun _ => true;
     dateISO := fun n => "2024-01-01T00:00:00.000Z";
     uuid := fun n => "uuid-" +:+ pretty n |}.

Definition demoAgent (n : Z) : EntropyAgent :=
  {| contracts := ["0xfeed"; "0xbeef"]; method := "latestEntropy";
     format := "hex"; cacheTTL := 60;
     retryPolicy := {| maxAttempts := n; backoffMs := 10 |};
     postProcess := Some {| pp_type := "none"; pp_callback := VUndefined |} |}.

Definition demoData (n : Z) (rep : option Z) (hook : option string) : NodeData :=
  {| d_node_id := Some "node-1"; d_reputation_score := rep;
     d_wallet_address := "0xwallet"; d_soulboundId := VStr "sbt-1";
     d_username := VStr "alice"; d_entropy_agent := demoAgent n;
     d_transactionHooks :=
       Some {| onEntropyFetch := hook; onVote := None;
               onProjectCreate := None |};
     d_karmaWage := VNum 2; d_roles := ["voter"; "creator"];
     d_governance := {| proposalThreshold := 40; votingContract := "0xgov" |};
     d_votes_cast := 0; d_staking_balance := ofInt 100 |}.

Definition emptyWorld : World :=
  {| nodes := ∅;
     ritualData := {| rituals := []; signals := []; consensusRecords := [] |};
     auditLog := []; history := []; dateReads := 0; uuidReads := 0 |}.

(** The world after registering [demoData n rep hook] in the empty one. *)
Definition demoWorld (n : Z) (rep : option Z) (hook : option string) : World :=
  snd (createNode (permissiveEnv (flakyAdapter 0)) (demoData n rep hook) emptyWorld).


(** The node [createNode] stores for [demoData n rep hook]. *)
Definition demoNode (n : Z) (rep : Z) (hook : option string) : Node :=
  {| node_id := "node-1"; node_type := "entropy-node";
     creation_date := "2024-01-01T00:00:00.000Z";
     reputation_score := rep;
     wallet_address := "0xwallet"; soulboundId := VStr "sbt-1";
     username := VStr "alice"; entropy_agent := demoAgent n;
     transactionHooks :=
       Some {| onEntropyFetch := hook; onVote := None;
               onProjectCreate := None |};
     karmaWage := VNum 2; roles := ["voter"; "creator"];
     governance := {| proposalThreshold := 40; votingContract := "0xgov" |};
     votes_cast := 0; staking_balance := ofInt 100 |}.

(** Environments and worlds of the scenarios below. *)
Definition steadyEnv : Env := permissiveEnv (flakyAdapter 0).
Definition twiceFailingEnv : Env := permissiveEnv (flakyAdapter 2).
Definition thriceFailingEnv : Env := permissiveEnv (flakyAdapter 3).
Definition hookFailingEnv : Env := permissiveEnv hookFailingAdapter.

Definition threeAttemptsWorld : World := demoWorld 3 None None.
Definition zeroAttemptsWorld : World := demoWorld 0 None None.
Definition hookedWorld : World := demoWorld 3 None (Some "onFetch").

(** Scenario B of the specification: a signal initiated by agentA and
    verified twice. *)
Definition quorumWorld : World :=
  let w1 := (initiateSignal steadyEnv "agentA" "oracle-update"
               (VObj [("val", VNum 1)]) emptyWorld).2 in
  let w2 := (verifySignal steadyEnv "uuid-0" "v1" true w1).2 in
  (verifySignal steadyEnv "uuid-0" "v2" true w2).2.

Definition quorumSignal : Signal :=
  {| sig_id := "uuid-0"; initiator := "agentA"; sig_type := "oracle-update";
     payload := VObj [("val", VNum 1)];
     sig_timestamp := "2024-01-01T00:00:00.000Z";
     status := verified; verificationCount := 2 |}.

(** As [steadyEnv], with a clock whose readings differ: the reading
    number [n] is ["t"] followed by [n]. *)
Definition tickingEnv : Env :=
  {| chainAdapter := flakyAdapter 0;
     validateNode := fun _ => true;
     validateRitual := fun _ => true;
     validateExchange := fun _ => true;
     dateISO := fun n => "t" +:+ pretty n;
     uuid := uuid steadyEnv |}.

(** A ritual schema that wants every signal to have a non-empty type;
    the other collaborators are those of [steadyEnv]. *)
Definition typedSignalsEnv : Env :=
  {| chainAdapter := flakyAdapter 0;
     validateNode := fun _ => true;
     validateRitual :=
       fun d => forallb (fun s => negb (String.eqb (sig_type s) ""))
                  (signals d);
     validateExchange := fun _ => true;
     dateISO := dateISO steadyEnv;
     uuid := uuid steadyEnv |}.

(** A signal initiated with an empty type, which the schema of
    [typedSignalsEnv] refuses; there being no rollback, the signal stays
    in the store, and two verifications bring its count to 2. *)
Definition untypedWorld : World :=
  let w1 := (initiateSignal typedSignalsEnv "agentA" ""
               (VObj [("val", VNum 1)]) emptyWorld).2 in
  let w2 := (verifySignal typedSignalsEnv "uuid-0" "v1" true w1).2 in
  (verifySignal typedSignalsEnv "uuid-0" "v2" true w2).2.

Definition untypedSignal : Signal :=
  {| sig_id := "uuid-0"; initiator := "agentA"; sig_type := "";
     payload := VObj [("val", VNum 1)];
     sig_timestamp := "2024-01-01T00:00:00.000Z";
     status := verified; verificationCount := 2 |}.

Definition votingWorld : World := demoWorld 3 None None.
Definition lowReputationWorld : World := demoWorld 3 (Some 10) None.

(** ** Sequences of calls *)

(** Successive [verifySignal] calls on one signal; each vote is a verifier
    and its [isValid].  Results are dropped: a caller that ignores a
    failure still leaves the mutation behind. *)
Fixpoint verifyAll (env : Env) (sid : string) (votes : list (string * bool))
    (w : World) : World :=
  match votes with
  | [] => w
  | (verifier, isValid) :: rest =>
      verifyAll env sid rest (verifySignal env sid verifier isValid w).2
  end.

(** The public operations of the ritual controller, as calls. *)
Inductive RitualCall : Type :=
| DoInitiate (who sty : string) (pl : JsValue)
| DoVerify (sid verifier : string) (isValid : bool)
| DoExecute (ritualId : option string) (who : string)
    (reqs : list ActionRequest)
| DoQuorum (sid : string) (k : Z).

Definition runRitualCall (env : Env) (c : RitualCall) (w : World) : World :=
  match c with
  | DoInitiate who sty pl => (initiateSignal env who sty pl w).2
  | DoVerify sid verifier isValid => (verifySignal env sid verifier isValid w).2
  | DoExecute rid who reqs => (executeRitual env rid who reqs w).2
  | DoQuorum sid k => (quorumConsensusCheck env sid k w).2
  end.

Definition runRitualCalls (env : Env) (cs : list RitualCall) (w : World)
    : World :=
  fold_left (fun acc c => runRitualCall env c acc) cs w.

(** The operations of the node controller that act on a registered node,
    as calls. *)
Inductive NodeCall : Type :=
| DoFetch (nodeId : string) (contractIndex : nat)
| DoVote (nodeId : string) (proposalId vote : JsValue)
| DoStake (nodeId : string) (amount : Double).

Definition runNodeCall (env : Env) (c : NodeCall) (w : World) : World :=
  match c with
  | DoFetch nodeId idx => (fetchEntropy env nodeId idx w).2
  | DoVote nodeId pid vote => (castVote env nodeId pid vote w).2
  | DoStake nodeId amount => (updateStakingBalance env nodeId amount w).2
  end.

Definition runNodeCalls (env : Env) (cs : list NodeCall) (w : World) : World :=
  fold_left (fun acc c => runNodeCall env c acc) cs w.

(** The amounts staked by a series of calls are finite numbers. *)
Definition finiteStake (c : NodeCall) : Prop :=
  match c with
  | DoStake _ amount => isFinite amount = true
  | _ => True
  end.

Definition finiteStakes (cs : list NodeCall) : Prop := Forall finiteStake cs.

(** [n] successive [castVote] calls with the same arguments. *)
Fixpoint repeatedVotes (env : Env) (nodeId : string) (proposalId vote : JsValue)
    (n : nat) (w : World) : list (Result string) * World :=
  match n with
  | O => ([], w)
  | S n' =>
      let '(r, w1) := castVote env nodeId proposalId vote w in
      let '(rs, w2) := repeatedVotes env nodeId proposalId vote n' w1 in
      (r :: rs, w2)
  end.

(** The [type] and [target] of a stored action. *)
Definition actionKey (a : Action) : string * string := (act_type a, target a).

(** The [type] and [target] of a requested action. *)
Definition requestKey (a : ActionRequest) : string * string :=
  (req_type a, req_target a).

(** What a signal keeps for life: everything but its status and count. *)
Definition sameSignal (s s' : Signal) : Prop :=
  sig_id s' = sig_id s /\ initiator s' = initiator s /\
  sig_type s' = sig_type s /\ payload s' = payload s /\
  sig_timestamp s' = sig_timestamp s.

(** What the node controller never changes on a registered node:
    everything but [votes_cast] and [staking_balance]. *)
Definition sameNode (n n' : Node) : Prop :=
  node_id n' = node_id n /\ node_type n' = node_type n /\
  creation_date n' = creation_date n /\
  reputation_score n' = reputation_score n /\
  wallet_address n' = wallet_address n /\ soulboundId n' = soulboundId n /\
  username n' = username n /\ entropy_agent n' = entropy_agent n /\
  transactionHooks n' = transactionHooks n /\ karmaWage n' = karmaWage n /\
  roles n' = roles n /\ governance n' = governance n.

(** The adapter calls of a history that are post-processing calls. *)
Definition postProcessCalls (h : list Event)
    : list (string * JsValue * JsValue * Outcome) :=
  flat_map (fun e => match e with
                     | Invoked (ExecutePostProcess t cb v) o => [(t, cb, v, o)]
                     | _ => []
                     end) h.

(** The vote submissions of a history. *)
Definition voteSubmissions (h : list Event)
    : list (string * string * JsValue * JsValue) :=
  flat_map (fun e => match e with
                     | Invoked (SubmitVote c a pid v) _ => [(c, a, pid, v)]
                     | _ => []
                     end) h.

(** The actions [executeRitual] stores for [reqs] when the clock has been
    read [t] times: one clock reading per action, in order. *)
Fixpoint stampedFrom (env : Env) (t : nat) (reqs : list ActionRequest)
    : list Action :=
  match reqs with
  | [] => []
  | a :: rest =>
      {| act_type := req_type a; target := req_target a;
         executedAt := dateISO env t |} :: stampedFrom env (S t) rest
  end.

(** A world in which the clock has been read [n] more times. *)
Definition advanceClock (n : nat) (w : World) : World :=
  {| nodes := nodes w; ritualData := ritualData w;
     auditLog := auditLog w; history := history w;
     dateReads := (dateReads w + n)%nat; uuidReads := uuidReads w |}.

(** How the ritual controller's world may evolve: its three logs only
    grow at the end, the node store and the adapter history are left
    alone, and a signal keeps its place and identity while its count never
    goes down. *)
Definition ritualLogsExtend (w w' : World) : Prop :=
  rituals (ritualData w) `prefix_of` rituals (ritualData w') /\
  consensusRecords (ritualData w)
    `prefix_of` consensusRecords (ritualData w') /\
  auditLog w `prefix_of` auditLog w' /\
  nodes w' = nodes w /\ history w' = history w /\
  (forall i s,
     signals (ritualData w) !! i = Some s ->
     exists s',
       signals (ritualData w') !! i = Some s' /\ sameSignal s s' /\
       verificationCount s <= verificationCount s').

(** An event of the retry loop of [fetchEntropy]: a gateway call for
    [contracts[contractIndex]], whatever its outcome, or a backoff wait. *)
Definition attemptEvent (agent : EntropyAgent) (contractIndex : nat)
    (e : Event) : Prop :=
  (exists o, e = Invoked (contractCall agent contractIndex) o)
  \/ e = Slept (backoffMs (retryPolicy agent)).

(** The audit entry a successful [fetchEntropy] leaves. *)
Definition fetchAuditEntry (env : Env) (nodeId : string) (contractIndex : nat)
    (node : Node) (w : World) : AuditEntry :=
  {| event := "entropy_fetched";
     audit_timestamp := dateISO env (dateReads w);
     user := wallet_address node;
     details :=
       VObj [("node_id", VStr nodeId);
             ("contract",
              optStr (contracts (entropy_agent node) !! contractIndex))] |}.

(** The audit entry a successful [castVote] leaves. *)
Definition voteAuditEntry (env : Env) (nodeId : string) (proposalId vote : JsValue)
    (node : Node) (w : World) : AuditEntry :=
  {| event := "vote_cast";
     audit_timestamp := dateISO env (dateReads w);
     user := wallet_address node;
     details :=
       VObj [("node_id", VStr nodeId); ("proposalId", proposalId);
             ("vote", vote)] |}.

(** How the node controller's world may evolve under [fetchEntropy],
    [castVote] and [updateStakingBalance]: no node appears, a registered
    node stays registered and changes only in [votes_cast], which never
    goes down, and in [staking_balance], which never becomes negative
    unless it was; the ritual store is left alone. *)
Definition nodeStoreKept (w w' : World) : Prop :=
  ritualData w' = ritualData w /\
  (forall id, nodes w !! id = None -> nodes w' !! id = None) /\
  (forall id node,
     nodes w !! id = Some node ->
     exists node',
       nodes w' !! id = Some node' /\ sameNode node node' /\
       votes_cast node <= votes_cast node' /\
       (jsLt (staking_balance node) jsZero = false ->
        jsLt (staking_balance node') jsZero = false)).

(** An adapter that rejects the calls [fails] selects and resolves all
    others; a post-processor wraps its input in an array. *)
Definition scriptedAdapter (fails : Call -> bool) (h : list Event) (c : Call)
    : Outcome :=
  if fails c then Rejects "refused"
  else match c with
       | CallContract _ _ _ => Resolves (VStr "abc123")
       | VerifySoulboundId _ _ => Resolves (VBool true)
       | ExecutePostProcess _ _ v => Resolves (VArr [v])
       | _ => Resolves VUndefined
       end.

Definition isKarmaCall (c : Call) : bool :=
  match c with DistributeKarmaWage _ _ => true | _ => false end.

Definition isRegisterCall (c : Call) : bool :=
  match c with RegisterNode _ _ => true | _ => false end.

Definition isHookCall (c : Call) : bool :=
  match c with ExecuteHook _ _ => true | _ => false end.

Definition obligingEnv : Env := permissiveEnv (scriptedAdapter (fun _ => false)).
Definition karmaFailingEnv : Env := permissiveEnv (scriptedAdapter isKarmaCall).
Definition registerFailingEnv : Env :=
  permissiveEnv (scriptedAdapter isRegisterCall).
Definition hooksFailingEnv : Env := permissiveEnv (scriptedAdapter isHookCall).

(** An environment whose soulbound check resolves to [false]. *)
Definition unverifiedEnv : Env :=
  permissiveEnv (fun h c =>
    match c with
    | VerifySoulboundId _ _ => Resolves (VBool false)
    | _ => Resolves VUndefined
    end).

(** A descriptor for node [node-2] with the given post-processor and
    [onVote] hook. *)
Definition customData (pp : option PostProcess) (voteHook : option string)
    : NodeData :=
  {| d_node_id := Some "node-2"; d_reputation_score := Some 60;
     d_wallet_address := "0xbob"; d_soulboundId := VStr "sbt-2";
     d_username := VStr "bob";
     d_entropy_agent :=
       {| contracts := ["0xfeed"]; method := "latestEntropy";
          format := "hex"; cacheTTL := 30;
          retryPolicy := {| maxAttempts := 2; backoffMs := 5 |};
          postProcess := pp |};
     d_transactionHooks :=
       Some {| onEntropyFetch := None; onVote := voteHook;
               onProjectCreate := None |};
     d_karmaWage := VNum 1; d_roles := ["voter"];
     d_governance := {| proposalThreshold := 40; votingContract := "0xgov" |};
     d_votes_cast := 4; d_staking_balance := ofInt 25 |}.

(** The node [createNode] stores for [customData pp voteHook]. *)
Definition customNode (pp : option PostProcess) (voteHook : option string)
    : Node :=
  {| node_id := "node-2"; node_type := "entropy-node";
     creation_date := "2024-01-01T00:00:00.000Z";
     reputation_score := 60;
     wallet_address := "0xbob"; soulboundId := VStr "sbt-2";
     username := VStr "bob";
     entropy_agent :=
       {| contracts := ["0xfeed"]; method := "latestEntropy";
          format := "hex"; cacheTTL := 30;
          retryPolicy := {| maxAttempts := 2; backoffMs := 5 |};
          postProcess := pp |};
     transactionHooks :=
       Some {| onEntropyFetch := None; onVote := voteHook;
               onProjectCreate := None |};
     karmaWage := VNum 1; roles := ["voter"];
     governance := {| proposalThreshold := 40; votingContract := "0xgov" |};
     votes_cast := 4; staking_balance := ofInt 25 |}.

Definition customWorld (pp : option PostProcess) (voteHook : option string)
    : World :=
  (createNode obligingEnv (customData pp voteHook) emptyWorld).2.

Definition hashing : option PostProcess :=
  Some {| pp_type := "hash"; pp_callback := VStr "sha256" |}.

Definition passthrough : option PostProcess :=
  Some {| pp_type := "none"; pp_callback := VUndefined |}.

(** ** createProject and toggleAdRevenue *)

(** The two remaining methods of SovereignEntropyNodeController write two
    node properties that [Node] does not carry, [projects_owned] and
    [ad_revenue_opt_in].  They are kept here in a side table under the
    node's key: the JavaScript object of node [k] is [nodes !! k] together
    with [extras !! k], and a missing entry stands for both properties
    being [undefined]. *)
Module Projects.

Record NodeExtras : Type := {
  projects_owned : option (list string);
  ad_revenue_opt_in : JsValue
}.

Definition noExtras : NodeExtras :=
  {| projects_owned := None; ad_revenue_opt_in := VUndefined |}.

Record PWorld : Type := {
  base : World;
  extras : gmap string NodeExtras
}.

Inductive PExn : Type :=
| Core (e : Exn)
| NotAuthorizedToCreateProjects.
    (* 'Node not authorized to create projects' *)

Inductive PResult (A : Type) : Type :=
| POk (a : A)
| PThrow (e : PExn).
Arguments POk {A} a.
Arguments PThrow {A} e.

Definition PM (A : Type) : Type := PWorld -> PResult A * PWorld.

Definition pret {A} (a : A) : PM A := fun pw => (POk a, pw).

Definition pthrow {A} (e : PExn) : PM A := fun pw => (PThrow e, pw).

Definition pbind {A B} (m : PM A) (k : A -> PM B) : PM B :=
  fun pw =>
    match m pw with
    | (POk a, pw') => k a pw'
    | (PThrow e, pw') => (PThrow e, pw')
    end.

(** A computation of the core controller, run on the core world. *)
Definition lift {A} (m : M A) : PM A :=
  fun pw =>
    match m (base pw) with
    | (Ok a, w') => (POk a, {| base := w'; extras := extras pw |})
    | (Throw e, w') => (PThrow (Core e), {| base := w'; extras := extras pw |})
    end.

Definition extrasOf (nodeId : string) (pw : PWorld) : NodeExtras :=
  default noExtras (extras pw !! nodeId).

Definition set_extras (nodeId : string) (x : NodeExtras) : PM unit :=
  fun pw =>
    (POk tt, {| base := base pw; extras := <[nodeId := x]> (extras pw) |}).

Section Methods.

Variable env : Env.

(** [projectData.id || uuidv4()], then
    [node.projects_owned = node.projects_owned || [];
     node.projects_owned.push(projectId)] *)
Definition createProject (nodeId : string) (projectDataId : option string)
    : PM string :=
  pbind (lift (getNode nodeId)) (fun node =>
  if negb (includes "creator" (roles node))
  then pthrow NotAuthorizedToCreateProjects
  else
    pbind (match truthyStr projectDataId with
           | Some given => pret given
           | None => lift (randomUUID env)
           end) (fun projectId =>
    pbind (fun pw =>
             let x := extrasOf nodeId pw in
             set_extras nodeId
               {| projects_owned :=
                    Some (default [] (projects_owned x) ++ [projectId]);
                  ad_revenue_opt_in := ad_revenue_opt_in x |} pw) (fun _ =>
    pbind (lift (triggerHook env (hookOf onProjectCreate node)
                   (VObj [("nodeId", VStr nodeId);
                          ("projectId", VStr projectId)]))) (fun _ =>
    pbind (lift (invoke env (DistributeKarmaWage (wallet_address node)
                               (karmaWage node)))) (fun _ =>
    pbind (lift (invoke env (UpdateReputation (wallet_address node) 1%Q)))
      (fun _ =>
    pbind (lift (logComplianceEvent env "project_created"
                   (wallet_address node)
                   (VObj [("node_id", VStr nodeId);
                          ("projectId", VStr projectId)]))) (fun _ =>
    pret projectId))))))).

(** [node.ad_revenue_opt_in = optIn] *)
Definition toggleAdRevenue (nodeId : string) (optIn : JsValue) : PM JsValue :=
  pbind (lift (getNode nodeId)) (fun node =>
  pbind (fun pw =>
           let x := extrasOf nodeId pw in
           set_extras nodeId
             {| projects_owned := projects_owned x;
                ad_revenue_opt_in := optIn |} pw) (fun _ =>
  pbind (lift (logComplianceEvent env "ad_revenue_toggled"
                 (wallet_address node)
                 (VObj [("node_id", VStr nodeId); ("optIn", optIn)])))
    (fun _ =>
  pret optIn))).

(** Successive [createProject] calls for one node, results dropped. *)
Fixpoint createProjects (nodeId : string) (ids : list (option string))
    (pw : PWorld) : PWorld :=
  match ids with
  | [] => pw
  | i :: rest => createProjects nodeId rest (createProject nodeId i pw).2
  end.

End Methods.

(** The projects a node owns, an absent list read as empty. *)
Definition owned (nodeId : string) (pw : PWorld) : list string :=
  default [] (projects_owned (extrasOf nodeId pw)).

End Projects.

(** ** DatingController *)

(** The dating controller of the controllers bundle: profiles, matches and
    interactions of a platform.  It shares the audit sink, the clock and
    the UUID generator with the controllers above (the [core] world) and
    has its own store and its own calls on the chain adapter.

    Instants: [expiry] is kept as the number of milliseconds the stored
    ISO string denotes, since the controller only ever parses it back to
    compare it with the clock. *)
Module Dating.

Record Profile : Type := {
  prof_id : string;
  agent : string;
  prof_soulboundId : JsValue;
  displayName : JsValue;
  verified : bool;                    (* truthiness of [verified] *)
  prof_createdAt : string;
  prof_lastUpdated : string
}.

(** [profileData]: a profile as submitted; [id] is optional. *)
Record ProfileData : Type := {
  pd_id : option string;
  pd_agent : string;
  pd_soulboundId : JsValue;
  pd_displayName : JsValue;
  pd_verified : bool
}.

Record Match : Type := {
  match_id : string;
  agent1 : string;
  agent2 : string;
  match_status : string;
  compatibilityScore : Z;
  match_createdAt : string;
  expiry : option Z;
  match_lastUpdated : option string
}.

Record Interaction : Type := {
  int_id : string;
  int_agent1 : string;
  int_agent2 : string;
  int_type : JsValue;
  int_createdAt : string
}.

(** [interactionData] *)
Record InteractionData : Type := {
  id_id : option string;
  id_agent1 : string;
  id_agent2 : string;
  id_type : JsValue
}.

Record DatingHooks : Type := {
  onVerify : option string;
  onMatch : option string;
  onInteract : option string;
  onDispute : option string
}.

Record DatingGovernance : Type := {
  disputeResolution : string;
  dating_votingContract : string
}.

(** [platform.platform] *)
Record PlatformBody : Type := {
  profiles : list Profile;
  matches : list Match;
  interactions : list Interaction;
  allowUserProfiles : bool;
  dating_karmaWage : JsValue;
  dating_hooks : option DatingHooks;
  dating_governance : DatingGovernance
}.

Record Platform : Type := {
  plat_id : string;
  title : JsValue;
  plat_createdAt : string;
  platform : PlatformBody
}.

Definition set_profiles (l : list Profile) (p : Platform) : Platform :=
  {| plat_id := plat_id p; title := title p;
     plat_createdAt := plat_createdAt p;
     platform :=
       {| profiles := l; matches := matches (platform p);
          interactions := interactions (platform p);
          allowUserProfiles := allowUserProfiles (platform p);
          dating_karmaWage := dating_karmaWage (platform p);
          dating_hooks := dating_hooks (platform p);
          dating_governance := dating_governance (platform p) |} |}.

Definition set_matches (l : list Match) (p : Platform) : Platform :=
  {| plat_id := plat_id p; title := title p;
     plat_createdAt := plat_createdAt p;
     platform :=
       {| profiles := profiles (platform p); matches := l;
          interactions := interactions (platform p);
          allowUserProfiles := allowUserProfiles (platform p);
          dating_karmaWage := dating_karmaWage (platform p);
          dating_hooks := dating_hooks (platform p);
          dating_governance := dating_governance (platform p) |} |}.

Definition set_interactions (l : list Interaction) (p : Platform) : Platform :=
  {| plat_id := plat_id p; title := title p;
     plat_createdAt := plat_createdAt p;
     platform :=
       {| profiles := profiles (platform p); matches := matches (platform p);
          interactions := l;
          allowUserProfiles := allowUserProfiles (platform p);
          dating_karmaWage := dating_karmaWage (platform p);
          dating_hooks := dating_hooks (platform p);
          dating_governance := dating_governance (platform p) |} |}.

(** [match.status = st; match.lastUpdated = stamp] *)
Definition restamp (st stamp : string) (m : Match) : Match :=
  {| match_id := match_id m; agent1 := agent1 m; agent2 := agent2 m;
     match_status := st; compatibilityScore := compatibilityScore m;
     match_createdAt := match_createdAt m; expiry := expiry m;
     match_lastUpdated := Some stamp |}.

(** [profile.verified = true; profile.lastUpdated = stamp] *)
Definition mark_verified (stamp : string) (p : Profile) : Profile :=
  {| prof_id := prof_id p; agent := agent p;
     prof_soulboundId := prof_soulboundId p; displayName := displayName p;
     verified := true; prof_createdAt := prof_createdAt p;
     prof_lastUpdated := stamp |}.

(** The calls the dating controller makes on the chain adapter. *)
Inductive DCall : Type :=
| VerifySoulbound (who : string) (soulbound : JsValue)
| RegisterProfile (platformId : string) (p : Profile)
| UpdateProfile (platformId : string) (p : Profile)
| RegisterMatch (platformId : string) (m : Match)
| UpdateMatch (platformId : string) (m : Match)
| RegisterInteraction (platformId : string) (i : Interaction)
| RunHook (hook : string) (arg : JsValue)
| PayKarma (who : string) (wage : JsValue)
| AdjustReputation (who : string) (delta : Z).

Inductive DEvent : Type :=
| Called (c : DCall) (o : Outcome).

Inductive DExn : Type :=
| Core (e : Exn)
| PlatformNotFound
    (* 'Platform not found' *)
| UserProfilesNotAllowed
    (* 'User profiles not allowed' *)
| DatingValidationFailed
    (* `Validation failed: ...` *)
| InvalidSoulboundAgent (who : string)
    (* `Invalid soulbound ID for agent ${profileData.agent}` *)
| ProfileNotFound
    (* 'Profile not found' *)
| ProfilesMissingOrUnverified
    (* 'One or both profiles not found or unverified' *)
| MatchNotFoundOrUnauthorized
    (* 'Match not found or agent not authorized' *)
| InvalidStatus
    (* 'Invalid status' *)
| NoAcceptedMatch
    (* 'No accepted match found for interaction' *)
| Rejected (message : string).
    (* an awaited adapter promise rejected *)

Inductive DResult (A : Type) : Type :=
| DOk (a : A)
| DThrow (e : DExn).
Arguments DOk {A} a.
Arguments DThrow {A} e.

Record DWorld : Type := {
  core : World;
  platforms : gmap string Platform;
  calls : list DEvent
}.

Record DEnv : Type := {
  coreEnv : Env;
  datingAdapter : list DEvent -> DCall -> Outcome;
  validateProfile : ProfileData -> bool;
  validateInteraction : InteractionData -> bool;
  clockMs : nat -> Z
}.

Definition DM (A : Type) : Type := DWorld -> DResult A * DWorld.

Definition dret {A} (a : A) : DM A := fun dw => (DOk a, dw).

Definition dthrow {A} (e : DExn) : DM A := fun dw => (DThrow e, dw).

Definition dbind {A B} (m : DM A) (k : A -> DM B) : DM B :=
  fun dw =>
    match m dw with
    | (DOk a, dw') => k a dw'
    | (DThrow e, dw') => (DThrow e, dw')
    end.

Notation "'do*' x ':=' m 'in' k" := (dbind m (fun x => k))
  (at level 10, x name, m at level 100, k at level 200).
Notation "m ';;*' k" := (dbind m (fun _ => k))
  (at level 100, k at level 200, right associativity).

Definition with_core (w : World) (dw : DWorld) : DWorld :=
  {| core := w; platforms := platforms dw; calls := calls dw |}.

(** A computation of the shared services, run on the core world. *)
Definition lift {A} (m : M A) : DM A :=
  fun dw =>
    match m (core dw) with
    | (Ok a, w') => (DOk a, with_core w' dw)
    | (Throw e, w') => (DThrow (Core e), with_core w' dw)
    end.

Definition put_platform (platformId : string) (p : Platform) : DM unit :=
  fun dw =>
    (DOk tt,
     {| core := core dw;
        platforms := <[platformId := p]> (platforms dw);
        calls := calls dw |}).

Section Methods.

Variable env : DEnv.

(** [await this.chainAdapter.f(...)] *)
Definition call (c : DCall) : DM JsValue :=
  fun dw =>
    let o := datingAdapter env (calls dw) c in
    let dw' := {| core := core dw; platforms := platforms dw;
                  calls := calls dw ++ [Called c o] |} in
    match o with
    | Resolves v => (DOk v, dw')
    | Rejects msg => (DThrow (Rejected msg), dw')
    end.

(** [new Date().toISOString()] *)
Definition stamp : DM string := lift (now (coreEnv env)).

(** [Date.now()], or [new Date()] read as an instant *)
Definition instant : DM Z :=
  fun dw =>
    (DOk (clockMs env (dateReads (core dw))),
     with_core (advanceClock 1 (core dw)) dw).

Definition log (ev who : string) (dts : JsValue) : DM unit :=
  lift (logComplianceEvent (coreEnv env) ev who dts) ;;* dret tt.

(** [getPlatform], and the lookup every method starts with *)
Definition getPlatform (platformId : string) : DM Platform :=
  fun dw =>
    match platforms dw !! platformId with
    | Some p => (DOk p, dw)
    | None => (DThrow PlatformNotFound, dw)
    end.

Definition hook (sel : DatingHooks -> option string) (p : Platform)
    : option string :=
  match dating_hooks (platform p) with
  | Some hooks => truthyStr (sel hooks)
  | None => None
  end.

Definition runHook (h : option string) (arg : JsValue) : DM unit :=
  match h with
  | Some name => call (RunHook name arg) ;;* dret tt
  | None => dret tt
  end.

Definition createProfile (platformId : string) (data : ProfileData)
    : DM string :=
  do* p := getPlatform platformId in
  if negb (allowUserProfiles (platform p)) then dthrow UserProfilesNotAllowed
  else if negb (validateProfile env data) then dthrow DatingValidationFailed
  else
    do* ok := call (VerifySoulbound (pd_agent data) (pd_soulboundId data)) in
    if negb (truthy ok) then dthrow (InvalidSoulboundAgent (pd_agent data))
    else
      do* profileId := match truthyStr (pd_id data) with
                       | Some given => dret given
                       | None => lift (randomUUID (coreEnv env))
                       end in
      do* created := stamp in
      do* updated := stamp in
      let profile :=
        {| prof_id := profileId; agent := pd_agent data;
           prof_soulboundId := pd_soulboundId data;
           displayName := pd_displayName data;
           verified := pd_verified data;
           prof_createdAt := created; prof_lastUpdated := updated |} in
      put_platform platformId
        (set_profiles (profiles (platform p) ++ [profile]) p) ;;*
      call (PayKarma (agent profile) (dating_karmaWage (platform p))) ;;*
      call (RegisterProfile platformId profile) ;;*
      log "profile_created" (agent profile)
        (VObj [("platformId", VStr platformId); ("profileId", VStr profileId);
               ("displayName", displayName profile)]) ;;*
      dret profileId.

Definition verifyProfile (platformId profileId : string) : DM unit :=
  do* p := getPlatform platformId in
  match list_find (fun q => prof_id q = profileId) (profiles (platform p)) with
  | None => dthrow ProfileNotFound
  | Some (i, profile) =>
      runHook (hook onVerify p)
        (VObj [("platformId", VStr platformId);
               ("profileId", VStr profileId)]) ;;*
      do* updated := stamp in
      let profile' := mark_verified updated profile in
      put_platform platformId
        (set_profiles (<[i := profile']> (profiles (platform p))) p) ;;*
      call (UpdateProfile platformId profile') ;;*
      log "profile_verified" "system"
        (VObj [("platformId", VStr platformId);
               ("profileId", VStr profileId)])
  end.

(** [profiles.find(p => p.agent === who && p.verified)] *)
Definition verifiedProfile (who : string) (p : Platform) : option Profile :=
  snd <$> list_find (fun q => agent q = who /\ verified q = true)
            (profiles (platform p)).

(** Seven days, in milliseconds. *)
Definition sevenDays : Z := 7 * 24 * 60 * 60 * 1000.

Definition createMatch (platformId who1 who2 : string) (score : Z)
    : DM string :=
  do* p := getPlatform platformId in
  match verifiedProfile who1 p, verifiedProfile who2 p with
  | Some _, Some _ =>
      do* matchId := lift (randomUUID (coreEnv env)) in
      do* created := stamp in
      do* t := instant in
      let m :=
        {| match_id := matchId; agent1 := who1; agent2 := who2;
           match_status := "pending";
           compatibilityScore := Z.min (Z.max score 0) 100;
           match_createdAt := created; expiry := Some (t + sevenDays);
           match_lastUpdated := None |} in
      put_platform platformId
        (set_matches (matches (platform p) ++ [m]) p) ;;*
      runHook (hook onMatch p)
        (VObj [("platformId", VStr platformId); ("matchId", VStr matchId)]) ;;*
      call (PayKarma who1 (dating_karmaWage (platform p))) ;;*
      call (PayKarma who2 (dating_karmaWage (platform p))) ;;*
      call (RegisterMatch platformId m) ;;*
      log "match_created" "system"
        (VObj [("platformId", VStr platformId); ("matchId", VStr matchId);
               ("agent1", VStr who1); ("agent2", VStr who2)]) ;;*
      dret matchId
  | _, _ => dthrow ProfilesMissingOrUnverified
  end.

Definition isParticipant (who : string) (m : Match) : bool :=
  String.eqb (agent1 m) who || String.eqb (agent2 m) who.

Definition updateMatchStatus (platformId matchId who st : string)
    : DM string :=
  do* p := getPlatform platformId in
  match list_find (fun m => match_id m = matchId) (matches (platform p)) with
  | None => dthrow MatchNotFoundOrUnauthorized
  | Some (i, m) =>
      if negb (isParticipant who m) then dthrow MatchNotFoundOrUnauthorized
      else if negb (includes st ["accepted"; "rejected"])
      then dthrow InvalidStatus
      else
        do* updated := stamp in
        let m' := restamp st updated m in
        put_platform platformId
          (set_matches (<[i := m']> (matches (platform p))) p) ;;*
        call (UpdateMatch platformId m') ;;*
        (if String.eqb st "accepted"
         then call (AdjustReputation who 1) ;;*
              call (PayKarma who (dating_karmaWage (platform p))) ;;*
              dret tt
         else dret tt) ;;*
        log "match_updated" who
          (VObj [("platformId", VStr platformId); ("matchId", VStr matchId);
                 ("status", VStr st)]) ;;*
        dret st
  end.

(** The test of [createInteraction]'s [find]: an accepted match between
    the two agents, in either order. *)
Definition acceptedBetween (a b : string) (m : Match) : bool :=
  (String.eqb (agent1 m) a && String.eqb (agent2 m) b
   || String.eqb (agent1 m) b && String.eqb (agent2 m) a)
  && String.eqb (match_status m) "accepted".

Definition createInteraction (platformId : string) (data : InteractionData)
    : DM string :=
  do* p := getPlatform platformId in
  if negb (validateInteraction env data) then dthrow DatingValidationFailed
  else if negb (existsb (acceptedBetween (id_agent1 data) (id_agent2 data))
                  (matches (platform p)))
  then dthrow NoAcceptedMatch
  else
    do* interactionId := match truthyStr (id_id data) with
                         | Some given => dret given
                         | None => lift (randomUUID (coreEnv env))
                         end in
    do* created := stamp in
    let interaction :=
      {| int_id := interactionId; int_agent1 := id_agent1 data;
         int_agent2 := id_agent2 data; int_type := id_type data;
         int_createdAt := created |} in
    put_platform platformId
      (set_interactions (interactions (platform p) ++ [interaction]) p) ;;*
    runHook (hook onInteract p)
      (VObj [("platformId", VStr platformId);
             ("interactionId", VStr interactionId)]) ;;*
    call (PayKarma (id_agent1 data) (dating_karmaWage (platform p))) ;;*
    call (RegisterInteraction platformId interaction) ;;*
    log "interaction_created" (id_agent1 data)
      (VObj [("platformId", VStr platformId);
             ("interactionId", VStr interactionId);
             ("type", int_type interaction)]) ;;*
    dret interactionId.

(** The test of the loop of [checkExpiredMatches]. *)
Definition isDue (t : Z) (m : Match) : bool :=
  match expiry m with
  | Some e => (e <? t) && negb (String.eqb (match_status m) "expired")
  | None => false
  end.

(** The loop of [checkExpiredMatches] from position [i] on, over the
    [n] matches that remain: the match is read from the store each time
    round, and a failure of the adapter or of the audit log ends the loop
    with the matches expired so far left expired. *)
Fixpoint expireFrom (platformId : string) (t : Z) (i n : nat) : DM unit :=
  match n with
  | O => dret tt
  | S n' =>
      do* p := getPlatform platformId in
      match matches (platform p) !! i with
      | None => dret tt
      | Some m =>
          (if isDue t m
           then
             do* updated := stamp in
             let m' := restamp "expired" updated m in
             put_platform platformId
               (set_matches (<[i := m']> (matches (platform p))) p) ;;*
             call (UpdateMatch platformId m') ;;*
             log "match_expired" "system"
               (VObj [("platformId", VStr platformId);
                      ("matchId", VStr (match_id m))])
           else dret tt) ;;*
          expireFrom platformId t (S i) n'
      end
  end.

Definition checkExpiredMatches (platformId : string) : DM unit :=
  do* p := getPlatform platformId in
  do* t := instant in
  expireFrom platformId t 0 (length (matches (platform p))).

End Methods.

(** Every call of the dating controller on the adapter resolves. *)
Definition adapterResolves (env : DEnv) : Prop :=
  forall h c, exists v, datingAdapter env h c = Resolves v.

(** The match [createMatch] builds in world [dw]. *)
Definition newMatch (env : DEnv) (who1 who2 : string) (score : Z)
    (dw : DWorld) : Match :=
  {| match_id := uuid (coreEnv env) (uuidReads (core dw));
     agent1 := who1; agent2 := who2; match_status := "pending";
     compatibilityScore := Z.min (Z.max score 0) 100;
     match_createdAt := dateISO (coreEnv env) (dateReads (core dw));
     expiry := Some (clockMs env (S (dateReads (core dw))) + sevenDays);
     match_lastUpdated := None |}.

(** The matches of a platform of the store, none when it is absent. *)
Definition matchesOf (platformId : string) (dw : DWorld) : list Match :=
  match platforms dw !! platformId with
  | Some p => matches (platform p)
  | None => []
  end.

(** The argument the [onVerify] hook receives. *)
Definition verifyHookArg (platformId profileId : string) : JsValue :=
  VObj [("platformId", VStr platformId); ("profileId", VStr profileId)].

(** What a match keeps for life: everything but its status and the time
    of its last update. *)
Definition sameMatch (m m' : Match) : Prop :=
  match_id m' = match_id m /\ agent1 m' = agent1 m /\ agent2 m' = agent2 m /\
  compatibilityScore m' = compatibilityScore m /\
  match_createdAt m' = match_createdAt m /\ expiry m' = expiry m.

(** The public operations of the dating controller on a platform, as
    calls. *)
Inductive DatingCall : Type :=
| DoCreateProfile (platformId : string) (data : ProfileData)
| DoVerifyProfile (platformId profileId : string)
| DoCreateMatch (platformId who1 who2 : string) (score : Z)
| DoUpdateMatch (platformId matchId who st : string)
| DoInteract (platformId : string) (data : InteractionData)
| DoExpire (platformId : string).

Definition runCall (env : DEnv) (c : DatingCall) (dw : DWorld) : DWorld :=
  match c with
  | DoCreateProfile pid data => (createProfile env pid data dw).2
  | DoVerifyProfile pid prof => (verifyProfile env pid prof dw).2
  | DoCreateMatch pid a b score => (createMatch env pid a b score dw).2
  | DoUpdateMatch pid mid who st => (updateMatchStatus env pid mid who st dw).2
  | DoInteract pid data => (createInteraction env pid data dw).2
  | DoExpire pid => (checkExpiredMatches env pid dw).2
  end.

Definition runCalls (env : DEnv) (cs : list DatingCall) (dw : DWorld)
    : DWorld :=
  fold_left (fun acc c => runCall env c acc) cs dw.

Definition scoreInRange (m : Match) : Prop :=
  0 <= compatibilityScore m <= 100.

(** How a platform may evolve under the dating controller. *)
Definition platformKept (p p' : Platform) : Prop :=
  interactions (platform p) `prefix_of` interactions (platform p') /\
  (forall i q,
     profiles (platform p) !! i = Some q ->
     exists q',
       profiles (platform p') !! i = Some q' /\
       prof_id q' = prof_id q /\ agent q' = agent q /\
       (verified q = true -> verified q' = true)) /\
  (forall i m,
     matches (platform p) !! i = Some m ->
     exists m', matches (platform p') !! i = Some m' /\ sameMatch m m') /\
  (Forall scoreInRange (matches (platform p)) ->
   Forall scoreInRange (matches (platform p'))).

(** How the dating store may evolve: platforms neither appear nor
    disappear, and each evolves as above. *)
Definition storeKept (dw dw' : DWorld) : Prop :=
  (forall pid, platforms dw !! pid = None -> platforms dw' !! pid = None) /\
  (forall pid p,
     platforms dw !! pid = Some p ->
     exists p', platforms dw' !! pid = Some p' /\ platformKept p p').

(** One step of a platform: a profile, a match or an interaction appended,
    a profile verified in place, or a match given a new status in place. *)
Definition platformStep (p p' : Platform) : Prop :=
  (exists q, p' = set_profiles (profiles (platform p) ++ [q]) p) \/
  (exists i q stamp,
     profiles (platform p) !! i = Some q /\
     p' = set_profiles
            (<[i := mark_verified stamp q]> (profiles (platform p))) p) \/
  (exists m,
     scoreInRange m /\ p' = set_matches (matches (platform p) ++ [m]) p) \/
  (exists i m st stamp,
     matches (platform p) !! i = Some m /\
     p' = set_matches (<[i := restamp st stamp m]> (matches (platform p))) p) \/
  (exists x,
     p' = set_interactions (interactions (platform p) ++ [x]) p).

(** The interactions of a platform of the store. *)
Definition interactionsOf (platformId : string) (dw : DWorld)
    : list Interaction :=
  match platforms dw !! platformId with
  | Some p => interactions (platform p)
  | None => []
  end.

(** The same interaction request with the two agents exchanged. *)
Definition swapAgents (data : InteractionData) : InteractionData :=
  {| id_id := id_id data; id_agent1 := id_agent2 data;
     id_agent2 := id_agent1 data; id_type := id_type data |}.

(** The profiles of a platform of the store, none when it is absent. *)
Definition profilesOf (platformId : string) (dw : DWorld) : list Profile :=
  match platforms dw !! platformId with
  | Some p => profiles (platform p)
  | None => []
  end.

End Dating.

(** ** ToolsController.addBreakpoint

    The tools controller answers HTTP requests: every method catches what
    its body throws and answers 400 with the message.  Of [toolsData] the
    model keeps what [addBreakpoint] reads or writes, the debugger of the
    code editor; [rest] stands for every other property, which the method
    passes to the schema untouched.  Line numbers are integers. *)

Module Tools.

Record ToolsData : Type := {
  breakpoints : list Z;
  watchVariables : list JsValue;
  rest : JsValue
}.

Definition set_breakpoints (l : list Z) (d : ToolsData) : ToolsData :=
  {| breakpoints := l; watchVariables := watchVariables d; rest := rest d |}.

Record TWorld : Type := {
  core : World;
  toolsData : ToolsData
}.

Record TEnv : Type := {
  coreEnv : Env;
  validateTools : ToolsData -> bool
}.

(** What [res.json] is given: [editor.debugging], or [{ message }]. *)
Inductive Body : Type :=
| Debugging (breakpoints : list Z) (watchVariables : list JsValue)
| Message (e : Exn).

Record Response : Type := {
  res_status : Z;
  res_body : Body
}.

(** [breakpoints.includes(lineNumber)] *)
Definition hasBreakpoint (lineNumber : Z) (l : list Z) : bool :=
  existsb (Z.eqb lineNumber) l.

Definition addBreakpoint (env : TEnv) (userId : string) (lineNumber : Z)
    (tw : TWorld) : Response * TWorld :=
  let editor := toolsData tw in
  let editor' :=
    if negb (hasBreakpoint lineNumber (breakpoints editor))
    then set_breakpoints (breakpoints editor ++ [lineNumber]) editor
    else editor in
  if negb (validateTools env editor')
  then ({| res_status := 400; res_body := Message ValidationFailed |},
        {| core := core tw; toolsData := editor' |})
  else
    match logComplianceEvent (coreEnv env) "breakpoint_added" userId
            (VObj [("lineNumber", VNum lineNumber)]) (core tw) with
    | (Ok _, w) =>
        ({| res_status := 200;
            res_body := Debugging (breakpoints editor')
                          (watchVariables editor') |},
         {| core := w; toolsData := editor' |})
    | (Throw e, w) =>
        ({| res_status := 400; res_body := Message e |},
         {| core := w; toolsData := editor' |})
    end.

(** A series of [addBreakpoint] requests, each a user and a line. *)
Definition addBreakpoints (env : TEnv) (reqs : list (string * Z))
    (tw : TWorld) : TWorld :=
  fold_left (fun acc req => (addBreakpoint env req.1 req.2 acc).2) reqs tw.

End Tools.

(** A world with node [node-1] of [demoData] and no extras. *)
Definition projectWorld : Projects.PWorld :=
  {| Projects.base := votingWorld; Projects.extras := ∅ |}.

(** A world with node [node-2] of [customData], which is no creator. *)
Definition voterOnlyWorld : Projects.PWorld :=
  {| Projects.base := customWorld passthrough None; Projects.extras := ∅ |}.

(** A dating platform with two verified profiles, one unverified, a
    pending match that expired long ago and one that has not, and an
    [onVerify] hook. *)
Definition alice : Dating.Profile :=
  {| Dating.prof_id := "p-alice"; Dating.agent := "alice";
     Dating.prof_soulboundId := VStr "sb-alice";
     Dating.displayName := VStr "Alice"; Dating.verified := true;
     Dating.prof_createdAt := "2023-12-01T00:00:00.000Z";
     Dating.prof_lastUpdated := "2023-12-01T00:00:00.000Z" |}.

Definition bob : Dating.Profile :=
  {| Dating.prof_id := "p-bob"; Dating.agent := "bob";
     Dating.prof_soulboundId := VStr "sb-bob";
     Dating.displayName := VStr "Bob"; Dating.verified := true;
     Dating.prof_createdAt := "2023-12-01T00:00:00.000Z";
     Dating.prof_lastUpdated := "2023-12-01T00:00:00.000Z" |}.

Definition carol : Dating.Profile :=
  {| Dating.prof_id := "p-carol"; Dating.agent := "carol";
     Dating.prof_soulboundId := VStr "sb-carol";
     Dating.displayName := VStr "Carol"; Dating.verified := false;
     Dating.prof_createdAt := "2023-12-01T00:00:00.000Z";
     Dating.prof_lastUpdated := "2023-12-01T00:00:00.000Z" |}.

Definition firstMatch : Dating.Match :=
  {| Dating.match_id := "m-1"; Dating.agent1 := "alice";
     Dating.agent2 := "bob"; Dating.match_status := "pending";
     Dating.compatibilityScore := 80;
     Dating.match_createdAt := "2023-12-01T00:00:00.000Z";
     Dating.expiry := Some 500; Dating.match_lastUpdated := None |}.

Definition laterMatch : Dating.Match :=
  {| Dating.match_id := "m-2"; Dating.agent1 := "bob";
     Dating.agent2 := "alice"; Dating.match_status := "pending";
     Dating.compatibilityScore := 40;
     Dating.match_createdAt := "2023-12-01T00:00:00.000Z";
     Dating.expiry := Some 5000; Dating.match_lastUpdated := None |}.

Definition datingPlatform : Dating.Platform :=
  {| Dating.plat_id := "plat-1"; Dating.title := VStr "Meet";
     Dating.plat_createdAt := "2023-12-01T00:00:00.000Z";
     Dating.platform :=
       {| Dating.profiles := [alice; bob; carol];
          Dating.matches := [firstMatch; laterMatch];
          Dating.interactions := [];
          Dating.allowUserProfiles := true;
          Dating.dating_karmaWage := VNum 1;
          Dating.dating_hooks :=
            Some {| Dating.onVerify := Some "verifyHook";
                    Dating.onMatch := None; Dating.onInteract := None;
                    Dating.onDispute := None |};
          Dating.dating_governance :=
            {| Dating.disputeResolution := "voting";
               Dating.dating_votingContract := "0xvote" |} |} |}.

Definition datingWorld : Dating.DWorld :=
  {| Dating.core := emptyWorld;
     Dating.platforms := {["plat-1" := datingPlatform]};
     Dating.calls := [] |}.

(** An environment whose adapter resolves every call to [true], whose
    schemas accept everything and whose clock advances a second per
    reading, starting at one second. *)
Definition datingEnv : Dating.DEnv :=
  {| Dating.coreEnv := steadyEnv;
     Dating.datingAdapter := fun _ _ => Resolves (VBool true);
     Dating.validateProfile := fun _ => true;
     Dating.validateInteraction := fun _ => true;
     Dating.clockMs := fun n => 1000 * Z.of_nat (S n) |}.

(** [datingPlatform] after bob accepted the first match. *)
Definition acceptedPlatform : Dating.Platform :=
  Dating.set_matches
    [Dating.restamp "accepted" "2024-01-01T00:00:00.000Z" firstMatch;
     laterMatch] datingPlatform.

Definition acceptedWorld : Dating.DWorld :=
  (Dating.updateMatchStatus datingEnv "plat-1" "m-1" "bob" "accepted"
     datingWorld).2.

Definition helloData : Dating.InteractionData :=
  {| Dating.id_id := Some "i-1"; Dating.id_agent1 := "alice";
     Dating.id_agent2 := "bob"; Dating.id_type := VStr "message" |}.

Definition daveData : Dating.ProfileData :=
  {| Dating.pd_id := None; Dating.pd_agent := "dave";
     Dating.pd_soulboundId := VStr "sb-dave";
     Dating.pd_displayName := VStr "Dave"; Dating.pd_verified := false |}.

(** A tools controller whose schema wants positive line numbers, with one
    breakpoint set. *)
Definition strictToolsEnv : Tools.TEnv :=
  {| Tools.coreEnv := steadyEnv;
     Tools.validateTools :=
       fun d => forallb (fun l => 0 <? l) (Tools.breakpoints d) |}.

Definition toolsWorld : Tools.TWorld :=
  {| Tools.core := emptyWorld;
     Tools.toolsData :=
       {| Tools.breakpoints := [3]; Tools.watchVariables := [];
          Tools.rest := VObj [] |} |}.

(** A day on the dating platform: carol is verified, matched with alice
    (who accepts), and the expired matches are swept. *)
Definition datingDay : list Dating.DatingCall :=
  [Dating.DoVerifyProfile "plat-1" "p-carol";
   Dating.DoCreateMatch "plat-1" "alice" "carol" 250;
   Dating.DoUpdateMatch "plat-1" "m-2" "alice" "accepted";
   Dating.DoInteract "plat-1" helloData;
   Dating.DoExpire "plat-1"].

(** * Properties *)

(** ** Tactics for running the monadic code symbolically *)

(** Unfold the controllers' plumbing in a hypothesis. *)
Ltac expose H :=
  unfold deliverEntropy, postProcessStep, triggerHook, logComplianceEvent,
    executeRitual, validateRitualData, validateNodeData, invoke, perform,
    bind, modify, ret, throw, now, randomUUID in H;
  cbn in H.

(** Split on the next adapter answer or validator verdict that decides a
    run held in a hypothesis. *)
Ltac branch H :=
  match type of H with
  | context [chainAdapter ?e ?h ?c] =>
      let E := fresh "Hout" in destruct (chainAdapter e h c) eqn:E; cbn in H
  | context [validateExchange ?e ?l] =>
      let E := fresh "Hval" in destruct (validateExchange e l) eqn:E; cbn in H
  | context [validateRitual ?e ?d] =>
      let E := fresh "Hrit" in destruct (validateRitual e d) eqn:E; cbn in H
  | context [if String.eqb ?a ?b then _ else _] =>
      let E := fresh "Hstr" in destruct (String.eqb a b) eqn:E; cbn in H
  end.

(** Close [history w' = history w ++ ?d] on a finished run. *)
Ltac history_delta :=
  cbn [history record_event sleep set_auditLog set_nodes set_ritualData];
  first [ reflexivity
        | rewrite <- !app_assoc; reflexivity
        | symmetry; apply app_nil_r ].

(** ** The retry loop *)

Section RetryLoop.

Variable env : Env.
Variable agent : EntropyAgent.
Variable contractIndex : nat.

Let N := maxAttempts (retryPolicy agent).
Let call := contractCall agent contractIndex.
Let wait := backoffMs (retryPolicy agent).

(** One iteration of the loop, read off its defining equations. *)
Lemma retryLoop_step (a : Z) (w : World) :
  retryLoop env agent contractIndex a w =
  if Z_lt_dec a N then
    match chainAdapter env (history w) call with
    | Resolves v => (Ok v, record_event (Invoked call (Resolves v)) w)
    | Rejects msg =>
        if Z_ge_dec (a + 1) N
        then (Throw (EntropyFetchFailed (a + 1) msg),
              record_event (Invoked call (Rejects msg)) w)
        else retryLoop env agent contractIndex (a + 1)
               (sleep wait (record_event (Invoked call (Rejects msg)) w))
    end
  else (Ok VUndefined, w).
Proof.
  rewrite retryLoop_equation_1. subst N call wait.
  destruct (Z_lt_dec a (maxAttempts (retryPolicy agent))); simp retryLoop;
    [| reflexivity].
  unfold perform.
  destruct (chainAdapter env (history w) (contractCall agent contractIndex));
    simp retryLoop; [| reflexivity].
  destruct (Z_ge_dec (a + 1) (maxAttempts (retryPolicy agent)));
    simp retryLoop; reflexivity.
Qed.

Lemma gatewayCalls_app (h1 h2 : list Event) :
  gatewayCalls (h1 ++ h2) = (gatewayCalls h1 + gatewayCalls h2)%nat.
Proof. unfold gatewayCalls. rewrite filter_app, length_app. reflexivity. Qed.

(** What the loop leaves behind, in terms of the calls it recorded:
    either the guard failed at once, or it made some rejected attempts and
    then one last call, which decided the result. *)
Lemma retryLoop_shape (n : nat) : forall (a : Z) (w : World) r w',
  Z.to_nat (N - a) = n ->
  retryLoop env agent contractIndex a w = (r, w') ->
  (N <= a /\ r = Ok VUndefined /\ w' = w) \/
  (a < N /\ exists pre o,
      w' = with_history (history w ++ pre ++ [Invoked call o]) w /\
      Forall (failedAttempt agent contractIndex) pre /\
      match o with
      | Resolves v => r = Ok v /\ (gatewayCalls pre < n)%nat
      | Rejects msg =>
          r = Throw (EntropyFetchFailed N msg) /\ S (gatewayCalls pre) = n
      end).
Proof.
  induction n as [| n IH]; intros a w r w' Hn Hrun;
    rewrite retryLoop_step in Hrun; fold N call wait in Hrun.
  - destruct (Z_lt_dec a N) as [Hlt | Hge]; [lia |].
    left. inversion Hrun; subst. repeat split; lia.
  - destruct (Z_lt_dec a N) as [Hlt | Hge]; [| lia].
    right. split; [assumption |].
    destruct (chainAdapter env (history w) call) as [msg | v] eqn:Hout.
    + destruct (Z_ge_dec (a + 1) N) as [Hlast | Hmore].
      * inversion Hrun; subst r w'. exists [], (Rejects msg).
        split; [reflexivity |]. split; [constructor |].
        split; [do 2 f_equal; lia |].
        cbn. lia.
      * apply IH in Hrun; [| lia].
        destruct Hrun as [[Hbad _] | [_ (pre & o & Hw & Hpre & Ho)]]; [lia |].
        exists (Invoked call (Rejects msg) :: Slept wait :: pre), o.
        split; [| split].
        -- rewrite Hw. cbn. unfold with_history. cbn.
           rewrite <- !app_assoc. reflexivity.
        -- constructor; [left; eauto |]. constructor; [right; reflexivity |].
           assumption.
        -- assert (Hc : gatewayCalls
                     (Invoked call (Rejects msg) :: Slept wait :: pre)
                   = S (gatewayCalls pre)) by reflexivity.
           rewrite Hc. destruct o; intuition lia.
    + inversion Hrun; subst r w'. exists [], (Resolves v).
      split; [reflexivity |]. split; [constructor |].
      split; [reflexivity | cbn; lia].
Qed.

(** The first attempt that resolves ends the loop with its value. *)
Lemma retryLoop_first_success (k : nat) : forall (a : Z) (w : World) v,
  a + Z.of_nat k < N ->
  (forall j, (j < k)%nat ->
     exists msg, attemptOutcome env call wait (history w) j = Rejects msg) ->
  attemptOutcome env call wait (history w) k = Resolves v ->
  retryLoop env agent contractIndex a w =
  (Ok v,
   with_history (afterRejections env call wait (history w) k
                   ++ [Invoked call (Resolves v)]) w).
Proof.
  induction k as [| k IH]; intros a w v Hlt Hrej Hok;
    rewrite retryLoop_step; fold N call wait;
    destruct (Z_lt_dec a N); try lia.
  - unfold attemptOutcome in Hok. cbn in Hok. rewrite Hok.
    destruct w; reflexivity.
  - destruct (Hrej 0%nat) as [msg Hfirst]; [lia |].
    unfold attemptOutcome in Hfirst. cbn in Hfirst. rewrite Hfirst.
    destruct (Z_ge_dec (a + 1) N); [lia |].
    rewrite (IH (a + 1) _ v).
    + cbn. rewrite Hfirst. unfold with_history. cbn.
      rewrite <- !app_assoc. reflexivity.
    + lia.
    + intros j Hj. destruct (Hrej (S j)) as [m Hm]; [lia |].
      exists m. unfold attemptOutcome in *. cbn in *.
      rewrite Hfirst in Hm. rewrite <- app_assoc. exact Hm.
    + unfold attemptOutcome in *. cbn in *.
      rewrite Hfirst in Hok. rewrite <- app_assoc. exact Hok.
Qed.

(** When every attempt the policy allows is rejected, the loop throws,
    carrying the attempt count and the last cause. *)
Lemma retryLoop_exhausted (n : nat) : forall (a : Z) (w : World) msg,
  a + Z.of_nat (S n) = N ->
  (forall j, (j < n)%nat ->
     exists m, attemptOutcome env call wait (history w) j = Rejects m) ->
  attemptOutcome env call wait (history w) n = Rejects msg ->
  retryLoop env agent contractIndex a w =
  (Throw (EntropyFetchFailed N msg),
   with_history (afterRejections env call wait (history w) n
                   ++ [Invoked call (Rejects msg)]) w).
Proof.
  induction n as [| n IH]; intros a w msg Hlt Hrej Hlast;
    rewrite retryLoop_step; fold N call wait;
    destruct (Z_lt_dec a N); try lia.
  - unfold attemptOutcome in Hlast. cbn in Hlast. rewrite Hlast.
    destruct (Z_ge_dec (a + 1) N); [| lia].
    replace (a + 1) with N by lia. destruct w; reflexivity.
  - destruct (Hrej 0%nat) as [m0 Hfirst]; [lia |].
    unfold attemptOutcome in Hfirst. cbn in Hfirst. rewrite Hfirst.
    destruct (Z_ge_dec (a + 1) N); [lia |].
    rewrite (IH (a + 1) _ msg).
    + cbn. rewrite Hfirst. unfold with_history. cbn.
      rewrite <- !app_assoc. reflexivity.
    + lia.
    + intros j Hj. destruct (Hrej (S j)) as [m Hm]; [lia |].
      exists m. unfold attemptOutcome in *. cbn in *.
      rewrite Hfirst in Hm. rewrite <- app_assoc. exact Hm.
    + unfold attemptOutcome in *. cbn in *.
      rewrite Hfirst in Hlast. rewrite <- app_assoc. exact Hlast.
Qed.

End RetryLoop.

(** ** After the loop: post-process, cache, hook, credits, audit *)

Section Deliver.

Variable env : Env.

Lemma postProcessCalls_app (d1 d2 : list Event) :
  postProcessCalls (d1 ++ d2) = postProcessCalls d1 ++ postProcessCalls d2.
Proof. apply flat_map_app. Qed.

(** The post-processing of a run that delivers: with type ['none'] no
    post-processor is called and the value delivered is the raw one;
    otherwise the post-processor is called once, on the raw value, and
    what it resolves to is the value delivered. *)
Lemma deliverEntropy_processed nodeId idx node raw w res w' :
  deliverEntropy env nodeId idx node raw w = (Ok res, w') ->
  exists d pp,
    history w' = history w ++ d /\
    postProcess (entropy_agent node) = Some pp /\
    (pp_type pp = "none" -> entropy res = raw /\ postProcessCalls d = []) /\
    (pp_type pp <> "none" ->
     postProcessCalls d
       = [(pp_type pp, pp_callback pp, raw, Resolves (entropy res))]).
Proof.
  intro Hrun. expose Hrun.
  destruct (postProcess (entropy_agent node)) as [pp |] eqn:Hpp;
    [| discriminate Hrun].
  destruct (String.eqb (pp_type pp) "none") eqn:Htype;
    destruct (hookOf onEntropyFetch node) as [hk0 |]; cbn in Hrun;
    repeat branch Hrun;
    inversion Hrun; subst res w'; clear Hrun;
    (eexists; exists pp; split; [history_delta |]);
    (split; [reflexivity |]); cbn;
    first [ apply String.eqb_eq in Htype | apply String.eqb_neq in Htype ];
    (split;
     [ intro Hnone; first [contradiction | split; reflexivity]
     | intro Hsome; first [contradiction | reflexivity] ]).
Qed.

Lemma deliverEntropy_effects nodeId idx node raw w r w' :
  deliverEntropy env nodeId idx node raw w = (r, w') ->
  exists d,
    history w' = history w ++ d /\
    nodes w' = nodes w /\
    gatewayCalls d = 0%nat /\
    (forall n m, r <> Throw (EntropyFetchFailed n m)) /\
    (forall res, r = Ok res ->
       cacheWrites d
         = [(nodeId, entropy res, cacheTTL (entropy_agent node))] /\
       karmaCredits d = [(wallet_address node, karmaWage node)] /\
       reputationCredits d = [(wallet_address node, (1 # 2)%Q)] /\
       failedHooks d = [] /\
       (forall pp, postProcess (entropy_agent node) = Some pp ->
          pp_type pp = "none" -> entropy res = raw)) /\
    (forall hk msg, In (hk, msg) (failedHooks d) ->
       r = Throw (AdapterRejected msg) /\
       (exists v x,
          In (Invoked (CacheEntropy nodeId v (cacheTTL (entropy_agent node)))
                (Resolves x)) d) /\
       karmaCredits d = [] /\ reputationCredits d = [] /\
       auditLog w' = auditLog w).
Proof.
  intro Hrun. expose Hrun.
  destruct (postProcess (entropy_agent node)) as [pp |] eqn:Hpp;
    [destruct (String.eqb (pp_type pp) "none") eqn:Htype |];
    destruct (hookOf onEntropyFetch node) as [hk0 |]; cbn in Hrun;
    repeat branch Hrun;
    inversion Hrun; subst r w'; clear Hrun;
    (eexists; split; [history_delta |]);
    (split; [reflexivity |]); (split; [reflexivity |]);
    (split; [intros; discriminate |]);
    (split;
     [ intros res Hres; inversion Hres; subst res; cbn;
       repeat split; try reflexivity;
       intros pp' Hpp' Hnone; inversion Hpp'; subst pp';
       try reflexivity;
       apply String.eqb_neq in Htype; contradiction
     | intros hk msg Hin; cbn in Hin;
       try contradiction;
       destruct Hin as [Hin | []]; inversion Hin; subst;
       repeat split; try reflexivity;
       do 2 eexists; cbn; eauto 10 ]).
Qed.

End Deliver.

(** ** fetchEntropy as a whole *)

Section Fetch.

Variable env : Env.

Lemma fetchEntropy_unfold nodeId idx w node :
  nodes w !! nodeId = Some node ->
  fetchEntropy env nodeId idx w =
  match retryLoop env (entropy_agent node) idx 0 w with
  | (Ok raw, w1) => deliverEntropy env nodeId idx node raw w1
  | (Throw e, w1) => (Throw e, w1)
  end.
Proof.
  intro Hnode. unfold fetchEntropy, bind, getNode. rewrite Hnode.
  reflexivity.
Qed.

Lemma gatewayCalls_none (l : list Event) :
  gatewayCalls l = 0%nat -> forall e, In e l -> isContractCall e = false.
Proof.
  induction l as [| x l IH]; intros Hc e Hin; [destruct Hin |].
  unfold gatewayCalls in Hc. rewrite filter_cons in Hc.
  destruct (decide (isContractCall x = true)) as [Hx | Hx];
    [discriminate Hc |].
  destruct Hin as [-> | Hin].
  - destruct (isContractCall e); [contradiction | reflexivity].
  - apply IH; assumption.
Qed.

Lemma failedAttempt_call agent idx (pre : list Event) :
  Forall (failedAttempt agent idx) pre ->
  forall e, In e pre -> isContractCall e = true ->
  exists o, e = Invoked (contractCall agent idx) o.
Proof.
  intros Hpre e Hin Hcall. rewrite Forall_forall in Hpre.
  apply list_elem_of_In, Hpre in Hin.
  destruct Hin as [[msg ->] | ->]; [eauto | discriminate].
Qed.

(** The history of one [fetchEntropy] run: the loop's part [d1], then the
    part [d2] of the steps after the loop. *)
Lemma fetchEntropy_trace nodeId idx w node r w' :
  nodes w !! nodeId = Some node ->
  fetchEntropy env nodeId idx w = (r, w') ->
  let agent := entropy_agent node in
  let N := maxAttempts (retryPolicy agent) in
  exists d1 d2,
    history w' = history w ++ d1 ++ d2 /\
    gatewayCalls d2 = 0%nat /\
    ((N <= 0 /\ d1 = [] /\
      deliverEntropy env nodeId idx node VUndefined w = (r, w')) \/
     (0 < N /\ exists pre o,
        d1 = pre ++ [Invoked (contractCall agent idx) o] /\
        Forall (failedAttempt agent idx) pre /\
        match o with
        | Resolves v =>
            (gatewayCalls pre < Z.to_nat N)%nat /\
            deliverEntropy env nodeId idx node v
              (with_history (history w ++ d1) w) = (r, w')
        | Rejects msg =>
            r = Throw (EntropyFetchFailed N msg) /\
            S (gatewayCalls pre) = Z.to_nat N /\ d2 = []
        end)).
Proof.
  intros Hnode Hrun agent N.
  rewrite (fetchEntropy_unfold _ _ _ _ Hnode) in Hrun.
  destruct (retryLoop env (entropy_agent node) idx 0 w) as [r1 w1] eqn:Hloop.
  apply (retryLoop_shape env agent idx (Z.to_nat N)) in Hloop;
    [| f_equal; subst N agent; lia].
  destruct Hloop as [(Hle & -> & ->) | (Hlt & pre & o & -> & Hpre & Ho)].
  - destruct (deliverEntropy_effects env _ _ _ _ _ _ _ Hrun)
      as (d & Hd & _ & Hcalls & _).
    exists [], d. split; [exact Hd |]. split; [exact Hcalls |].
    left. repeat split; [subst N agent; lia | exact Hrun].
  - destruct o as [msg | v]; destruct Ho as [-> Hcount].
    + inversion Hrun; subst r w'.
      exists (pre ++ [Invoked (contractCall agent idx) (Rejects msg)]), [].
      split; [cbn; rewrite app_nil_r; reflexivity |].
      split; [reflexivity |]. right. split; [lia |].
      exists pre, (Rejects msg). repeat split; assumption.
    + destruct (deliverEntropy_effects env _ _ _ _ _ _ _ Hrun)
        as (d & Hd & _ & Hcalls & _).
      exists (pre ++ [Invoked (contractCall agent idx) (Resolves v)]), d.
      split; [rewrite Hd; cbn; rewrite <- !app_assoc; reflexivity |].
      split; [exact Hcalls |]. right. split; [lia |].
      exists pre, (Resolves v). repeat split; assumption.
Qed.

End Fetch.

Section FetchClaims.

Variable env : Env.

Ltac expose_goal :=
  unfold deliverEntropy, postProcessStep, triggerHook, logComplianceEvent,
    invoke, perform, bind, modify, ret, throw, now; cbn.

(** With a passthrough post-processor and collaborators that resolve, the
    steps after the loop return the raw value. *)
Lemma deliverEntropy_ok nodeId idx node raw w pp :
  postProcess (entropy_agent node) = Some pp ->
  pp_type pp = "none" ->
  collaboratorsResolve env ->
  auditAccepted env ->
  exists w', deliverEntropy env nodeId idx node raw w
             = (Ok {| entropy := raw |}, w').
Proof.
  intros Hpp Hnone Hres Hval. expose_goal. rewrite Hpp, Hnone. cbn.
  repeat match goal with
         | |- context [chainAdapter env ?h ?c] =>
             let v := fresh "v" in
             let E := fresh "E" in
             destruct (Hres h c) as [v E]; rewrite E; cbn
         | |- context [hookOf ?s ?n] => destruct (hookOf s n); cbn
         | |- context [validateExchange env ?l] => rewrite (Hval l); cbn
         end; eauto.
Qed.

Lemma quiet_attempts agent idx (pre : list Event) o :
  Forall (failedAttempt agent idx) pre ->
  let d1 := pre ++ [Invoked (contractCall agent idx) o] in
  cacheWrites d1 = [] /\ karmaCredits d1 = [] /\
  reputationCredits d1 = [] /\ failedHooks d1 = [].
Proof.
  induction 1 as [| e pre He _ IH]; cbn; [repeat split |].
  destruct IH as (H1 & H2 & H3 & H4). cbn in H1, H2, H3, H4.
  destruct He as [[msg ->] | ->]; cbn; repeat split; assumption.
Qed.

Lemma observations_app (d1 d2 : list Event) :
  cacheWrites (d1 ++ d2) = cacheWrites d1 ++ cacheWrites d2 /\
  karmaCredits (d1 ++ d2) = karmaCredits d1 ++ karmaCredits d2 /\
  reputationCredits (d1 ++ d2)
    = reputationCredits d1 ++ reputationCredits d2 /\
  failedHooks (d1 ++ d2) = failedHooks d1 ++ failedHooks d2.
Proof.
  unfold cacheWrites, karmaCredits, reputationCredits, failedHooks.
  rewrite !flat_map_app. repeat split.
Qed.

(** C9.  With [retryPolicy.maxAttempts <= 0] the loop body never runs:
    [fetchEntropy] makes no gateway call, never throws the
    attempts-exhausted error, and carries on after the loop with
    [entropy] still [undefined]; with a passthrough post-processor and
    collaborators that resolve it caches [undefined], credits karma and
    reputation once each and returns [{entropy: undefined}]. *)
Theorem fetchEntropy_zero_attempts nodeId idx w node :
  nodes w !! nodeId = Some node ->
  maxAttempts (retryPolicy (entropy_agent node)) <= 0 ->
  fetchEntropy env nodeId idx w
    = deliverEntropy env nodeId idx node VUndefined w /\
  gatewayCalls (history (fetchEntropy env nodeId idx w).2)
    = gatewayCalls (history w) /\
  (forall n m,
     (fetchEntropy env nodeId idx w).1 <> Throw (EntropyFetchFailed n m)) /\
  (forall pp,
     postProcess (entropy_agent node) = Some pp -> pp_type pp = "none" ->
     collaboratorsResolve env -> auditAccepted env ->
     exists w' d,
       fetchEntropy env nodeId idx w = (Ok {| entropy := VUndefined |}, w') /\
       history w' = history w ++ d /\
       cacheWrites d
         = [(nodeId, VUndefined, cacheTTL (entropy_agent node))] /\
       karmaCredits d = [(wallet_address node, karmaWage node)] /\
       reputationCredits d = [(wallet_address node, (1 # 2)%Q)]).
Proof.
  intros Hnode Hmax.
  assert (Heq : fetchEntropy env nodeId idx w
                = deliverEntropy env nodeId idx node VUndefined w).
  { rewrite (fetchEntropy_unfold _ _ _ _ _ Hnode), retryLoop_step.
    destruct (Z_lt_dec 0 (maxAttempts (retryPolicy (entropy_agent node))));
      [lia | reflexivity]. }
  split; [exact Heq |]. rewrite Heq.
  destruct (deliverEntropy env nodeId idx node VUndefined w) as [r w'] eqn:Hrun.
  destruct (deliverEntropy_effects _ _ _ _ _ _ _ _ Hrun)
    as (d & Hd & _ & Hcalls & Hnot & Hok & _).
  cbn [fst snd]. split; [| split].
  - rewrite Hd, gatewayCalls_app, Hcalls. lia.
  - exact Hnot.
  - intros pp Hpp Hnone Hres Hval.
    destruct (deliverEntropy_ok nodeId idx node VUndefined w pp
                Hpp Hnone Hres Hval) as [w2 Hrun2].
    rewrite Hrun in Hrun2. inversion Hrun2; subst r w2.
    destruct (Hok _ eq_refl) as (Hc & Hk & Hr & _).
    exists w', d. repeat split; assumption.
Qed.

Lemma quiet_postprocess agent idx (pre : list Event) o :
  Forall (failedAttempt agent idx) pre ->
  postProcessCalls (pre ++ [Invoked (contractCall agent idx) o]) = [].
Proof.
  induction 1 as [| e pre He _ IH]; cbn; [reflexivity |].
  destruct He as [[msg ->] | ->]; cbn; exact IH.
Qed.

(** C8, as the code has it.  A successful [fetchEntropy] writes the cache
    exactly once, under [nodeId], with the processed value and
    [cacheTTL]; it credits karma once and reputation once.  The processed
    value, which is also the one returned, is the raw value itself when
    [postProcess.type] is ['none'], and otherwise what the post-processor,
    called once on the raw value, resolved to.  The adapter is never asked
    for a cached value.  With [maxAttempts >= 1] the raw value is what a
    gateway call made during this very call resolved to, after nothing but
    rejected attempts and waits; with [maxAttempts <= 0] no gateway call
    is made at all and the raw value is [undefined]. *)
Theorem fetchEntropy_success_effects nodeId idx w node res w' :
  nodes w !! nodeId = Some node ->
  fetchEntropy env nodeId idx w = (Ok res, w') ->
  exists d raw pp,
    history w' = history w ++ d /\
    cacheWrites d = [(nodeId, entropy res, cacheTTL (entropy_agent node))] /\
    karmaCredits d = [(wallet_address node, karmaWage node)] /\
    reputationCredits d = [(wallet_address node, (1 # 2)%Q)] /\
    postProcess (entropy_agent node) = Some pp /\
    (pp_type pp = "none" -> entropy res = raw /\ postProcessCalls d = []) /\
    (pp_type pp <> "none" ->
     postProcessCalls d
       = [(pp_type pp, pp_callback pp, raw, Resolves (entropy res))]) /\
    (maxAttempts (retryPolicy (entropy_agent node)) <= 0 ->
     raw = VUndefined /\ gatewayCalls d = 0%nat) /\
    (1 <= maxAttempts (retryPolicy (entropy_agent node)) ->
     (1 <= gatewayCalls d)%nat /\
     exists pre post,
       d = pre ++ Invoked (contractCall (entropy_agent node) idx)
                    (Resolves raw) :: post /\
       Forall (failedAttempt (entropy_agent node) idx) pre /\
       gatewayCalls post = 0%nat).
Proof.
  intros Hnode Hrun.
  destruct (fetchEntropy_trace env _ _ _ _ _ _ Hnode Hrun)
    as (d1 & d2 & Hd & Hcalls & Hcase).
  destruct (observations_app d1 d2) as (Ec & Ek & Er & _).
  destruct Hcase as [(Hle & -> & Hdel) | (Hlt & pre & o & -> & Hpre & Ho)].
  - destruct (deliverEntropy_effects _ _ _ _ _ _ _ _ Hdel)
      as (d & Hd' & _ & _ & _ & Hok & _).
    rewrite Hd in Hd'. cbn in Hd'. apply app_inv_head in Hd'. subst d.
    destruct (Hok _ eq_refl) as (Hc & Hk & Hr & _).
    destruct (deliverEntropy_processed _ _ _ _ _ _ _ _ Hdel)
      as (d & pp & Hd' & Hpp & Hnone & Hsome).
    rewrite Hd in Hd'. cbn in Hd'. apply app_inv_head in Hd'. subst d.
    exists ([] ++ d2), VUndefined, pp. cbn [app].
    split; [exact Hd |]. split; [exact Hc |]. split; [exact Hk |].
    split; [exact Hr |]. split; [exact Hpp |]. split; [exact Hnone |].
    split; [exact Hsome |]. split; [intros _; split; [reflexivity | exact Hcalls] |].
    intro. lia.
  - destruct o as [msg | raw]; [destruct Ho as [Ho _]; discriminate Ho |].
    destruct Ho as [Hcount Hdel].
    destruct (deliverEntropy_effects _ _ _ _ _ _ _ _ Hdel)
      as (d & Hd' & _ & _ & _ & Hok & _).
    rewrite Hd in Hd'. cbn [history with_history] in Hd'.
    rewrite app_assoc in Hd'. apply app_inv_head in Hd'. subst d.
    destruct (Hok _ eq_refl) as (Hc & Hk & Hr & _).
    destruct (deliverEntropy_processed _ _ _ _ _ _ _ _ Hdel)
      as (d & pp & Hd' & Hpp & Hnone & Hsome).
    rewrite Hd in Hd'. cbn [history with_history] in Hd'.
    rewrite app_assoc in Hd'. apply app_inv_head in Hd'. subst d.
    destruct (quiet_attempts _ _ _ (Resolves raw) Hpre) as (Qc & Qk & Qr & _).
    cbn zeta in Qc, Qk, Qr.
    pose proof (quiet_postprocess _ _ _ (Resolves raw) Hpre) as Qp.
    exists ((pre ++ [Invoked (contractCall (entropy_agent node) idx)
                       (Resolves raw)]) ++ d2), raw, pp.
    rewrite Ec, Ek, Er, Qc, Qk, Qr, postProcessCalls_app, Qp. cbn [app].
    split; [exact Hd |]. split; [exact Hc |]. split; [exact Hk |].
    split; [exact Hr |]. split; [exact Hpp |]. split; [exact Hnone |].
    split; [exact Hsome |]. split; [intro; lia |].
    intros _. split.
    + rewrite !gatewayCalls_app.
      change (gatewayCalls [Invoked (contractCall (entropy_agent node) idx)
                              (Resolves raw)]) with 1%nat.
      lia.
    + exists pre, d2. rewrite <- app_assoc.
      repeat split; assumption.
Qed.

(** C1, as the code has it.  When the [onEntropyFetch] hook dispatch
    rejects, [fetchEntropy] rejects with the hook's error.  The cache
    write that preceded the hook is kept, karma and reputation are not
    credited, and no audit event is logged. *)
Theorem fetchEntropy_hook_failure_propagates nodeId idx w r w' d hk msg :
  fetchEntropy env nodeId idx w = (r, w') ->
  history w' = history w ++ d ->
  In (hk, msg) (failedHooks d) ->
  r = Throw (AdapterRejected msg) /\
  (exists node v x,
     nodes w !! nodeId = Some node /\
     In (Invoked (CacheEntropy nodeId v (cacheTTL (entropy_agent node)))
           (Resolves x)) d) /\
  karmaCredits d = [] /\ reputationCredits d = [] /\
  auditLog w' = auditLog w.
Proof.
  intros Hrun Hd Hin.
  destruct (nodes w !! nodeId) as [node |] eqn:Hnode.
  2: { unfold fetchEntropy, bind, getNode in Hrun. rewrite Hnode in Hrun.
       inversion Hrun; subst r w'.
       rewrite <- (app_nil_r (history w)) in Hd at 1.
       apply app_inv_head in Hd. subst d. destruct Hin. }
  destruct (fetchEntropy_trace env _ _ _ _ _ _ Hnode Hrun)
    as (d1 & d2 & Hd' & _ & Hcase).
  rewrite Hd in Hd'. apply app_inv_head in Hd'. subst d.
  destruct (observations_app d1 d2) as (_ & Ek & Er & Eh).
  rewrite Ek, Er. rewrite Eh in Hin.
  assert (Hloop : failedHooks d1 = [] /\ karmaCredits d1 = [] /\
                  reputationCredits d1 = []).
  { destruct Hcase as [(_ & -> & _) | (_ & pre & o & -> & Hpre & _)];
      [repeat split |].
    destruct (quiet_attempts _ _ _ o Hpre) as (_ & Qk & Qr & Qh).
    repeat split; assumption. }
  destruct Hloop as (Lh & Lk & Lr). rewrite Lh in Hin. rewrite Lk, Lr.
  cbn [app] in Hin |- *.
  assert (Hdel : exists raw w1,
             deliverEntropy env nodeId idx node raw w1 = (r, w') /\
             history w1 = history w ++ d1 /\ auditLog w1 = auditLog w).
  { destruct Hcase as [(_ & -> & Hdel) | (_ & pre & o & -> & _ & Ho)].
    - exists VUndefined, w. rewrite app_nil_r. repeat split; assumption.
    - destruct o as [m | v].
      + destruct Ho as (_ & _ & ->). destruct Hin.
      + destruct Ho as [_ Hdel]. eexists _, _. split; [exact Hdel |].
        split; reflexivity. }
  destruct Hdel as (raw & w1 & Hdel & Hh1 & Ha1).
  destruct (deliverEntropy_effects _ _ _ _ _ _ _ _ Hdel)
    as (d & Hd2 & _ & _ & _ & _ & Hhook).
  rewrite Hd, Hh1, <- app_assoc in Hd2.
  do 2 apply app_inv_head in Hd2. subst d2.
  destruct (Hhook _ _ Hin) as (Hr & (v & x & Hcache) & Hk & Hrep & Haudit).
  split; [exact Hr |]. split.
  - exists node, v, x. split; [reflexivity |].
    apply in_or_app. right. exact Hcache.
  - repeat split; [assumption | assumption | congruence].
Qed.

End FetchClaims.

Section RetryClaim.

Variable env : Env.

Lemma gatewayCalls_call agent idx o :
  gatewayCalls [Invoked (contractCall agent idx) o] = 1%nat.
Proof. reflexivity. Qed.

Lemma gatewayCalls_afterRejections agent idx ms (j : nat) : forall h,
  gatewayCalls (afterRejections env (contractCall agent idx) ms h j)
  = (gatewayCalls h + j)%nat.
Proof.
  induction j as [| j IH]; intro h; cbn [afterRejections]; [lia |].
  rewrite IH, gatewayCalls_app.
  change (gatewayCalls
            [Invoked (contractCall agent idx)
               (chainAdapter env h (contractCall agent idx)); Slept ms])
    with 1%nat.
  lia.
Qed.

(** C3.  With [retryPolicy.maxAttempts = N >= 1], [fetchEntropy] makes at
    most [N] gateway calls, every one of them for
    [contracts[contractIndex]] (no fallback to another contract).  If
    attempt [k+1 <= N] is the first to resolve, the loop ends with its
    value and the call goes on with it (and returns it, given a
    passthrough post-processor and collaborators that resolve).  If the
    first [N] attempts are all rejected, the call fails with the
    attempts-exhausted error carrying [N] and the last cause, after
    exactly [N] gateway calls; what the gateway would answer to a further
    attempt plays no role. *)
Theorem fetchEntropy_bounded_retry nodeId idx w node :
  nodes w !! nodeId = Some node ->
  let agent := entropy_agent node in
  let N := maxAttempts (retryPolicy agent) in
  let call := contractCall agent idx in
  let wait := backoffMs (retryPolicy agent) in
  let outcome := attemptOutcome env call wait (history w) in
  1 <= N ->
  (exists d,
     history (fetchEntropy env nodeId idx w).2 = history w ++ d /\
     Z.of_nat (gatewayCalls d) <= N /\
     forall e, In e d -> isContractCall e = true ->
               exists o, e = Invoked call o) /\
  (forall k v,
     Z.of_nat k < N ->
     (forall j, (j < k)%nat -> exists m, outcome j = Rejects m) ->
     outcome k = Resolves v ->
     fetchEntropy env nodeId idx w
       = deliverEntropy env nodeId idx node v
           (with_history
              (afterRejections env call wait (history w) k
                 ++ [Invoked call (Resolves v)]) w) /\
     (forall pp,
        postProcess agent = Some pp -> pp_type pp = "none" ->
        collaboratorsResolve env -> auditAccepted env ->
        (fetchEntropy env nodeId idx w).1 = Ok {| entropy := v |})) /\
  (forall msg,
     (forall j, (j < Z.to_nat N)%nat -> exists m, outcome j = Rejects m) ->
     outcome (Z.to_nat N - 1)%nat = Rejects msg ->
     (fetchEntropy env nodeId idx w).1 = Throw (EntropyFetchFailed N msg) /\
     gatewayCalls (history (fetchEntropy env nodeId idx w).2)
       = (gatewayCalls (history w) + Z.to_nat N)%nat).
Proof.
  intros Hnode agent N call wait outcome HN. split; [| split].
  - destruct (fetchEntropy env nodeId idx w) as [r w'] eqn:Hrun.
    destruct (fetchEntropy_trace env _ _ _ _ _ _ Hnode Hrun)
      as (d1 & d2 & Hd & Hcalls & Hcase).
    fold agent N in Hcase.
    destruct Hcase as [(Hle & _) | (_ & pre & o & -> & Hpre & Ho)]; [lia |].
    exists ((pre ++ [Invoked call o]) ++ d2). cbn [snd].
    split; [exact Hd |]. split.
    + rewrite !gatewayCalls_app, Hcalls.
      unfold call. rewrite gatewayCalls_call.
      unfold N, agent in *. destruct o; lia.
    + intros e Hin He.
      apply in_app_or in Hin. destruct Hin as [Hin | Hin].
      * apply in_app_or in Hin. destruct Hin as [Hin | [<- | []]].
        -- exact (failedAttempt_call agent idx pre Hpre e Hin He).
        -- eauto.
      * rewrite (gatewayCalls_none d2 Hcalls e Hin) in He. discriminate.
  - intros k v Hk Hrej Hok.
    assert (Heq : fetchEntropy env nodeId idx w
                  = deliverEntropy env nodeId idx node v
                      (with_history
                         (afterRejections env call wait (history w) k
                            ++ [Invoked call (Resolves v)]) w)).
    { rewrite (fetchEntropy_unfold _ _ _ _ _ Hnode).
      rewrite (retryLoop_first_success env (entropy_agent node) idx k 0 w v);
        [reflexivity | unfold N, agent in *; lia | exact Hrej | exact Hok]. }
    split; [exact Heq |].
    intros pp Hpp Hnone Hres Hval. rewrite Heq.
    destruct (deliverEntropy_ok env nodeId idx node v
                (with_history
                   (afterRejections env call wait (history w) k
                      ++ [Invoked call (Resolves v)]) w)
                pp Hpp Hnone Hres Hval) as [w2 ->].
    reflexivity.
  - intros msg Hrej Hlast.
    rewrite (fetchEntropy_unfold _ _ _ _ _ Hnode).
    rewrite (retryLoop_exhausted env (entropy_agent node) idx
               (Z.to_nat N - 1) 0 w msg).
    + cbn [fst snd history with_history]. split; [reflexivity |].
      rewrite gatewayCalls_app, gatewayCalls_afterRejections.
      rewrite gatewayCalls_call. unfold N, agent in *. lia.
    + unfold N, agent in *. lia.
    + intros j Hj. apply Hrej. lia.
    + exact Hlast.
Qed.

End RetryClaim.

(** ** Scenarios for the fetchEntropy claims *)

Lemma steadyEnv_resolves : collaboratorsResolve steadyEnv.
Proof. intros h c. destruct c; cbn; eauto. Qed.

Lemma permissive_audit adapter : auditAccepted (permissiveEnv adapter).
Proof. intro l. reflexivity. Qed.

Lemma permissive_ritual adapter : ritualAccepted (permissiveEnv adapter).
Proof. intro d. reflexivity. Qed.

(** C1, counterexample.  The gateway answers at the first attempt, the
    hook dispatch rejects, and the whole call rejects with the hook's
    error instead of returning the entropy. *)
Lemma fetchEntropy_hook_failure_counterexample :
  In (Invoked (CallContract (Some "0xfeed") "latestEntropy" "hex")
        (Resolves (VStr "abc123")))
     (history (fetchEntropy hookFailingEnv "node-1" 0 hookedWorld).2) /\
  failedHooks (history (fetchEntropy hookFailingEnv "node-1" 0 hookedWorld).2)
    = [("onFetch", "hook failed")] /\
  (fetchEntropy hookFailingEnv "node-1" 0 hookedWorld).1
    = Throw (AdapterRejected "hook failed") /\
  ~ (exists res,
       (fetchEntropy hookFailingEnv "node-1" 0 hookedWorld).1 = Ok res).
Proof.
  assert (Hr : (fetchEntropy hookFailingEnv "node-1" 0 hookedWorld).1
               = Throw (AdapterRejected "hook failed"))
    by (vm_compute; reflexivity).
  split; [vm_compute; auto 10 |]. split; [vm_compute; reflexivity |].
  split; [exact Hr |]. intros [res Hres]. rewrite Hr in Hres. discriminate.
Qed.

Lemma fetchEntropy_hook_failure_propagates_witness :
  (fetchEntropy hookFailingEnv "node-1" 0 hookedWorld).1
    = Throw (AdapterRejected "hook failed") /\
  karmaCredits
    (drop 2 (history (fetchEntropy hookFailingEnv "node-1" 0 hookedWorld).2))
    = [] /\
  auditLog (fetchEntropy hookFailingEnv "node-1" 0 hookedWorld).2
    = auditLog hookedWorld.
Proof.
  destruct (fetchEntropy_hook_failure_propagates hookFailingEnv "node-1" 0
              hookedWorld
              (fetchEntropy hookFailingEnv "node-1" 0 hookedWorld).1
              (fetchEntropy hookFailingEnv "node-1" 0 hookedWorld).2
              (drop 2 (history
                 (fetchEntropy hookFailingEnv "node-1" 0 hookedWorld).2))
              "onFetch" "hook failed")
    as (Hr & _ & Hk & _ & Ha).
  - vm_compute. reflexivity.
  - vm_compute. reflexivity.
  - vm_compute. left. reflexivity.
  - split; [exact Hr |]. split; [exact Hk | exact Ha].
Defined.

Lemma fetchEntropy_bounded_retry_witness :
  (fetchEntropy twiceFailingEnv "node-1" 0 threeAttemptsWorld).1
    = Ok {| entropy := VStr "abc123" |} /\
  (fetchEntropy thriceFailingEnv "node-1" 0 threeAttemptsWorld).1
    = Throw (EntropyFetchFailed 3 "timeout") /\
  gatewayCalls
    (history (fetchEntropy thriceFailingEnv "node-1" 0 threeAttemptsWorld).2)
    = 3%nat.
Proof.
  assert (Hnode : nodes threeAttemptsWorld !! "node-1"
                  = Some (demoNode 3 50 None))
    by (vm_compute; reflexivity).
  assert (HN : 1 <= maxAttempts (retryPolicy (entropy_agent (demoNode 3 50 None))))
    by (cbn; lia).
  split.
  - destruct (fetchEntropy_bounded_retry twiceFailingEnv "node-1" 0
                threeAttemptsWorld (demoNode 3 50 None) Hnode HN)
      as (_ & Hfirst & _).
    destruct (Hfirst 2%nat (VStr "abc123")) as [_ Hok].
    + cbn. lia.
    + intros j Hj. exists "timeout".
      destruct j as [| [| j]]; [vm_compute; reflexivity .. | lia].
    + vm_compute. reflexivity.
    + apply (Hok {| pp_type := "none"; pp_callback := VUndefined |});
        [reflexivity | reflexivity | | apply permissive_audit].
      intros h c. destruct c; cbn; eauto.
  - destruct (fetchEntropy_bounded_retry thriceFailingEnv "node-1" 0
                threeAttemptsWorld (demoNode 3 50 None) Hnode HN)
      as (_ & _ & Hall).
    destruct (Hall "timeout") as [Hr Hc].
    + intros j Hj. exists "timeout". cbn in Hj.
      destruct j as [| [| [| j]]]; [vm_compute; reflexivity .. | lia].
    + vm_compute. reflexivity.
    + split; [exact Hr | exact Hc].
Defined.

Lemma fetchEntropy_success_effects_witness :
  exists d raw,
    history (fetchEntropy obligingEnv "node-2" 0
               (customWorld hashing None)).2
      = history (customWorld hashing None) ++ d /\
    cacheWrites d = [("node-2", VArr [VStr "abc123"], 30)] /\
    postProcessCalls d
      = [("hash", VStr "sha256", raw, Resolves (VArr [VStr "abc123"]))] /\
    (1 <= gatewayCalls d)%nat.
Proof.
  destruct (fetchEntropy_success_effects obligingEnv "node-2" 0
              (customWorld hashing None) (customNode hashing None)
              {| entropy := VArr [VStr "abc123"] |}
              (fetchEntropy obligingEnv "node-2" 0
                 (customWorld hashing None)).2)
    as (d & raw & pp & Hd & Hc & _ & _ & Hpp & _ & Hsome & _ & Hfresh).
  - vm_compute. reflexivity.
  - vm_compute. reflexivity.
  - exists d, raw. split; [exact Hd |]. split; [exact Hc |].
    destruct Hfresh as (Hcalls & _); [cbn; lia |].
    split; [| exact Hcalls].
    inversion Hpp; subst pp. apply Hsome. discriminate.
Defined.

(** C8, counterexample.  A node whose policy allows no attempt: the call
    succeeds, writes the cache and credits karma and reputation, yet it
    makes no contract call at all, fresh or otherwise, and what it caches
    and returns comes from no contract. *)
Lemma fetchEntropy_success_counterexample :
  maxAttempts (retryPolicy (entropy_agent (demoNode 0 50 None))) = 0 /\
  nodes zeroAttemptsWorld !! "node-1" = Some (demoNode 0 50 None) /\
  (fetchEntropy steadyEnv "node-1" 0 zeroAttemptsWorld).1
    = Ok {| entropy := VUndefined |} /\
  cacheWrites (history (fetchEntropy steadyEnv "node-1" 0
                          zeroAttemptsWorld).2)
    = [("node-1", VUndefined, 60)] /\
  gatewayCalls (history (fetchEntropy steadyEnv "node-1" 0
                           zeroAttemptsWorld).2) = 0%nat.
Proof.
  split; [reflexivity |]. split; [vm_compute; reflexivity |].
  split; [vm_compute; reflexivity |]. split; vm_compute; reflexivity.
Qed.

Lemma fetchEntropy_zero_attempts_witness :
  (fetchEntropy steadyEnv "node-1" 0 zeroAttemptsWorld).1
    = Ok {| entropy := VUndefined |} /\
  gatewayCalls (history (fetchEntropy steadyEnv "node-1" 0 zeroAttemptsWorld).2)
    = gatewayCalls (history zeroAttemptsWorld).
Proof.
  destruct (fetchEntropy_zero_attempts steadyEnv "node-1" 0 zeroAttemptsWorld
              (demoNode 0 50 None))
    as (_ & Hcalls & _ & Hok).
  - vm_compute. reflexivity.
  - cbn. lia.
  - split; [| exact Hcalls].
    destruct (Hok {| pp_type := "none"; pp_callback := VUndefined |}
                eq_refl eq_refl steadyEnv_resolves
                (permissive_audit (flakyAdapter 0)))
      as (w' & d & Hrun & _).
    rewrite Hrun. reflexivity.
Defined.

(** ** The ritual controller *)

Section RitualClaims.

Variable env : Env.

Lemma findSignal_Some sid (l : list Signal) i s :
  findSignal sid l = Some (i, s) ->
  l !! i = Some s /\ sig_id s = sid /\ (i < length l)%nat.
Proof.
  unfold findSignal. intro H. apply list_find_Some in H.
  destruct H as (Hl & Hid & _). repeat split; try assumption.
  eapply lookup_lt_Some; eassumption.
Qed.

(** Replacing the found signal by one with the same id keeps it the one
    that [find] returns. *)
Lemma findSignal_insert sid (l : list Signal) i s s' :
  findSignal sid l = Some (i, s) ->
  sig_id s' = sid ->
  findSignal sid (<[i := s']> l) = Some (i, s').
Proof.
  unfold findSignal. intros H Hid. apply list_find_Some in H.
  destruct H as (Hl & _ & Hfirst). apply list_find_Some.
  split; [| split].
  - apply list_lookup_insert_eq. eapply lookup_lt_Some; eassumption.
  - exact Hid.
  - intros j y Hj Hlt. rewrite list_lookup_insert_ne in Hj by lia.
    eapply Hfirst; eassumption.
Qed.

(** Whatever the validators say, [verifySignal] leaves the signal list
    with the found signal verified once more. *)
Lemma verifySignal_signals sid verifier isValid w i s :
  findSignal sid (signals (ritualData w)) = Some (i, s) ->
  signals (ritualData (verifySignal env sid verifier isValid w).2)
    = <[i := verified_once isValid s]> (signals (ritualData w)) /\
  ((verifySignal env sid verifier isValid w).1
     = Ok (verified_once isValid s) \/
   (verifySignal env sid verifier isValid w).1 = Throw ValidationFailed) /\
  (ritualAccepted env -> auditAccepted env ->
   (verifySignal env sid verifier isValid w).1
     = Ok (verified_once isValid s)).
Proof.
  intro Hfind.
  destruct (verifySignal env sid verifier isValid w) as [r w'] eqn:Hrun.
  unfold verifySignal in Hrun. rewrite Hfind in Hrun. expose Hrun.
  repeat branch Hrun; inversion Hrun; subst r w'; cbn;
    (split; [reflexivity |]);
    (split; [auto |]); intros Hra Haa;
    try reflexivity;
    try (rewrite Hra in *; discriminate);
    try (rewrite Haa in *; discriminate).
Qed.

(** C5.  For a signal that [find] returns, [verifySignal] adds exactly
    one to its [verificationCount] and overwrites its [status] with
    [verified] or [rejected] according to [isValid], whatever the status
    was and whoever the verifier is; nothing else in the signal list
    changes.  For an unknown id it throws 'Signal not found' and changes
    nothing. *)
Theorem verifySignal_increments sid verifier isValid w :
  match findSignal sid (signals (ritualData w)) with
  | None =>
      verifySignal env sid verifier isValid w = (Throw SignalNotFound, w)
  | Some (i, s) =>
      let after := signals (ritualData (verifySignal env sid verifier isValid w).2) in
      exists s',
        after !! i = Some s' /\
        findSignal sid after = Some (i, s') /\
        verificationCount s' = verificationCount s + 1 /\
        status s' = (if isValid then verified else rejected) /\
        sig_id s' = sig_id s /\ initiator s' = initiator s /\
        sig_type s' = sig_type s /\ payload s' = payload s /\
        sig_timestamp s' = sig_timestamp s /\
        length after = length (signals (ritualData w)) /\
        (forall j, j <> i -> after !! j = signals (ritualData w) !! j) /\
        ((verifySignal env sid verifier isValid w).1 = Ok s' \/
         (verifySignal env sid verifier isValid w).1
           = Throw ValidationFailed) /\
        (ritualAccepted env -> auditAccepted env ->
         (verifySignal env sid verifier isValid w).1 = Ok s')
  end.
Proof.
  destruct (findSignal sid (signals (ritualData w))) as [[i s] |] eqn:Hfind.
  - destruct (verifySignal_signals sid verifier isValid w i s Hfind)
      as (Hsig & Hres & Hacc).
    destruct (findSignal_Some _ _ _ _ Hfind) as (Hl & Hid & Hlen).
    cbn zeta. rewrite Hsig. exists (verified_once isValid s).
    split; [apply list_lookup_insert_eq; exact Hlen |].
    split; [apply (findSignal_insert _ _ _ s); [exact Hfind | exact Hid] |].
    repeat split; try reflexivity; try assumption.
    + apply length_insert.
    + intros j Hj. apply list_lookup_insert_ne. congruence.
  - unfold verifySignal. rewrite Hfind. reflexivity.
Qed.

(** One check, stage by stage.  The record is appended first and the
    store validated next; the ritual is executed only after that, and is
    itself followed by a validation of the store and by the audit log. *)
Lemma quorumConsensusCheck_effects sid k w i s r w' :
  findSignal sid (signals (ritualData w)) = Some (i, s) ->
  quorumConsensusCheck env sid k w = (r, w') ->
  let c := consensusFor env sid k s w in
  let stored := push_consensus c (ritualData w) in
  consensusRecords (ritualData w')
    = consensusRecords (ritualData w) ++ [c] /\
  signals (ritualData w') = signals (ritualData w) /\
  (r = Ok c \/ r = Throw ValidationFailed) /\
  (validateRitual env stored = false ->
   r = Throw ValidationFailed /\
   rituals (ritualData w') = rituals (ritualData w) /\
   auditLog w' = auditLog w) /\
  (validateRitual env stored = true -> reached c = false ->
   r = Ok c /\
   rituals (ritualData w') = rituals (ritualData w) /\
   auditLog w' = auditLog w) /\
  (validateRitual env stored = true -> reached c = true ->
   exists ritual,
     rituals (ritualData w') = rituals (ritualData w) ++ [ritual] /\
     approvalRitual sid s ritual /\
     (validateRitual env (ritualData w') = false ->
      r = Throw ValidationFailed /\ auditLog w' = auditLog w) /\
     (validateRitual env (ritualData w') = true ->
      exists entry,
        auditLog w' = auditLog w ++ [entry] /\
        event entry = "ritual_executed" /\ user entry = initiator s /\
        (validateExchange env (auditLog w') = true -> r = Ok c) /\
        (validateExchange env (auditLog w') = false ->
         r = Throw ValidationFailed))).
Proof.
  intros Hfind Hrun.
  unfold quorumConsensusCheck in Hrun. rewrite Hfind in Hrun.
  unfold consensusFor. cbn zeta.
  destruct (k <=? verificationCount s) eqn:Hreached;
    expose Hrun; rewrite ?Hreached in Hrun; cbn in Hrun;
    unfold truthyStr in Hrun; cbn in Hrun;
    repeat branch Hrun; inversion Hrun; subst r w'; cbn;
    (split; [reflexivity |]); (split; [reflexivity |]);
    (split; [auto |]);
    (split;
     [ intro Hno; first [congruence | repeat split; reflexivity] |]);
    (split;
     [ intros Hyes Hnot; first [congruence | repeat split; reflexivity] |]);
    intros Hyes Hgo; first [congruence | idtac];
    eexists; (split; [reflexivity |]);
    (split; [unfold approvalRitual; cbn; repeat split; eauto |]);
    (split; [intro Hbad; first [congruence | split; reflexivity] |]);
    intro Hgood; first [congruence | idtac];
    eexists; (split; [reflexivity |]); cbn;
    (split; [reflexivity |]); (split; [reflexivity |]);
    split; intro Hlog; first [reflexivity | congruence].
Qed.

(** C2, as the code has it.  For an unknown id [quorumConsensusCheck]
    throws 'Signal not found' and changes nothing.  For a signal that
    [find] returns it appends one consensus record with
    [reached = (verificationCount >= requiredVerifications)] computed from
    the count in the current world, whatever happens next.  The store is
    then validated.  When the schema refuses it, the call throws the
    validation error and no ritual is executed, even when [reached] is
    true.  When the schema accepts it, a ritual with the single action
    [consensus_approved] on the signal, on behalf of the signal's
    initiator, is executed if [reached] is true and none if it is false;
    the record is returned when [reached] is false, and when [reached] is
    true once the ritual's own validation and audit entry have gone
    through. *)
Theorem quorumConsensusCheck_spec sid k w :
  match findSignal sid (signals (ritualData w)) with
  | None =>
      quorumConsensusCheck env sid k w = (Throw SignalNotFound, w)
  | Some (_, s) =>
      let c := consensusFor env sid k s w in
      let stored := push_consensus c (ritualData w) in
      let r := (quorumConsensusCheck env sid k w).1 in
      let w' := (quorumConsensusCheck env sid k w).2 in
      (reached c = true <-> verificationCount s >= k) /\
      verifications c = verificationCount s /\
      signalId c = sid /\
      consensusRecords (ritualData w')
        = consensusRecords (ritualData w) ++ [c] /\
      (r = Ok c \/ r = Throw ValidationFailed) /\
      (validateRitual env stored = false ->
       r = Throw ValidationFailed /\
       rituals (ritualData w') = rituals (ritualData w) /\
       auditLog w' = auditLog w) /\
      (validateRitual env stored = true ->
       (reached c = false ->
        r = Ok c /\
        rituals (ritualData w') = rituals (ritualData w) /\
        auditLog w' = auditLog w) /\
       (reached c = true ->
        exists ritual,
          rituals (ritualData w') = rituals (ritualData w) ++ [ritual] /\
          approvalRitual sid s ritual /\
          (validateRitual env (ritualData w') = false ->
           r = Throw ValidationFailed /\ auditLog w' = auditLog w) /\
          (validateRitual env (ritualData w') = true ->
           exists entry,
             auditLog w' = auditLog w ++ [entry] /\
             event entry = "ritual_executed" /\
             user entry = initiator s /\
             (validateExchange env (auditLog w') = true -> r = Ok c) /\
             (validateExchange env (auditLog w') = false ->
              r = Throw ValidationFailed))))
  end.
Proof.
  destruct (findSignal sid (signals (ritualData w))) as [[i s] |] eqn:Hfind.
  - destruct (quorumConsensusCheck env sid k w) as [r w'] eqn:Hrun.
    destruct (quorumConsensusCheck_effects _ _ _ _ _ _ _ Hfind Hrun)
      as (Hrec & _ & Hres & Hrefused & Hquiet & Hritual).
    cbn [fst snd] in *. cbn zeta in *.
    split; [unfold consensusFor; cbn; rewrite Z.leb_le; lia |].
    split; [reflexivity |]. split; [reflexivity |].
    split; [exact Hrec |]. split; [exact Hres |].
    split; [exact Hrefused |].
    intro Hyes. split; [exact (Hquiet Hyes) | exact (Hritual Hyes)].
  - unfold quorumConsensusCheck. rewrite Hfind. reflexivity.
Qed.

(** C4, as the code has it.  Once the threshold is met, each of [n]
    successive checks with the same arguments appends one consensus record
    with [reached = true], and each check whose store the schema accepts
    after that append executes one more approval ritual: nothing guards
    against the repetition.  The new rituals are as many as the checks
    whose store was accepted, so [n] checks that all return leave [n] new
    rituals; a check whose store is refused throws the validation error. *)
Theorem quorumConsensusCheck_repeats sid k n : forall w i s,
  findSignal sid (signals (ritualData w)) = Some (i, s) ->
  verificationCount s >= k ->
  let results := (repeatedChecks env sid k n w).1 in
  let w' := (repeatedChecks env sid k n w).2 in
  length results = n /\
  Forall (fun r => (exists c, r = Ok c /\ reached c = true /\ signalId c = sid)
                   \/ r = Throw ValidationFailed) results /\
  (exists newRecords,
     consensusRecords (ritualData w')
       = consensusRecords (ritualData w) ++ newRecords /\
     length newRecords = n /\
     Forall (fun c => reached c = true /\ signalId c = sid) newRecords) /\
  (exists newRituals,
     rituals (ritualData w') = rituals (ritualData w) ++ newRituals /\
     Forall (approvalRitual sid s) newRituals /\
     length newRituals = checksAccepted env sid k n w /\
     (length newRituals <= n)%nat /\
     (Forall (fun r => exists c, r = Ok c) results ->
      length newRituals = n)).
Proof.
  induction n as [| n IH]; intros w i s Hfind Hcount; cbn zeta.
  - cbn. split; [reflexivity |]. split; [constructor |].
    split; exists []; rewrite app_nil_r; repeat split; constructor.
  - cbn [repeatedChecks checksAccepted]. rewrite Hfind.
    destruct (quorumConsensusCheck env sid k w) as [r w1] eqn:Hrun.
    destruct (quorumConsensusCheck_effects _ _ _ _ _ _ _ Hfind Hrun)
      as (Hrec & Hsig & Hres & Hrefused & _ & Hritual).
    cbn zeta in Hrec, Hres, Hrefused, Hritual.
    assert (Hreached : reached (consensusFor env sid k s w) = true)
      by (unfold consensusFor; cbn; apply Z.leb_le; lia).
    assert (Hfind1 : findSignal sid (signals (ritualData w1)) = Some (i, s))
      by (rewrite Hsig; exact Hfind).
    specialize (IH w1 i s Hfind1 Hcount). cbn zeta in IH.
    cbn [snd].
    destruct (repeatedChecks env sid k n w1) as [rs w2].
    cbn [fst snd] in *.
    destruct IH as (Hlen & Hall & (nc & Hnc & Hnclen & Hncall)
                    & (nr & Hnr & Hnrall & Hnrlen & Hnrle & Hnrok)).
    split; [cbn; congruence |].
    split.
    { constructor; [| exact Hall].
      destruct Hres as [-> | ->]; [left | right; reflexivity].
      eexists. split; [reflexivity |]. split; [exact Hreached | reflexivity]. }
    split.
    { exists (consensusFor env sid k s w :: nc).
      rewrite Hnc, Hrec, <- app_assoc.
      split; [reflexivity |]. split; [cbn; congruence |].
      constructor; [split; [exact Hreached | reflexivity] | exact Hncall]. }
    destruct (validateRitual env
                (push_consensus (consensusFor env sid k s w) (ritualData w)))
      eqn:Hstored.
    + destruct (Hritual eq_refl Hreached) as (ritual & Hrit & Happ & _).
      exists (ritual :: nr). rewrite Hnr, Hrit, <- app_assoc.
      split; [reflexivity |].
      split; [constructor; assumption |].
      split; [cbn; congruence |].
      split; [cbn; lia |].
      intro Hok. inversion Hok as [| ? ? _ Hrest]; subst.
      cbn. rewrite (Hnrok Hrest). reflexivity.
    + destruct (Hrefused eq_refl) as (-> & Hrit & _).
      exists nr. rewrite Hnr, Hrit.
      split; [reflexivity |]. split; [exact Hnrall |].
      split; [cbn; exact Hnrlen |].
      split; [lia |].
      intro Hok. inversion Hok as [| ? ? [c Hc] _]; discriminate.
Qed.

End RitualClaims.

(** ** Scenarios for the ritual claims *)

Lemma quorumWorld_signal :
  findSignal "uuid-0" (signals (ritualData quorumWorld))
  = Some (0%nat, quorumSignal).
Proof. vm_compute. reflexivity. Qed.

Lemma verifySignal_increments_witness :
  exists s',
    signals (ritualData (verifySignal steadyEnv "uuid-0" "v1" false
                           quorumWorld).2) !! 0%nat = Some s' /\
    verificationCount s' = 3 /\ status s' = rejected /\
    (verifySignal steadyEnv "uuid-0" "v1" false quorumWorld).1 = Ok s'.
Proof.
  pose proof (verifySignal_increments steadyEnv "uuid-0" "v1" false
                quorumWorld) as H.
  rewrite quorumWorld_signal in H. cbn zeta in H.
  destruct H as (s' & Hl & _ & Hc & Hs & _ & _ & _ & _ & _ & _ & _ & _ & Hok).
  exists s'. split; [exact Hl |]. split; [exact Hc |]. split; [exact Hs |].
  apply Hok; [apply permissive_ritual | apply permissive_audit].
Defined.

Lemma untypedWorld_signal :
  findSignal "uuid-0" (signals (ritualData untypedWorld))
  = Some (0%nat, untypedSignal).
Proof. vm_compute. reflexivity. Qed.

Lemma quorumConsensusCheck_spec_witness :
  (quorumConsensusCheck steadyEnv "uuid-0" 2 quorumWorld).1
    = Ok (consensusFor steadyEnv "uuid-0" 2 quorumSignal quorumWorld) /\
  (exists ritual,
     rituals (ritualData (quorumConsensusCheck steadyEnv "uuid-0" 2
                            quorumWorld).2)
       = rituals (ritualData quorumWorld) ++ [ritual] /\
     approvalRitual "uuid-0" quorumSignal ritual) /\
  (quorumConsensusCheck typedSignalsEnv "uuid-0" 2 untypedWorld).1
    = Throw ValidationFailed /\
  rituals (ritualData (quorumConsensusCheck typedSignalsEnv "uuid-0" 2
                         untypedWorld).2)
    = rituals (ritualData untypedWorld).
Proof.
  pose proof (quorumConsensusCheck_spec steadyEnv "uuid-0" 2 quorumWorld) as H.
  rewrite quorumWorld_signal in H. cbn zeta in H.
  destruct H as (_ & _ & _ & _ & _ & _ & Hacc).
  destruct (Hacc eq_refl) as [_ Hyes].
  destruct (Hyes eq_refl) as (ritual & Hrit & Happ & _ & Hgood).
  destruct (Hgood eq_refl) as (entry & _ & _ & _ & Hok & _).
  pose proof (quorumConsensusCheck_spec typedSignalsEnv "uuid-0" 2
                untypedWorld) as H'.
  rewrite untypedWorld_signal in H'. cbn zeta in H'.
  destruct H' as (_ & _ & _ & _ & _ & Hrefused & _).
  destruct Hrefused as (Hthrow & Hnone & _); [vm_compute; reflexivity |].
  split; [exact (Hok eq_refl) |].
  split; [exists ritual; split; [exact Hrit | exact Happ] |].
  split; [exact Hthrow | exact Hnone].
Defined.

(** C2, counterexample.  The signal's count meets the threshold, so the
    record says [reached = true]; the schema refuses the store, the call
    throws instead of returning the record, and no ritual is executed. *)
Lemma quorumConsensusCheck_spec_counterexample :
  findSignal "uuid-0" (signals (ritualData untypedWorld))
    = Some (0%nat, untypedSignal) /\
  verificationCount untypedSignal >= 2 /\
  map reached
    (consensusRecords
       (ritualData (quorumConsensusCheck typedSignalsEnv "uuid-0" 2
                      untypedWorld).2)) = [true] /\
  rituals (ritualData (quorumConsensusCheck typedSignalsEnv "uuid-0" 2
                         untypedWorld).2) = [] /\
  (quorumConsensusCheck typedSignalsEnv "uuid-0" 2 untypedWorld).1
    = Throw ValidationFailed /\
  ~ (exists c,
       (quorumConsensusCheck typedSignalsEnv "uuid-0" 2 untypedWorld).1
       = Ok c).
Proof.
  assert (Hr : (quorumConsensusCheck typedSignalsEnv "uuid-0" 2
                  untypedWorld).1 = Throw ValidationFailed)
    by (vm_compute; reflexivity).
  split; [exact untypedWorld_signal |]. split; [cbn; lia |].
  split; [vm_compute; reflexivity |]. split; [vm_compute; reflexivity |].
  split; [exact Hr |]. intros [c Hc]. rewrite Hr in Hc. discriminate.
Qed.

Lemma quorumConsensusCheck_repeats_witness :
  length (rituals (ritualData
            (repeatedChecks steadyEnv "uuid-0" 2 3 quorumWorld).2))
    = (length (rituals (ritualData quorumWorld)) + 3)%nat /\
  length (consensusRecords (ritualData
            (repeatedChecks steadyEnv "uuid-0" 2 3 quorumWorld).2))
    = (length (consensusRecords (ritualData quorumWorld)) + 3)%nat.
Proof.
  destruct (quorumConsensusCheck_repeats steadyEnv "uuid-0" 2 3 quorumWorld
              0%nat quorumSignal quorumWorld_signal)
    as (_ & _ & (nc & Hnc & Hnclen & _) & (nr & Hnr & _ & Hnrlen & _)).
  - cbn. lia.
  - rewrite Hnr, Hnc, !length_app, Hnrlen, Hnclen. split; reflexivity.
Defined.

(** C4, counterexample.  The count meets the threshold and the check is
    called three times; the schema refuses the store each time, so three
    records with [reached = true] are appended and no ritual at all is
    executed. *)
Lemma quorumConsensusCheck_repeats_counterexample :
  findSignal "uuid-0" (signals (ritualData untypedWorld))
    = Some (0%nat, untypedSignal) /\
  verificationCount untypedSignal >= 2 /\
  map reached
    (consensusRecords
       (ritualData (repeatedChecks typedSignalsEnv "uuid-0" 2 3
                      untypedWorld).2)) = [true; true; true] /\
  rituals (ritualData (repeatedChecks typedSignalsEnv "uuid-0" 2 3
                         untypedWorld).2) = [] /\
  (repeatedChecks typedSignalsEnv "uuid-0" 2 3 untypedWorld).1
    = [Throw ValidationFailed; Throw ValidationFailed;
       Throw ValidationFailed].
Proof.
  split; [exact untypedWorld_signal |]. split; [cbn; lia |].
  split; [vm_compute; reflexivity |]. split; vm_compute; reflexivity.
Qed.

(** ** Arithmetic on doubles

    What the staking claims need of IEEE 754 addition: rounding never
    changes a sign, so a sum of numbers that are not negative is not
    negative, and a sum of finite numbers is a number. *)

Section Doubles.

Lemma shr_1_nonneg mrs : 0 <= shr_m mrs -> 0 <= shr_m (shr_1 mrs).
Proof.
  destruct mrs as [m r s]. cbn. intro H.
  destruct m as [| p | p]; cbn; try lia; destruct p; cbn; lia.
Qed.

Lemma iter_shr_1_nonneg p : forall mrs,
  0 <= shr_m mrs -> 0 <= shr_m (SpecFloat.iter_pos shr_1 p mrs).
Proof.
  induction p as [p IH | p IH |]; intros mrs H; cbn.
  - apply IH, IH, shr_1_nonneg, H.
  - apply IH, IH, H.
  - apply shr_1_nonneg, H.
Qed.

Lemma shr_fexp_nonneg m e l :
  0 <= m -> 0 <= shr_m (fst (shr_fexp 53 1024 m e l)).
Proof.
  intro H. unfold shr_fexp, shr.
  assert (H0 : 0 <= shr_m (shr_record_of_loc m l))
    by (destruct l as [| []]; exact H).
  destruct (fexp 53 1024 (Zdigits2 m + e) - e); cbn [fst];
    [exact H0 | apply iter_shr_1_nonneg, H0 | exact H0].
Qed.

Lemma round_nearest_even_nonneg m l : 0 <= m -> 0 <= round_nearest_even m l.
Proof.
  intro H. destruct l as [| []]; cbn; try lia.
  destruct (Z.even m); lia.
Qed.

(** Rounding a non-negative mantissa gives a zero, a finite number or an
    infinity of the sign it was given, never a NaN. *)
Lemma binary_round_aux_sign s m e l :
  0 <= m -> signOf (binary_round_aux 53 1024 s m e l) = Some s.
Proof.
  intro H. unfold binary_round_aux.
  pose proof (shr_fexp_nonneg m e l H) as H1.
  destruct (shr_fexp 53 1024 m e l) as [mrs' e'].
  cbn [fst] in H1.
  pose proof (shr_fexp_nonneg
                (round_nearest_even (shr_m mrs') (loc_of_shr_record mrs'))
                e' loc_Exact
                (round_nearest_even_nonneg _ _ H1)) as H2.
  destruct (shr_fexp 53 1024
              (round_nearest_even (shr_m mrs') (loc_of_shr_record mrs'))
              e' loc_Exact) as [mrs'' e''].
  cbn [fst] in H2.
  destruct (shr_m mrs'') as [| p | p]; [reflexivity | | lia].
  destruct (e'' <=? 1024 - 53); reflexivity.
Qed.

Lemma binary_round_sign s m e :
  signOf (binary_round 53 1024 s m e) = Some s.
Proof.
  unfold binary_round.
  destruct (shl_align m e (fexp 53 1024 (Z.pos (digits2_pos m) + e)))
    as [mz ez].
  apply binary_round_aux_sign. lia.
Qed.

(** [x < 0] reads the sign and, for a zero, answers no. *)
Lemma jsLt_zero x :
  jsLt x jsZero = match x with
                  | S754_infinity s | S754_finite s _ _ => s
                  | _ => false
                  end.
Proof. destruct x as [s | s | | s m e]; try destruct s; reflexivity. Qed.

Lemma jsLe_zero x :
  jsLe jsZero x = match x with
                  | S754_zero _ => true
                  | S754_infinity s | S754_finite s _ _ => negb s
                  | S754_nan => false
                  end.
Proof. destruct x as [s | s | | s m e]; try destruct s; reflexivity. Qed.

(** A number that is neither negative nor NaN is at least zero. *)
Lemma not_negative_nonneg x :
  jsLt x jsZero = false -> isNaN x = false -> jsLe jsZero x = true.
Proof.
  rewrite jsLt_zero, jsLe_zero.
  destruct x as [s | s | | s m e]; cbn; intros; subst; try reflexivity;
    discriminate.
Qed.

Lemma nonneg_not_negative x :
  jsLe jsZero x = true -> jsLt x jsZero = false /\ isNaN x = false.
Proof.
  rewrite jsLt_zero, jsLe_zero.
  destruct x as [s | s | | s m e]; cbn; intro H; split;
    try reflexivity; try discriminate; destruct s; try reflexivity;
    discriminate.
Qed.

Lemma signOf_not_nan x s : signOf x = Some s -> isNaN x = false.
Proof. destruct x; cbn; intro H; try reflexivity; discriminate. Qed.

Lemma signOf_positive x : signOf x = Some false -> jsLt x jsZero = false.
Proof.
  rewrite jsLt_zero. destruct x; cbn; intro H; try reflexivity;
    inversion H; reflexivity.
Qed.

(** The sum of two finite numbers is never NaN, and it is not negative
    when neither of them is. *)
Lemma jsAdd_finite sx mx ex sy my ey :
  let sum := jsAdd (S754_finite sx mx ex) (S754_finite sy my ey) in
  isNaN sum = false /\
  (sx = false -> sy = false -> jsLt sum jsZero = false).
Proof.
  cbn zeta. unfold jsAdd, SFadd, binary_normalize.
  set (a := fst (shl_align mx ex (Z.min ex ey))).
  set (b := fst (shl_align my ey (Z.min ex ey))).
  destruct (cond_Zopp sx (Z.pos a) + cond_Zopp sy (Z.pos b)) as [| p | p]
    eqn:Hsum.
  - split; reflexivity.
  - pose proof (binary_round_sign false p (Z.min ex ey)) as Hs.
    split; [eapply signOf_not_nan; exact Hs |].
    intros _ _. apply signOf_positive. exact Hs.
  - pose proof (binary_round_sign true p (Z.min ex ey)) as Hs.
    split; [eapply signOf_not_nan; exact Hs |].
    intros -> ->. cbn in Hsum. lia.
Qed.

(** Adding to a balance that is at least zero: the sum is NaN only for a
    NaN amount or for minus infinity taken from infinity. *)
Lemma jsAdd_nan balance amount :
  jsLe jsZero balance = true ->
  isNaN (jsAdd balance amount) = true <->
  isNaN amount = true \/
  (balance = S754_infinity false /\ amount = S754_infinity true).
Proof.
  rewrite jsLe_zero. intro Hb.
  destruct balance as [sb | sb | | sb mb eb];
    destruct amount as [sa | sa | | sa ma ea];
    match goal with
    | |- context [jsAdd (S754_finite _ _ _) (S754_finite _ _ _)] =>
        destruct (jsAdd_finite sb mb eb sa ma ea) as [Hn _];
        cbn zeta in Hn; rewrite Hn;
        split; [discriminate | intros [H | [H1 H2]]; discriminate]
    | _ =>
        try destruct sb; try destruct sa; try discriminate Hb; cbn;
        first
          [ split; [discriminate | intros [H | [H1 H2]]; discriminate]
          | split;
            [ intros _; first [left; reflexivity | right; split; reflexivity]
            | reflexivity ] ]
    end.
Qed.

(** The guard of [updateStakingBalance] keeps a balance from becoming
    negative: when the guard lets the amount through, the sum is not
    negative, whatever the amount. *)
Lemma jsAdd_guarded balance amount :
  jsLt balance jsZero = false ->
  jsLt amount jsZero && jsLt (jsAdd balance amount) jsZero = false ->
  jsLt (jsAdd balance amount) jsZero = false.
Proof.
  intros Hb Hguard. apply andb_false_iff in Hguard.
  destruct Hguard as [Ha | Hs]; [| exact Hs].
  rewrite jsLt_zero in Hb, Ha.
  destruct balance as [sb | sb | | sb mb eb];
    destruct amount as [sa | sa | | sa ma ea];
    match goal with
    | |- context [jsAdd (S754_finite _ _ _) (S754_finite _ _ _)] =>
        apply (jsAdd_finite sb mb eb sa ma ea); assumption
    | _ =>
        cbn in Hb, Ha; subst; try destruct sb; try destruct sa; reflexivity
    end.
Qed.

End Doubles.

(** ** Node registration, voting and staking *)

Section NodeClaims.

Variable env : Env.

Ltac expose_node H :=
  unfold createNode, castVote, updateStakingBalance, getNode in H;
  expose H.

(** C7, as the code has it.  For a descriptor the schema accepts and whose
    soulbound proof verifies, [createNode] stores a node whose
    [reputation_score] is the descriptor's when that is present and not
    zero, and 50 otherwise. *)
Theorem createNode_initial_reputation data w v :
  validateNode env data = true ->
  chainAdapter env (history w)
    (VerifySoulboundId (d_wallet_address data) (d_soulboundId data))
    = Resolves v ->
  truthy v = true ->
  exists nodeId node,
    nodes (createNode env data w).2 !! nodeId = Some node /\
    node_id node = nodeId /\
    (forall nid, (createNode env data w).1 = Ok nid -> nid = nodeId) /\
    (d_reputation_score data = None \/ d_reputation_score data = Some 0 ->
     reputation_score node = 50) /\
    (forall r, d_reputation_score data = Some r -> r <> 0 ->
               reputation_score node = r).
Proof.
  intros Hvalid Hproof Htruthy.
  destruct (createNode env data w) as [res w'] eqn:Hrun.
  expose_node Hrun. rewrite Hvalid in Hrun. cbn in Hrun.
  destruct (truthyStr (d_node_id data)) as [given |]; cbn in Hrun;
    rewrite Hproof in Hrun; cbn in Hrun; rewrite Htruthy in Hrun;
    cbn in Hrun;
    repeat branch Hrun; inversion Hrun; subst res w'; cbn;
    eexists _, _;
    (split; [apply lookup_insert_eq |]); cbn;
    (split; [reflexivity |]);
    (split; [intros nid Hnid; try discriminate; congruence |]);
    unfold initialReputation;
    (split;
     [ intros [-> | ->]; reflexivity
     | intros r -> Hr; destruct (r =? 0) eqn:E;
       [apply Z.eqb_eq in E; contradiction | reflexivity] ]).
Qed.

(** C6.  A node without the [voter] role, or whose [reputation_score] is
    below [governance.proposalThreshold], is refused by [castVote] with
    an authorization error, and the refusal leaves the whole world as it
    was ([votes_cast] included).  Otherwise the vote is submitted to the
    voting contract, and once the submission resolves the node's
    [votes_cast] is one more than before. *)
Theorem castVote_authorization nodeId proposalId vote w node :
  nodes w !! nodeId = Some node ->
  (includes "voter" (roles node) = false \/
   reputation_score node < proposalThreshold (governance node) ->
   exists e,
     castVote env nodeId proposalId vote w = (Throw e, w) /\
     isAuthorizationError e) /\
  (includes "voter" (roles node) = true ->
   reputation_score node >= proposalThreshold (governance node) ->
   let submit := SubmitVote (votingContract (governance node))
                   (wallet_address node) proposalId vote in
   let r := (castVote env nodeId proposalId vote w).1 in
   let w' := (castVote env nodeId proposalId vote w).2 in
   exists o d,
     history w' = history w ++ Invoked submit o :: d /\
     match o with
     | Resolves _ =>
         exists node',
           nodes w' !! nodeId = Some node' /\
           votes_cast node' = votes_cast node + 1 /\
           node' = set_votes_cast (votes_cast node + 1) node
     | Rejects msg =>
         r = Throw (AdapterRejected msg) /\ nodes w' = nodes w
     end /\
     (forall e, r = Throw e -> ~ isAuthorizationError e) /\
     (collaboratorsResolve env -> auditAccepted env ->
      r = Ok "Vote cast successfully")).
Proof.
  intro Hnode. split.
  - intros Hrefused. unfold castVote, bind, getNode. rewrite Hnode.
    destruct (includes "voter" (roles node)) eqn:Hrole; cbn.
    + destruct Hrefused as [Hno | Hlow]; [discriminate |].
      apply Z.ltb_lt in Hlow. rewrite Hlow.
      exists InsufficientReputation. split; [reflexivity | right; reflexivity].
    + exists NotAuthorizedToVote. split; [reflexivity | left; reflexivity].
  - intros Hrole Hrep. cbn zeta.
    assert (Hge : (reputation_score node
                   <? proposalThreshold (governance node)) = false)
      by (apply Z.ltb_ge; lia).
    destruct (castVote env nodeId proposalId vote w) as [r w'] eqn:Hrun.
    expose_node Hrun. rewrite Hnode in Hrun. cbn in Hrun.
    rewrite Hrole, Hge in Hrun. cbn in Hrun.
    destruct (hookOf onVote node) as [hk |]; cbn in Hrun;
      repeat branch Hrun; inversion Hrun; subst r w'; cbn [fst snd];
      (eexists _, _; split; [history_delta |]);
      (split;
       [ first [ split; reflexivity
               | eexists; split; [apply lookup_insert_eq |];
                 split; reflexivity ] |]);
      (split; [intros e He [Hb | Hb]; congruence |]);
      intros Hres Haa;
      try reflexivity;
      try (rewrite Haa in *; discriminate);
      repeat match goal with
             | H : chainAdapter env ?h ?c = Rejects _ |- _ =>
                 destruct (Hres h c) as [? E]; rewrite E in H; discriminate
             end.
Qed.


End NodeClaims.

(** ** Scenarios for the node claims *)

(** C7, counterexample.  A descriptor that the schema accepts, whose
    soulbound proof verifies and that carries [reputation_score: 80] is
    stored with reputation 80, not 50. *)
Lemma createNode_reputation_counterexample :
  validateNode steadyEnv (demoData 3 (Some 80) None) = true /\
  In (Invoked (VerifySoulboundId "0xwallet" (VStr "sbt-1"))
        (Resolves (VBool true)))
     (history (createNode steadyEnv (demoData 3 (Some 80) None)
                 emptyWorld).2) /\
  (createNode steadyEnv (demoData 3 (Some 80) None) emptyWorld).1
    = Ok "node-1" /\
  fmap reputation_score
    (nodes (createNode steadyEnv (demoData 3 (Some 80) None) emptyWorld).2
       !! "node-1") = Some 80 /\
  fmap reputation_score
    (nodes (createNode steadyEnv (demoData 3 (Some 80) None) emptyWorld).2
       !! "node-1") <> Some 50.
Proof.
  split; [reflexivity |]. split; [vm_compute; auto |].
  split; [vm_compute; reflexivity |].
  assert (H : fmap reputation_score
                (nodes (createNode steadyEnv (demoData 3 (Some 80) None)
                          emptyWorld).2 !! "node-1") = Some 80)
    by (vm_compute; reflexivity).
  split; [exact H |]. rewrite H. discriminate.
Qed.

Lemma createNode_initial_reputation_witness :
  exists node,
    nodes (createNode steadyEnv (demoData 3 None None) emptyWorld).2
      !! "node-1" = Some node /\
    reputation_score node = 50.
Proof.
  destruct (createNode_initial_reputation steadyEnv (demoData 3 None None)
              emptyWorld (VBool true))
    as (nodeId & node & Hnode & _ & Hid & Hdefault & _).
  - reflexivity.
  - reflexivity.
  - reflexivity.
  - assert (Hname : "node-1" = nodeId)
      by (apply Hid; vm_compute; reflexivity).
    exists node. rewrite Hname. split; [exact Hnode |].
    apply Hdefault. left. reflexivity.
Defined.

Lemma castVote_authorization_witness :
  (exists e,
     castVote steadyEnv "node-1" (VStr "prop-7") (VBool true)
       lowReputationWorld = (Throw e, lowReputationWorld) /\
     isAuthorizationError e) /\
  (castVote steadyEnv "node-1" (VStr "prop-7") (VBool true) votingWorld).1
    = Ok "Vote cast successfully".
Proof.
  split.
  - destruct (castVote_authorization steadyEnv "node-1" (VStr "prop-7")
                (VBool true) lowReputationWorld (demoNode 3 10 None))
      as [Hrefused _].
    + vm_compute. reflexivity.
    + apply Hrefused. right. cbn. lia.
  - destruct (castVote_authorization steadyEnv "node-1" (VStr "prop-7")
                (VBool true) votingWorld (demoNode 3 50 None))
      as [_ Hallowed].
    + vm_compute. reflexivity.
    + destruct Hallowed as (o & d & _ & _ & _ & Hok).
      * reflexivity.
      * cbn. lia.
      * apply Hok; [apply steadyEnv_resolves | apply permissive_audit].
Defined.


(** The balance is rounded as the engine rounds it: staking 2^53 - 1 on a
    balance of 100 stores 9007199254741092, one more than the exact sum,
    and taking the same amount back leaves 101. *)
Example staking_rounds_to_nearest :
  staking_balance
    <$> nodes (updateStakingBalance steadyEnv "node-1"
                 (ofInt 9007199254740991) votingWorld).2 !! "node-1"
    = Some (ofInt 9007199254741092) /\
  staking_balance
    <$> nodes (updateStakingBalance steadyEnv "node-1"
                 (ofInt (-9007199254740991))
                 (updateStakingBalance steadyEnv "node-1"
                    (ofInt 9007199254740991) votingWorld).2).2 !! "node-1"
    = Some (ofInt 101).
Proof. split; vm_compute; reflexivity. Qed.

(** ** The scenarios of the specification, run on the model *)

(** Scenario A: three attempts allowed, the gateway fails twice and then
    answers ["abc123"], passthrough post-processing. *)
Example scenario_A :
  (fetchEntropy twiceFailingEnv "node-1" 0 threeAttemptsWorld).1
    = Ok {| entropy := VStr "abc123" |} /\
  cacheWrites
    (history (fetchEntropy twiceFailingEnv "node-1" 0 threeAttemptsWorld).2)
    = [("node-1", VStr "abc123", 60)] /\
  reputationCredits
    (history (fetchEntropy twiceFailingEnv "node-1" 0 threeAttemptsWorld).2)
    = [("0xwallet", (1 # 2)%Q)].
Proof. vm_compute. repeat split. Qed.

(** The boundary next to scenario A: the gateway would answer at the
    fourth attempt, but only three are allowed. *)
Example scenario_A_exhausted :
  flakyAdapter 3
    (history (fetchEntropy thriceFailingEnv "node-1" 0 threeAttemptsWorld).2)
    (CallContract (Some "0xfeed") "latestEntropy" "hex")
    = Resolves (VStr "abc123") /\
  (fetchEntropy thriceFailingEnv "node-1" 0 threeAttemptsWorld).1
    = Throw (EntropyFetchFailed 3 "timeout").
Proof. vm_compute. repeat split. Qed.

(** Scenario B: two verifications, then a quorum check with threshold 2. *)
Example scenario_B :
  signals (ritualData quorumWorld) = [quorumSignal] /\
  (quorumConsensusCheck steadyEnv "uuid-0" 2 quorumWorld).1
    = Ok {| signalId := "uuid-0"; reached := true;
            cr_timestamp := "2024-01-01T00:00:00.000Z";
            verifications := 2 |} /\
  map (fun r => map (fun a => (act_type a, target a)) (actions r))
      (rituals (ritualData
         (quorumConsensusCheck steadyEnv "uuid-0" 2 quorumWorld).2))
    = [[("consensus_approved", "uuid-0")]].
Proof. vm_compute. repeat split. Qed.

(** Scenario C: a vote from a node whose reputation is below the
    threshold. *)
Example scenario_C :
  castVote steadyEnv "node-1" (VStr "prop-7") (VBool true) lowReputationWorld
    = (Throw InsufficientReputation, lowReputationWorld).
Proof. vm_compute. reflexivity. Qed.

(** * Further properties *)

(** ** Initiating signals and executing rituals *)

(** Close a goal [l `prefix_of` l ++ ...] on a finished run. *)
Ltac prefix_tac :=
  first [ reflexivity
        | eexists; rewrite <- ?app_assoc; reflexivity ].

Section RitualOperations.

Variable env : Env.

Lemma stampActions_run (reqs : list ActionRequest) : forall w,
  stampActions env reqs w
  = (Ok (stampedFrom env (dateReads w) reqs), advanceClock (length reqs) w).
Proof.
  induction reqs as [| a reqs IH]; intro w; cbn [stampActions].
  - unfold ret, advanceClock. rewrite Nat.add_0_r. destruct w; reflexivity.
  - unfold bind, now. rewrite IH. unfold ret, advanceClock. cbn.
    repeat f_equal. lia.
Qed.

Lemma stampedFrom_keys t (reqs : list ActionRequest) :
  map actionKey (stampedFrom env t reqs) = map requestKey reqs.
Proof.
  revert t. induction reqs as [| a reqs IH]; intro t; cbn; [reflexivity |].
  rewrite IH. reflexivity.
Qed.

Lemma stampedFrom_stamp (reqs : list ActionRequest) : forall t j a,
  stampedFrom env t reqs !! j = Some a ->
  executedAt a = dateISO env (t + j).
Proof.
  induction reqs as [| q reqs IH]; intros t j a Hj; [discriminate Hj |].
  destruct j as [| j]; cbn in Hj.
  - inversion Hj; subst a. cbn. rewrite Nat.add_0_r. reflexivity.
  - rewrite (IH (S t) j a Hj). f_equal. lia.
Qed.

(** X1.  [initiateSignal] appends a pending signal with count 0 under a
    fresh UUID.  Every signal that [find] returned before is still the one
    it returns; when the UUID is not yet in use, [find] returns the new
    signal for it. *)
Theorem initiateSignal_registers who sty pl w :
  let id := uuid env (uuidReads w) in
  let w' := (initiateSignal env who sty pl w).2 in
  exists s,
    signals (ritualData w') = signals (ritualData w) ++ [s] /\
    sig_id s = id /\ initiator s = who /\ sig_type s = sty /\
    payload s = pl /\ status s = pending /\ verificationCount s = 0 /\
    (forall sid i x,
       findSignal sid (signals (ritualData w)) = Some (i, x) ->
       findSignal sid (signals (ritualData w')) = Some (i, x)) /\
    (findSignal id (signals (ritualData w)) = None ->
     findSignal id (signals (ritualData w'))
       = Some (length (signals (ritualData w)), s)) /\
    ((initiateSignal env who sty pl w).1 = Ok s \/
     (initiateSignal env who sty pl w).1 = Throw ValidationFailed) /\
    (ritualAccepted env -> auditAccepted env ->
     (initiateSignal env who sty pl w).1 = Ok s).
Proof.
  cbn zeta.
  destruct (initiateSignal env who sty pl w) as [r w'] eqn:Hrun.
  unfold initiateSignal in Hrun. expose Hrun.
  repeat branch Hrun; inversion Hrun; subst r w'; cbn [fst snd];
    eexists; (split; [reflexivity |]); cbn;
    do 6 (split; [reflexivity |]);
    (split; [intros sid i x Hf; apply list_find_app_l; exact Hf |]);
    (split;
     [ intro Hfresh; unfold findSignal in *;
       rewrite (list_find_app_r _ _ _ Hfresh); cbn;
       rewrite decide_True by reflexivity; reflexivity |]);
    (split; [auto |]); intros Hra Haa;
    try reflexivity;
    try (rewrite Hra in *; discriminate);
    try (rewrite Haa in *; discriminate).
Qed.

(** X2.  [executeRitual] appends one completed ritual whose actions are
    the requested ones, in order, each stamped with its own clock reading:
    the action at position [j] carries the reading number [j] after the
    call began, and the ritual's timestamp the reading after the last
    action.  A non-empty [ritualId] is used as given; otherwise a UUID is
    drawn.  Signals and consensus records are not touched, and the ritual
    stays in the log even when validation then fails. *)
Theorem executeRitual_appends rid who reqs w :
  let r := (executeRitual env rid who reqs w).1 in
  let w' := (executeRitual env rid who reqs w).2 in
  exists ritual,
    rituals (ritualData w') = rituals (ritualData w) ++ [ritual] /\
    ritual_id ritual
      = match truthyStr rid with
        | Some given => given
        | None => uuid env (uuidReads w)
        end /\
    ritual_initiator ritual = who /\
    ritual_status ritual = "completed" /\
    map actionKey (actions ritual) = map requestKey reqs /\
    length (actions ritual) = length reqs /\
    (forall j a,
       actions ritual !! j = Some a ->
       executedAt a = dateISO env (dateReads w + j)) /\
    ritual_timestamp ritual = dateISO env (dateReads w + length reqs) /\
    signals (ritualData w') = signals (ritualData w) /\
    consensusRecords (ritualData w') = consensusRecords (ritualData w) /\
    (r = Ok ritual \/ r = Throw ValidationFailed) /\
    (ritualAccepted env -> auditAccepted env -> r = Ok ritual).
Proof.
  cbn zeta.
  destruct (executeRitual env rid who reqs w) as [r w'] eqn:Hrun.
  unfold executeRitual, bind in Hrun.
  destruct (truthyStr rid) as [given |]; unfold ret, randomUUID in Hrun;
    rewrite stampActions_run in Hrun; expose Hrun;
    repeat branch Hrun; inversion Hrun; subst r w'; cbn [fst snd];
    eexists; (split; [reflexivity |]); cbn;
    do 3 (split; [reflexivity |]);
    (split; [apply stampedFrom_keys |]);
    (split; [rewrite <- (length_map actionKey), stampedFrom_keys;
             apply length_map |]);
    (split; [intros j a Hj; eapply stampedFrom_stamp; exact Hj |]);
    (split; [reflexivity |]);
    do 2 (split; [reflexivity |]);
    (split; [auto |]); intros Hra Haa;
    try reflexivity;
    try (rewrite Hra in *; discriminate);
    try (rewrite Haa in *; discriminate).
Qed.

End RitualOperations.

(** ** Sequences of ritual-controller calls *)

Section RitualSequences.

Variable env : Env.

Lemma verifySignal_frame sid verifier isValid w :
  let w' := (verifySignal env sid verifier isValid w).2 in
  rituals (ritualData w') = rituals (ritualData w) /\
  consensusRecords (ritualData w') = consensusRecords (ritualData w) /\
  auditLog w `prefix_of` auditLog w' /\
  nodes w' = nodes w /\ history w' = history w.
Proof.
  cbn zeta.
  destruct (verifySignal env sid verifier isValid w) as [r w'] eqn:Hrun.
  unfold verifySignal in Hrun.
  destruct (findSignal sid (signals (ritualData w))) as [[i s] |];
    expose Hrun; repeat branch Hrun; inversion Hrun; subst r w';
    cbn; repeat split; prefix_tac.
Qed.

Lemma last_cons_cons {A} (x y : A) (l : list A) :
  last (x :: y :: l) = last (y :: l).
Proof. reflexivity. Qed.

(** The state of a signal after a run of verifications. *)
Lemma verifyAll_state sid (votes : list (string * bool)) : forall w i s,
  findSignal sid (signals (ritualData w)) = Some (i, s) ->
  let w' := verifyAll env sid votes w in
  exists s',
    findSignal sid (signals (ritualData w')) = Some (i, s') /\
    sameSignal s s' /\
    verificationCount s' = verificationCount s + Z.of_nat (length votes) /\
    status s' = match last votes with
                | Some (_, true) => verified
                | Some (_, false) => rejected
                | None => status s
                end /\
    rituals (ritualData w') = rituals (ritualData w) /\
    consensusRecords (ritualData w') = consensusRecords (ritualData w).
Proof.
  induction votes as [| [verifier isValid] rest IH]; intros w i s Hfind;
    cbn zeta.
  - exists s. cbn. rewrite Z.add_0_r.
    repeat split; try reflexivity. exact Hfind.
  - cbn [verifyAll].
    destruct (verifySignal_signals env sid verifier isValid w i s Hfind)
      as (Hsig & _).
    destruct (verifySignal_frame sid verifier isValid w)
      as (Hrit & Hcons & _).
    cbn zeta in Hrit, Hcons.
    destruct (findSignal_Some _ _ _ _ Hfind) as (_ & Hid & _).
    assert (Hfind1 :
      findSignal sid
        (signals (ritualData (verifySignal env sid verifier isValid w).2))
      = Some (i, verified_once isValid s)).
    { rewrite Hsig. apply (findSignal_insert _ _ _ s); assumption. }
    destruct (IH _ i _ Hfind1)
      as (s' & Hf & Hsame & Hcount & Hstatus & Hr & Hc).
    exists s'. split; [exact Hf |]. split.
    { destruct Hsame as (H1 & H2 & H3 & H4 & H5). cbn in H1, H2, H3, H4, H5.
      repeat split; assumption. }
    split.
    { rewrite Hcount. cbn [verificationCount verified_once length]. lia. }
    split.
    { rewrite Hstatus. destruct rest as [| v rest].
      - cbn. destruct isValid; reflexivity.
      - rewrite last_cons_cons.
        destruct (last (v :: rest)) as [[v' b] |] eqn:Hlast;
          [reflexivity | apply last_None in Hlast; discriminate]. }
    split; congruence.
Qed.

(** X3.  A run of [verifySignal] calls on a signal that [find] returns
    adds one to its count per call, whoever the verifiers are (the same
    verifier may be repeated) and whatever the validators answer, and
    leaves the status chosen by the last call alone. *)
Theorem verifyAll_counts sid votes w i s :
  findSignal sid (signals (ritualData w)) = Some (i, s) ->
  exists s',
    findSignal sid (signals (ritualData (verifyAll env sid votes w)))
      = Some (i, s') /\
    initiator s' = initiator s /\
    verificationCount s' = verificationCount s + Z.of_nat (length votes) /\
    status s' = match last votes with
                | Some (_, true) => verified
                | Some (_, false) => rejected
                | None => status s
                end.
Proof.
  intro Hfind.
  destruct (verifyAll_state sid votes w i s Hfind)
    as (s' & Hf & (_ & Hinit & _) & Hcount & Hstatus & _).
  exists s'. repeat split; assumption.
Qed.

(** X4.  Rejections count towards the quorum.  After a run of
    verifications that all say [isValid = false], the signal is
    [rejected], yet a quorum check whose threshold the count meets
    appends a record with [reached = true] and, when the schema accepts
    the store with that record, executes the approval ritual; the record
    is returned once the ritual's own validation and audit entry have
    gone through. *)
Theorem rejected_votes_reach_quorum sid k votes w i s :
  findSignal sid (signals (ritualData w)) = Some (i, s) ->
  votes <> [] ->
  Forall (fun v => v.2 = false) votes ->
  verificationCount s + Z.of_nat (length votes) >= k ->
  let w1 := verifyAll env sid votes w in
  let r := (quorumConsensusCheck env sid k w1).1 in
  let w2 := (quorumConsensusCheck env sid k w1).2 in
  exists s1,
    let c := consensusFor env sid k s1 w1 in
    findSignal sid (signals (ritualData w1)) = Some (i, s1) /\
    status s1 = rejected /\
    reached c = true /\
    consensusRecords (ritualData w2)
      = consensusRecords (ritualData w) ++ [c] /\
    (r = Ok c \/ r = Throw ValidationFailed) /\
    (validateRitual env (push_consensus c (ritualData w1)) = true ->
     exists ritual,
       rituals (ritualData w2) = rituals (ritualData w) ++ [ritual] /\
       approvalRitual sid s ritual /\
       (validateRitual env (ritualData w2) = true ->
        validateExchange env (auditLog w2) = true ->
        r = Ok c)).
Proof.
  intros Hfind Hne Hall Hcount. cbn zeta.
  destruct (verifyAll_state sid votes w i s Hfind)
    as (s1 & Hf & (_ & Hinit & _) & Hc & Hstatus & Hrit & Hrec).
  assert (Hrej : status s1 = rejected).
  { rewrite Hstatus. destruct (last votes) as [[v b] |] eqn:Hlast.
    - apply last_Some in Hlast. destruct Hlast as [l' ->].
      apply Forall_app in Hall. destruct Hall as [_ Hb].
      inversion Hb as [| ? ? Hb' _]; subst. cbn in Hb'. subst b. reflexivity.
    - apply last_None in Hlast. contradiction. }
  destruct (quorumConsensusCheck env sid k (verifyAll env sid votes w))
    as [r w2] eqn:Hrun.
  destruct (quorumConsensusCheck_effects env _ _ _ _ _ _ _ Hf Hrun)
    as (Hnew & _ & Hres & _ & _ & Hritual).
  cbn zeta in Hnew, Hres, Hritual.
  assert (Hreached :
    reached (consensusFor env sid k s1 (verifyAll env sid votes w)) = true)
    by (unfold consensusFor; cbn; apply Z.leb_le; lia).
  exists s1. cbn [fst snd].
  split; [exact Hf |]. split; [exact Hrej |]. split; [exact Hreached |].
  split; [rewrite Hnew, Hrec; reflexivity |]. split; [exact Hres |].
  intro Hstored.
  destruct (Hritual Hstored Hreached) as (ritual & Hrit2 & Happ & _ & Hgood).
  exists ritual. split; [rewrite Hrit2, Hrit; reflexivity |].
  split.
  { destruct Happ as (Ha & Hb & Hc').
    unfold approvalRitual. split; [congruence |]. split; assumption. }
  intros Hok Hlog. destruct (Hgood Hok) as (entry & _ & _ & _ & Hret & _).
  exact (Hret Hlog).
Qed.

Lemma ritualLogsExtend_refl w : ritualLogsExtend w w.
Proof.
  unfold ritualLogsExtend. repeat split; try reflexivity.
  intros i s Hs. exists s. split; [exact Hs |].
  split; [repeat split | lia].
Qed.

Lemma ritualLogsExtend_trans w1 w2 w3 :
  ritualLogsExtend w1 w2 -> ritualLogsExtend w2 w3 -> ritualLogsExtend w1 w3.
Proof.
  intros (R1 & C1 & A1 & N1 & H1 & S1) (R2 & C2 & A2 & N2 & H2 & S2).
  unfold ritualLogsExtend.
  split; [etransitivity; eassumption |].
  split; [etransitivity; eassumption |].
  split; [etransitivity; eassumption |].
  split; [congruence |]. split; [congruence |].
  intros i s Hs.
  destruct (S1 i s Hs) as (s2 & Hs2 & (a1 & a2 & a3 & a4 & a5) & Hle2).
  destruct (S2 i s2 Hs2) as (s3 & Hs3 & (b1 & b2 & b3 & b4 & b5) & Hle3).
  exists s3. split; [exact Hs3 |].
  split; [repeat split; congruence | lia].
Qed.

(** Signals untouched. *)
Ltac signals_kept :=
  let i := fresh "i" in
  let s := fresh "s" in
  let Hs := fresh "Hs" in
  intros i s Hs; exists s; split; [exact Hs |];
  split; [repeat split | lia].

Lemma runRitualCall_extends c w : ritualLogsExtend w (runRitualCall env c w).
Proof.
  destruct c as [who sty pl | sid verifier isValid | rid who reqs | sid k];
    unfold runRitualCall.
  - destruct (initiateSignal env who sty pl w) as [r w'] eqn:Hrun.
    unfold initiateSignal in Hrun. expose Hrun.
    repeat branch Hrun; inversion Hrun; subst r w';
      unfold ritualLogsExtend; cbn;
      (split; [prefix_tac |]); (split; [prefix_tac |]);
      (split; [prefix_tac |]); (split; [reflexivity |]);
      (split; [reflexivity |]);
      intros i s Hs; exists s;
      (split; [apply lookup_app_l_Some; exact Hs |]);
      (split; [repeat split | lia]).
  - destruct (verifySignal_frame sid verifier isValid w)
      as (Hr & Hc & Ha & Hn & Hh).
    cbn zeta in Hr, Hc, Ha, Hn, Hh.
    unfold ritualLogsExtend. rewrite Hr, Hc.
    split; [reflexivity |]. split; [reflexivity |].
    split; [exact Ha |]. split; [exact Hn |]. split; [exact Hh |].
    destruct (findSignal sid (signals (ritualData w))) as [[i0 s0] |] eqn:Hf.
    + destruct (verifySignal_signals env sid verifier isValid w i0 s0 Hf)
        as (Hsig & _).
      rewrite Hsig. intros i s Hs.
      destruct (findSignal_Some _ _ _ _ Hf) as (Hl0 & _ & Hlen).
      destruct (decide (i = i0)) as [-> | Hne].
      * rewrite Hl0 in Hs. inversion Hs; subst s0.
        exists (verified_once isValid s).
        split; [apply list_lookup_insert_eq; exact Hlen |].
        split; [repeat split | cbn; lia].
      * exists s. rewrite list_lookup_insert_ne by congruence.
        split; [exact Hs |]. split; [repeat split | lia].
    + unfold verifySignal. rewrite Hf. cbn. signals_kept.
  - destruct (executeRitual env rid who reqs w) as [r w'] eqn:Hrun.
    unfold executeRitual, bind in Hrun.
    destruct (truthyStr rid) as [given |]; unfold ret, randomUUID in Hrun;
      rewrite stampActions_run in Hrun; expose Hrun;
      repeat branch Hrun; inversion Hrun; subst r w';
      unfold ritualLogsExtend; cbn;
      (split; [prefix_tac |]); (split; [prefix_tac |]);
      (split; [prefix_tac |]); (split; [reflexivity |]);
      (split; [reflexivity |]); signals_kept.
  - destruct (quorumConsensusCheck env sid k w) as [r w'] eqn:Hrun.
    unfold quorumConsensusCheck in Hrun.
    destruct (findSignal sid (signals (ritualData w))) as [[i0 s0] |];
      [destruct (k <=? verificationCount s0) eqn:Hreached |];
      expose Hrun; rewrite ?Hreached in Hrun; cbn in Hrun;
      unfold truthyStr in Hrun; cbn in Hrun;
      repeat branch Hrun; inversion Hrun; subst r w';
      unfold ritualLogsExtend; cbn;
      (split; [prefix_tac |]); (split; [prefix_tac |]);
      (split; [prefix_tac |]); (split; [reflexivity |]);
      (split; [reflexivity |]); signals_kept.
Qed.

Lemma runRitualCalls_extends cs : forall w,
  ritualLogsExtend w (runRitualCalls env cs w).
Proof.
  induction cs as [| c cs IH]; intro w; cbn.
  - apply ritualLogsExtend_refl.
  - eapply ritualLogsExtend_trans; [apply runRitualCall_extends | apply IH].
Qed.

(** X5.  Over any sequence of ritual-controller calls, whether they
    succeed or throw: the ritual log, the consensus log and the audit log
    only grow at the end; every signal keeps its position, id, initiator,
    type, payload and timestamp, and its [verificationCount] never goes
    down; the node store is not touched and the chain adapter is never
    called. *)
Theorem ritual_calls_append_only cs w :
  let w' := runRitualCalls env cs w in
  rituals (ritualData w) `prefix_of` rituals (ritualData w') /\
  consensusRecords (ritualData w)
    `prefix_of` consensusRecords (ritualData w') /\
  auditLog w `prefix_of` auditLog w' /\
  nodes w' = nodes w /\ history w' = history w /\
  (forall i s,
     signals (ritualData w) !! i = Some s ->
     exists s',
       signals (ritualData w') !! i = Some s' /\
       sig_id s' = sig_id s /\ initiator s' = initiator s /\
       sig_type s' = sig_type s /\ payload s' = payload s /\
       sig_timestamp s' = sig_timestamp s /\
       verificationCount s <= verificationCount s').
Proof.
  cbn zeta.
  destruct (runRitualCalls_extends cs w) as (R & C & A & N & H & S).
  repeat split; try assumption.
  intros i s Hs. destruct (S i s Hs) as (s' & Hs' & Hsame & Hle).
  exists s'. destruct Hsame as (a1 & a2 & a3 & a4 & a5).
  repeat split; assumption.
Qed.

End RitualSequences.

(** ** Further properties of fetchEntropy *)

Section FetchStages.

Variable env : Env.

Lemma attempts_quiet agent idx (d : list Event) :
  Forall (attemptEvent agent idx) d ->
  cacheWrites d = [] /\ karmaCredits d = [] /\ reputationCredits d = [] /\
  failedHooks d = [] /\ postProcessCalls d = [] /\ voteSubmissions d = [].
Proof.
  induction 1 as [| e d He _ IH]; [repeat split |].
  destruct IH as (H1 & H2 & H3 & H4 & H5 & H6).
  destruct He as [[o ->] | ->]; cbn; repeat split; assumption.
Qed.

(** Either the loop gave up, or the steps after the loop ran on the value
    it left, from a world that differs from the initial one only by the
    attempts recorded. *)
Lemma fetchEntropy_split nodeId idx w node r w' :
  nodes w !! nodeId = Some node ->
  fetchEntropy env nodeId idx w = (r, w') ->
  exists d1,
    Forall (attemptEvent (entropy_agent node) idx) d1 /\
    ((exists n msg,
        r = Throw (EntropyFetchFailed n msg) /\
        w' = with_history (history w ++ d1) w) \/
     (exists raw,
        deliverEntropy env nodeId idx node raw
          (with_history (history w ++ d1) w) = (r, w'))).
Proof.
  intros Hnode Hrun.
  rewrite (fetchEntropy_unfold _ _ _ _ _ Hnode) in Hrun.
  destruct (retryLoop env (entropy_agent node) idx 0 w) as [r1 w1] eqn:Hloop.
  apply (retryLoop_shape env (entropy_agent node) idx _ _ _ _ _ eq_refl)
    in Hloop.
  destruct Hloop as [(_ & -> & ->) | (_ & pre & o & -> & Hpre & Ho)].
  - exists []. split; [constructor |]. right. exists VUndefined.
    rewrite app_nil_r. destruct w; exact Hrun.
  - exists (pre ++ [Invoked (contractCall (entropy_agent node) idx) o]).
    split.
    { apply Forall_app. split.
      - eapply Forall_impl; [exact Hpre |].
        intros e [[msg ->] | ->]; [left; eauto | right; reflexivity].
      - constructor; [left; eauto | constructor]. }
    destruct o as [msg | v]; destruct Ho as [-> _].
    + left. inversion Hrun; subst. eauto.
    + right. exists v. exact Hrun.
Qed.

(** What the steps after the loop leave in the stores and the audit log. *)
Lemma deliverEntropy_frame nodeId idx node raw w r w' :
  deliverEntropy env nodeId idx node raw w = (r, w') ->
  nodes w' = nodes w /\ ritualData w' = ritualData w /\
  (forall res, r = Ok res ->
     auditLog w' = auditLog w ++ [fetchAuditEntry env nodeId idx node w]) /\
  (r = Throw ValidationFailed ->
     auditLog w' = auditLog w ++ [fetchAuditEntry env nodeId idx node w]) /\
  (forall e, r = Throw e -> e <> ValidationFailed -> auditLog w' = auditLog w).
Proof.
  intro Hrun. expose Hrun.
  destruct (postProcess (entropy_agent node)) as [pp |];
    [destruct (String.eqb (pp_type pp) "none") |];
    destruct (hookOf onEntropyFetch node) as [hk0 |]; cbn in Hrun;
    repeat branch Hrun; inversion Hrun; subst r w'; cbn;
    (split; [reflexivity |]); (split; [reflexivity |]);
    (split; [intros res Hres; first [discriminate | reflexivity] |]);
    (split; [intros Hres; first [discriminate | reflexivity] |]);
    intros e He Hne; first [discriminate | reflexivity | congruence].
Qed.

(** The effects already made when a late step fails. *)
Lemma deliverEntropy_late_failures nodeId idx node raw w r w' :
  deliverEntropy env nodeId idx node raw w = (r, w') ->
  exists d,
    history w' = history w ++ d /\
    (r = Throw ValidationFailed ->
       (exists v, cacheWrites d = [(nodeId, v, cacheTTL (entropy_agent node))]) /\
       karmaCredits d = [(wallet_address node, karmaWage node)] /\
       reputationCredits d = [(wallet_address node, (1 # 2)%Q)]) /\
    (forall msg,
       In (Invoked (DistributeKarmaWage (wallet_address node) (karmaWage node))
             (Rejects msg)) d ->
       r = Throw (AdapterRejected msg) /\
       (exists v x,
          In (Invoked (CacheEntropy nodeId v (cacheTTL (entropy_agent node)))
                (Resolves x)) d) /\
       reputationCredits d = []).
Proof.
  intro Hrun. expose Hrun.
  destruct (postProcess (entropy_agent node)) as [pp |];
    [destruct (String.eqb (pp_type pp) "none") |];
    destruct (hookOf onEntropyFetch node) as [hk0 |]; cbn in Hrun;
    repeat branch Hrun; inversion Hrun; subst r w'; clear Hrun;
    (eexists; split; [history_delta |]);
    (split;
     [ intro Hres; first [discriminate | cbn; repeat split; eauto]
     | intros msg Hin; cbn in Hin;
       repeat (destruct Hin as [Hin | Hin];
               [first [discriminate Hin
                      | inversion Hin; subst;
                        split; [reflexivity |];
                        split; [do 2 eexists; cbn; eauto 10 | reflexivity] ]
               |]);
       destruct Hin ]).
Qed.

(** The post-processing step, when a post-processor is configured. *)
Lemma deliverEntropy_postprocess nodeId idx node raw w r w' pp :
  deliverEntropy env nodeId idx node raw w = (r, w') ->
  postProcess (entropy_agent node) = Some pp ->
  pp_type pp <> "none" ->
  let o := chainAdapter env (history w)
             (ExecutePostProcess (pp_type pp) (pp_callback pp) raw) in
  exists d,
    history w' = history w ++ d /\
    postProcessCalls d = [(pp_type pp, pp_callback pp, raw, o)] /\
    match o with
    | Rejects msg =>
        r = Throw (AdapterRejected msg) /\
        d = [Invoked (ExecutePostProcess (pp_type pp) (pp_callback pp) raw) o]
    | Resolves v =>
        cacheWrites d = [(nodeId, v, cacheTTL (entropy_agent node))] /\
        (forall res, r = Ok res -> entropy res = v)
    end.
Proof.
  intros Hrun Hpp Hnone. expose Hrun. rewrite Hpp in Hrun.
  apply String.eqb_neq in Hnone. rewrite Hnone in Hrun. cbn in Hrun.
  cbn zeta.
  destruct (chainAdapter env (history w)
              (ExecutePostProcess (pp_type pp) (pp_callback pp) raw))
    as [msg | v] eqn:Hout; cbn in Hrun.
  - inversion Hrun; subst r w'. eexists. split; [history_delta |].
    cbn. repeat split.
  - destruct (hookOf onEntropyFetch node) as [hk0 |]; cbn in Hrun;
      repeat branch Hrun; inversion Hrun; subst r w'; clear Hrun;
      (eexists; split; [history_delta |]); cbn; rewrite ?Hout;
      (split; [reflexivity |]); (split; [reflexivity |]);
      intros res Hres; first [discriminate | inversion Hres; reflexivity].
Qed.

(** X6.  A configured post-processor is called at most once per
    [fetchEntropy], after the retry loop and never retried.  If it rejects,
    the call fails with that rejection and nothing is cached or credited;
    if it resolves, its answer is what is cached and returned. *)
Theorem fetchEntropy_post_processing nodeId idx w node pp r w' :
  nodes w !! nodeId = Some node ->
  postProcess (entropy_agent node) = Some pp ->
  pp_type pp <> "none" ->
  fetchEntropy env nodeId idx w = (r, w') ->
  exists d,
    history w' = history w ++ d /\
    (((exists n msg, r = Throw (EntropyFetchFailed n msg)) /\
      postProcessCalls d = [] /\ cacheWrites d = []) \/
     (exists raw o,
        postProcessCalls d = [(pp_type pp, pp_callback pp, raw, o)] /\
        match o with
        | Rejects msg =>
            r = Throw (AdapterRejected msg) /\ cacheWrites d = [] /\
            karmaCredits d = [] /\ reputationCredits d = []
        | Resolves v =>
            cacheWrites d = [(nodeId, v, cacheTTL (entropy_agent node))] /\
            (forall res, r = Ok res -> entropy res = v)
        end)).
Proof.
  intros Hnode Hpp Hnone Hrun.
  destruct (fetchEntropy_split _ _ _ _ _ _ Hnode Hrun)
    as (d1 & Hd1 & [(n & msg & -> & ->) | (raw & Hdel)]).
  - exists d1. split; [reflexivity |]. left.
    destruct (attempts_quiet _ _ _ Hd1) as (Qc & _ & _ & _ & Qp & _).
    split; [eauto |]. split; assumption.
  - destruct (deliverEntropy_postprocess _ _ _ _ _ _ _ _ Hdel Hpp Hnone)
      as (d & Hd & Hcalls & Ho).
    cbn [history with_history] in Hd, Hcalls, Ho.
    exists (d1 ++ d). split; [rewrite Hd, app_assoc; reflexivity |].
    right. exists raw. eexists.
    destruct (attempts_quiet _ _ _ Hd1) as (Qc & Qk & Qr & _ & Qp & _).
    destruct (observations_app d1 d) as (Ec & Ek & Er & _).
    rewrite postProcessCalls_app, Qp. cbn [app].
    split; [exact Hcalls |].
    rewrite Ec, Ek, Er, Qc, Qk, Qr. cbn [app].
    destruct (chainAdapter env (history w ++ d1)
                (ExecutePostProcess (pp_type pp) (pp_callback pp) raw))
      as [msg | v].
    + destruct Ho as [-> ->]. repeat split.
    + exact Ho.
Qed.

(** X7.  A node stored without [postProcess] can never deliver entropy:
    once the retry loop is over, reading [postProcess.type] throws a
    TypeError, so the call either gives up in the loop or ends with that
    TypeError; nothing is cached, credited or logged. *)
Theorem fetchEntropy_without_postProcess nodeId idx w node r w' :
  nodes w !! nodeId = Some node ->
  postProcess (entropy_agent node) = None ->
  fetchEntropy env nodeId idx w = (r, w') ->
  (r = Throw (TypeError "postProcess") \/
   exists n msg, r = Throw (EntropyFetchFailed n msg)) /\
  exists d,
    history w' = history w ++ d /\
    Forall (attemptEvent (entropy_agent node) idx) d /\
    auditLog w' = auditLog w.
Proof.
  intros Hnode Hpp Hrun.
  destruct (fetchEntropy_split _ _ _ _ _ _ Hnode Hrun)
    as (d1 & Hd1 & [(n & msg & -> & ->) | (raw & Hdel)]).
  - split; [right; eauto |]. exists d1. repeat split. exact Hd1.
  - expose Hdel. rewrite Hpp in Hdel. cbn in Hdel.
    inversion Hdel; subst r w'. split; [left; reflexivity |].
    exists d1. repeat split. exact Hd1.
Qed.

(** X8.  A successful [fetchEntropy] appends exactly one audit entry,
    [entropy_fetched], for the node's wallet, naming the node and the
    contract asked.  A call that fails for any reason other than the audit
    log's own validation leaves the audit log as it was. *)
Theorem fetchEntropy_audit nodeId idx w node r w' :
  nodes w !! nodeId = Some node ->
  fetchEntropy env nodeId idx w = (r, w') ->
  (forall res, r = Ok res ->
     auditLog w' = auditLog w ++ [fetchAuditEntry env nodeId idx node w]) /\
  (forall e, r = Throw e -> e <> ValidationFailed ->
     auditLog w' = auditLog w).
Proof.
  intros Hnode Hrun.
  destruct (fetchEntropy_split _ _ _ _ _ _ Hnode Hrun)
    as (d1 & Hd1 & [(n & msg & -> & ->) | (raw & Hdel)]).
  - split; [discriminate | reflexivity].
  - destruct (deliverEntropy_frame _ _ _ _ _ _ _ Hdel)
      as (_ & _ & Hok & _ & Hfail).
    split; [exact Hok | exact Hfail].
Qed.

(** X9.  No rollback of a late failure.  When the audit log's validation
    fails at the end of [fetchEntropy], the cache write and both credits
    have already been made; when the karma credit rejects, the call fails
    with that rejection, the cache write stays and reputation is not
    credited. *)
Theorem fetchEntropy_late_failures nodeId idx w node r w' d :
  nodes w !! nodeId = Some node ->
  fetchEntropy env nodeId idx w = (r, w') ->
  history w' = history w ++ d ->
  (r = Throw ValidationFailed ->
     (exists v, cacheWrites d = [(nodeId, v, cacheTTL (entropy_agent node))]) /\
     karmaCredits d = [(wallet_address node, karmaWage node)] /\
     reputationCredits d = [(wallet_address node, (1 # 2)%Q)]) /\
  (forall msg,
     In (Invoked (DistributeKarmaWage (wallet_address node) (karmaWage node))
           (Rejects msg)) d ->
     r = Throw (AdapterRejected msg) /\
     (exists v x,
        In (Invoked (CacheEntropy nodeId v (cacheTTL (entropy_agent node)))
              (Resolves x)) d) /\
     reputationCredits d = []).
Proof.
  intros Hnode Hrun Hd.
  destruct (fetchEntropy_split _ _ _ _ _ _ Hnode Hrun)
    as (d1 & Hd1 & [(n & msg & -> & ->) | (raw & Hdel)]).
  - cbn [history with_history] in Hd. apply app_inv_head in Hd. subst d.
    split; [discriminate |]. intros msg' Hin.
    rewrite Forall_forall in Hd1. apply list_elem_of_In, Hd1 in Hin.
    destruct Hin as [[o Ho] | Ho]; discriminate Ho.
  - destruct (deliverEntropy_late_failures _ _ _ _ _ _ _ Hdel)
      as (d2 & Hd2 & Hval & Hkarma).
    cbn [history with_history] in Hd2.
    rewrite Hd, <- app_assoc in Hd2. apply app_inv_head in Hd2. subst d.
    destruct (attempts_quiet _ _ _ Hd1) as (Qc & Qk & Qr & _).
    destruct (observations_app d1 d2) as (Ec & Ek & Er & _).
    rewrite Ec, Ek, Er, Qc, Qk, Qr. cbn [app]. split; [exact Hval |].
    intros msg Hin. apply in_app_or in Hin. destruct Hin as [Hin | Hin].
    + rewrite Forall_forall in Hd1. apply list_elem_of_In, Hd1 in Hin.
      destruct Hin as [[o Ho] | Ho]; discriminate Ho.
    + destruct (Hkarma msg Hin) as (Hr & (v & x & Hc) & Hrep).
      split; [exact Hr |]. split; [| exact Hrep].
      exists v, x. apply in_or_app. right. exact Hc.
Qed.

End FetchStages.

(** ** Further properties of castVote and updateStakingBalance *)

Section VoteAndStake.

Variable env : Env.

Ltac expose_ops H :=
  unfold createNode, castVote, updateStakingBalance, getNode in H;
  expose H.

Lemma castVote_stages nodeId pid vote w node r w' :
  nodes w !! nodeId = Some node ->
  includes "voter" (roles node) = true ->
  reputation_score node >= proposalThreshold (governance node) ->
  castVote env nodeId pid vote w = (r, w') ->
  exists d,
    history w' = history w ++ d /\
    (forall m, r = Ok m ->
       voteSubmissions d
         = [(votingContract (governance node), wallet_address node,
             pid, vote)] /\
       karmaCredits d = [(wallet_address node, karmaWage node)] /\
       reputationCredits d = [(wallet_address node, (3 # 10)%Q)] /\
       cacheWrites d = [] /\ gatewayCalls d = 0%nat /\
       auditLog w' = auditLog w ++ [voteAuditEntry env nodeId pid vote node w] /\
       nodes w'
         = <[nodeId := set_votes_cast (votes_cast node + 1) node]> (nodes w)) /\
    (forall hk msg, In (hk, msg) (failedHooks d) ->
       r = Throw (AdapterRejected msg) /\
       nodes w'
         = <[nodeId := set_votes_cast (votes_cast node + 1) node]> (nodes w) /\
       karmaCredits d = [] /\ reputationCredits d = [] /\
       auditLog w' = auditLog w).
Proof.
  intros Hnode Hrole Hrep Hrun.
  assert (Hge : (reputation_score node
                 <? proposalThreshold (governance node)) = false)
    by (apply Z.ltb_ge; lia).
  expose_ops Hrun. rewrite Hnode in Hrun. cbn in Hrun.
  rewrite Hrole, Hge in Hrun. cbn in Hrun.
  destruct (hookOf onVote node) as [hk0 |]; cbn in Hrun;
    repeat branch Hrun; inversion Hrun; subst r w'; clear Hrun;
    (eexists; split; [history_delta |]);
    (split;
     [ intros m Hm; first [discriminate | cbn; repeat split]
     | intros hk msg Hin; cbn in Hin; try contradiction;
       destruct Hin as [Hin | []]; inversion Hin; subst;
       repeat split ]).
Qed.

(** X10.  A successful [castVote] submits the vote exactly once, to the
    node's voting contract and for the node's wallet, credits karma once
    at the node's wage and reputation once by 0.3, logs one [vote_cast]
    entry, and touches neither the entropy cache nor the entropy
    gateway. *)
Theorem castVote_success_effects nodeId pid vote w node m w' :
  nodes w !! nodeId = Some node ->
  castVote env nodeId pid vote w = (Ok m, w') ->
  m = "Vote cast successfully" /\
  exists d,
    history w' = history w ++ d /\
    voteSubmissions d
      = [(votingContract (governance node), wallet_address node, pid, vote)] /\
    karmaCredits d = [(wallet_address node, karmaWage node)] /\
    reputationCredits d = [(wallet_address node, (3 # 10)%Q)] /\
    cacheWrites d = [] /\ gatewayCalls d = 0%nat /\
    auditLog w' = auditLog w ++ [voteAuditEntry env nodeId pid vote node w].
Proof.
  intros Hnode Hrun.
  assert (Hauth : includes "voter" (roles node) = true /\
                  reputation_score node >= proposalThreshold (governance node) /\
                  m = "Vote cast successfully").
  { pose proof Hrun as Hcopy. expose_ops Hcopy. rewrite Hnode in Hcopy.
    cbn in Hcopy.
    destruct (includes "voter" (roles node)); cbn in Hcopy;
      [| discriminate].
    destruct (reputation_score node <? proposalThreshold (governance node))
      eqn:Hlt; cbn in Hcopy; [discriminate |].
    apply Z.ltb_ge in Hlt. split; [reflexivity |]. split; [lia |].
    destruct (hookOf onVote node); cbn in Hcopy;
      repeat branch Hcopy; inversion Hcopy; reflexivity. }
  destruct Hauth as (Hrole & Hrep & ->). split; [reflexivity |].
  destruct (castVote_stages _ _ _ _ _ _ _ Hnode Hrole Hrep Hrun)
    as (d & Hd & Hok & _).
  destruct (Hok _ eq_refl) as (H1 & H2 & H3 & H4 & H5 & H6 & _).
  exists d. repeat split; assumption.
Qed.

(** X11.  No rollback in [castVote].  When the [onVote] hook rejects, the
    call fails with the hook's error although the vote has been submitted
    and the node's [votes_cast] has been incremented; karma and reputation
    are not credited and nothing is logged. *)
Theorem castVote_hook_failure_keeps_vote nodeId pid vote w node r w' d hk msg :
  nodes w !! nodeId = Some node ->
  castVote env nodeId pid vote w = (r, w') ->
  history w' = history w ++ d ->
  In (hk, msg) (failedHooks d) ->
  r = Throw (AdapterRejected msg) /\
  (exists node',
     nodes w' !! nodeId = Some node' /\
     votes_cast node' = votes_cast node + 1) /\
  voteSubmissions d
    = [(votingContract (governance node), wallet_address node, pid, vote)] /\
  karmaCredits d = [] /\ reputationCredits d = [] /\
  auditLog w' = auditLog w.
Proof.
  intros Hnode Hrun Hd Hin.
  assert (Hauth : includes "voter" (roles node) = true /\
                  reputation_score node >= proposalThreshold (governance node)).
  { pose proof Hrun as Hcopy. expose_ops Hcopy. rewrite Hnode in Hcopy.
    cbn in Hcopy.
    destruct (includes "voter" (roles node)); cbn in Hcopy.
    - destruct (reputation_score node <? proposalThreshold (governance node))
        eqn:Hlt; cbn in Hcopy.
      + inversion Hcopy; subst.
        rewrite <- (app_nil_r (history w')) in Hd at 1.
        apply app_inv_head in Hd. subst d. destruct Hin.
      + apply Z.ltb_ge in Hlt. split; [reflexivity | lia].
    - inversion Hcopy; subst.
      rewrite <- (app_nil_r (history w')) in Hd at 1.
      apply app_inv_head in Hd. subst d. destruct Hin. }
  destruct Hauth as (Hrole & Hrep).
  pose proof Hrun as Hcopy. expose_ops Hcopy. rewrite Hnode in Hcopy.
  cbn in Hcopy.
  assert (Hge : (reputation_score node
                 <? proposalThreshold (governance node)) = false)
    by (apply Z.ltb_ge; lia).
  rewrite Hrole, Hge in Hcopy. cbn in Hcopy.
  destruct (hookOf onVote node) as [hk0 |]; cbn in Hcopy;
    repeat branch Hcopy; inversion Hcopy; subst r w'; clear Hcopy;
    cbn [history record_event set_nodes set_auditLog] in Hd;
    rewrite <- ?app_assoc in Hd; apply app_inv_head in Hd; subst d;
    cbn in Hin; try contradiction;
    destruct Hin as [Hin | []]; inversion Hin; subst;
    (split; [reflexivity |]);
    (split; [eexists; split; [apply lookup_insert_eq | reflexivity] |]);
    repeat split.
Qed.

Lemma castVote_ok nodeId pid vote w node :
  nodes w !! nodeId = Some node ->
  includes "voter" (roles node) = true ->
  reputation_score node >= proposalThreshold (governance node) ->
  collaboratorsResolve env -> auditAccepted env ->
  exists w',
    castVote env nodeId pid vote w = (Ok "Vote cast successfully", w') /\
    nodes w'
      = <[nodeId := set_votes_cast (votes_cast node + 1) node]> (nodes w).
Proof.
  intros Hnode Hrole Hrep Hres Hval.
  assert (Hge : (reputation_score node
                 <? proposalThreshold (governance node)) = false)
    by (apply Z.ltb_ge; lia).
  unfold castVote, getNode, triggerHook, logComplianceEvent, invoke, perform,
    bind, modify, ret, throw, now.
  rewrite Hnode. cbn. rewrite Hrole, Hge. cbn.
  repeat match goal with
         | |- context [chainAdapter env ?h ?c] =>
             let v := fresh "v" in
             let E := fresh "E" in
             destruct (Hres h c) as [v E]; rewrite E; cbn
         | |- context [hookOf ?s ?n] => destruct (hookOf s n); cbn
         | |- context [validateExchange env ?l] => rewrite (Hval l); cbn
         end; eauto.
Qed.

(** X12.  Voting does not use anything up: for a node that may vote, with
    collaborators that resolve, each of [n] successive [castVote] calls
    succeeds, and the node's [votes_cast] ends [n] higher.  Nothing stops
    the same node voting again on the same proposal. *)
Theorem castVote_repeats nodeId pid vote n : forall w node,
  nodes w !! nodeId = Some node ->
  includes "voter" (roles node) = true ->
  reputation_score node >= proposalThreshold (governance node) ->
  collaboratorsResolve env -> auditAccepted env ->
  let results := (repeatedVotes env nodeId pid vote n w).1 in
  let w' := (repeatedVotes env nodeId pid vote n w).2 in
  results = repeat (Ok "Vote cast successfully") n /\
  exists node',
    nodes w' !! nodeId = Some node' /\
    votes_cast node' = votes_cast node + Z.of_nat n.
Proof.
  induction n as [| n IH]; intros w node Hnode Hrole Hrep Hres Hval;
    cbn zeta.
  - cbn. split; [reflexivity |]. exists node. split; [exact Hnode | lia].
  - cbn [repeatedVotes].
    destruct (castVote_ok nodeId pid vote w node Hnode Hrole Hrep Hres Hval)
      as (w1 & Hrun & Hnodes).
    rewrite Hrun.
    assert (Hnode1 : nodes w1 !! nodeId
                     = Some (set_votes_cast (votes_cast node + 1) node))
      by (rewrite Hnodes; apply lookup_insert_eq).
    specialize (IH w1 _ Hnode1 Hrole Hrep Hres Hval). cbn zeta in IH.
    destruct (repeatedVotes env nodeId pid vote n w1) as [rs w2].
    cbn [fst snd] in *. destruct IH as (-> & node' & Hn' & Hv').
    split; [reflexivity |]. exists node'. split; [exact Hn' |].
    rewrite Hv'. cbn. lia.
Qed.

Lemma updateStakingBalance_store nodeId amount w node :
  nodes w !! nodeId = Some node ->
  let w' := (updateStakingBalance env nodeId amount w).2 in
  ritualData w' = ritualData w /\
  if jsLt amount jsZero && jsLt (jsAdd (staking_balance node) amount) jsZero
  then w' = w
  else nodes w'
       = <[nodeId := set_staking_balance
                       (jsAdd (staking_balance node) amount) node]>
           (nodes w).
Proof.
  intro Hnode. cbn zeta.
  destruct (updateStakingBalance env nodeId amount w) as [r w'] eqn:Hrun.
  expose_ops Hrun. rewrite Hnode in Hrun. cbn in Hrun.
  destruct (jsLt amount jsZero
            && jsLt (jsAdd (staking_balance node) amount) jsZero);
    cbn in Hrun; repeat branch Hrun; inversion Hrun; subst r w';
    split; reflexivity.
Qed.

End VoteAndStake.

(** ** Sequences of node-controller calls *)

Section NodeSequences.

Variable env : Env.

Ltac expose_ops H :=
  unfold createNode, castVote, updateStakingBalance, getNode in H;
  expose H.

Lemma sameNode_refl n : sameNode n n.
Proof. unfold sameNode. repeat split. Qed.

Lemma sameNode_trans n1 n2 n3 :
  sameNode n1 n2 -> sameNode n2 n3 -> sameNode n1 n3.
Proof.
  unfold sameNode. intros H12 H23.
  destruct H12 as (a1 & a2 & a3 & a4 & a5 & a6 & a7 & a8 & a9 & a10 & a11 & a12).
  destruct H23 as (b1 & b2 & b3 & b4 & b5 & b6 & b7 & b8 & b9 & b10 & b11 & b12).
  repeat split; congruence.
Qed.

Lemma nodeStoreKept_refl w : nodeStoreKept w w.
Proof.
  unfold nodeStoreKept. split; [reflexivity |]. split; [auto |].
  intros id node Hn. exists node. split; [exact Hn |].
  split; [apply sameNode_refl |]. split; [lia | auto].
Qed.

Lemma nodeStoreKept_trans w1 w2 w3 :
  nodeStoreKept w1 w2 -> nodeStoreKept w2 w3 -> nodeStoreKept w1 w3.
Proof.
  intros (R1 & N1 & S1) (R2 & N2 & S2). unfold nodeStoreKept.
  split; [congruence |]. split; [auto |].
  intros id node Hn.
  destruct (S1 id node Hn) as (n2 & Hn2 & Hsame2 & Hv2 & Hb2).
  destruct (S2 id n2 Hn2) as (n3 & Hn3 & Hsame3 & Hv3 & Hb3).
  exists n3. split; [exact Hn3 |].
  split; [eapply sameNode_trans; eassumption |]. split; [lia | auto].
Qed.

Lemma nodeStoreKept_same w w' :
  ritualData w' = ritualData w -> nodes w' = nodes w -> nodeStoreKept w w'.
Proof.
  intros HR HN. unfold nodeStoreKept. rewrite HN.
  split; [exact HR |]. split; [auto |].
  intros id node Hn. exists node. split; [exact Hn |].
  split; [apply sameNode_refl |]. split; [lia | auto].
Qed.

Lemma nodeStoreKept_update w w' id0 n n' :
  nodes w !! id0 = Some n ->
  sameNode n n' ->
  votes_cast n <= votes_cast n' ->
  (jsLt (staking_balance n) jsZero = false ->
   jsLt (staking_balance n') jsZero = false) ->
  ritualData w' = ritualData w ->
  nodes w' = <[id0 := n']> (nodes w) ->
  nodeStoreKept w w'.
Proof.
  intros Hn Hsame Hv Hb HR HN. unfold nodeStoreKept. rewrite HN.
  split; [exact HR |]. split.
  - intros id Hnone. destruct (decide (id = id0)) as [-> | Hne].
    + rewrite Hn in Hnone. discriminate.
    + rewrite lookup_insert_ne by congruence. exact Hnone.
  - intros id node Hid. destruct (decide (id = id0)) as [-> | Hne].
    + rewrite Hn in Hid. inversion Hid; subst node.
      exists n'. rewrite lookup_insert_eq. split; [reflexivity |].
      split; [exact Hsame |]. split; assumption.
    + exists node. rewrite lookup_insert_ne by congruence.
      split; [exact Hid |]. split; [apply sameNode_refl |].
      split; [lia | auto].
Qed.

Lemma fetchEntropy_store nodeId idx w :
  let w' := (fetchEntropy env nodeId idx w).2 in
  ritualData w' = ritualData w /\ nodes w' = nodes w.
Proof.
  cbn zeta.
  destruct (fetchEntropy env nodeId idx w) as [r w'] eqn:Hrun. cbn [snd].
  destruct (nodes w !! nodeId) as [node |] eqn:Hnode.
  - destruct (fetchEntropy_split env _ _ _ _ _ _ Hnode Hrun)
      as (d1 & _ & [(n & msg & _ & ->) | (raw & Hdel)]).
    + split; reflexivity.
    + destruct (deliverEntropy_frame env _ _ _ _ _ _ _ Hdel) as (HN & HR & _).
      split; assumption.
  - unfold fetchEntropy, bind, getNode in Hrun. rewrite Hnode in Hrun.
    inversion Hrun; subst. split; reflexivity.
Qed.

Lemma castVote_store nodeId pid vote w :
  let w' := (castVote env nodeId pid vote w).2 in
  ritualData w' = ritualData w /\
  (nodes w' = nodes w \/
   exists node,
     nodes w !! nodeId = Some node /\
     nodes w'
       = <[nodeId := set_votes_cast (votes_cast node + 1) node]> (nodes w)).
Proof.
  cbn zeta.
  destruct (castVote env nodeId pid vote w) as [r w'] eqn:Hrun. cbn [snd].
  expose_ops Hrun.
  destruct (nodes w !! nodeId) as [node |] eqn:Hnode; cbn in Hrun;
    [| inversion Hrun; subst; split; [reflexivity | left; reflexivity]].
  destruct (includes "voter" (roles node)); cbn in Hrun;
    [| inversion Hrun; subst; split; [reflexivity | left; reflexivity]].
  destruct (reputation_score node <? proposalThreshold (governance node));
    cbn in Hrun;
    [inversion Hrun; subst; split; [reflexivity | left; reflexivity] |].
  destruct (hookOf onVote node) as [hk0 |]; cbn in Hrun;
    repeat branch Hrun; inversion Hrun; subst r w'; cbn;
    (split; [reflexivity |]);
    first [ left; reflexivity | right; exists node; split; reflexivity ].
Qed.

Lemma runNodeCall_kept c w : nodeStoreKept w (runNodeCall env c w).
Proof.
  destruct c as [nodeId idx | nodeId pid vote | nodeId amount];
    unfold runNodeCall.
  - destruct (fetchEntropy_store nodeId idx w) as [HR HN].
    apply nodeStoreKept_same; assumption.
  - destruct (castVote_store nodeId pid vote w)
      as [HR [HN | (node & Hnode & HN)]].
    + apply nodeStoreKept_same; assumption.
    + eapply nodeStoreKept_update; [exact Hnode | | | | exact HR | exact HN].
      * unfold sameNode. repeat split.
      * cbn. lia.
      * cbn. auto.
  - destruct (nodes w !! nodeId) as [node |] eqn:Hnode.
    + destruct (updateStakingBalance_store env nodeId amount w node Hnode)
        as [HR HN]. cbn zeta in HR, HN.
      destruct (jsLt amount jsZero
                && jsLt (jsAdd (staking_balance node) amount) jsZero)
        eqn:Hrefused.
      * rewrite HN. apply nodeStoreKept_refl.
      * eapply nodeStoreKept_update;
          [exact Hnode | | | | exact HR | exact HN].
        -- unfold sameNode. repeat split.
        -- cbn. lia.
        -- cbn. intro Hpos. apply jsAdd_guarded; assumption.
    + unfold updateStakingBalance, bind, getNode. rewrite Hnode. cbn.
      apply nodeStoreKept_refl.
Qed.

Lemma runNodeCalls_kept cs : forall w, nodeStoreKept w (runNodeCalls env cs w).
Proof.
  induction cs as [| c cs IH]; intro w; cbn.
  - apply nodeStoreKept_refl.
  - eapply nodeStoreKept_trans; [apply runNodeCall_kept | apply IH].
Qed.

(** With finite amounts, a balance that is at least zero stays so. *)
Lemma runNodeCall_balance c w id node :
  finiteStake c ->
  nodes w !! id = Some node ->
  jsLe jsZero (staking_balance node) = true ->
  exists node',
    nodes (runNodeCall env c w) !! id = Some node' /\
    jsLe jsZero (staking_balance node') = true.
Proof.
  intros Hfin Hn Hpos.
  destruct c as [nodeId idx | nodeId pid vote | nodeId amount];
    unfold runNodeCall.
  - destruct (fetchEntropy_store nodeId idx w) as [_ HN]. cbn zeta in HN.
    rewrite HN. exists node. split; assumption.
  - destruct (castVote_store nodeId pid vote w)
      as [_ [HN | (voter & Hvoter & HN)]]; cbn zeta in HN; rewrite HN.
    + exists node. split; assumption.
    + destruct (decide (id = nodeId)) as [-> | Hne].
      * rewrite Hvoter in Hn. inversion Hn; subst voter.
        eexists. rewrite lookup_insert_eq. split; [reflexivity | exact Hpos].
      * exists node. rewrite lookup_insert_ne by congruence.
        split; assumption.
  - destruct (nodes w !! nodeId) as [staker |] eqn:Hstaker.
    + destruct (updateStakingBalance_store env nodeId amount w staker Hstaker)
        as [_ HN]. cbn zeta in HN.
      destruct (jsLt amount jsZero
                && jsLt (jsAdd (staking_balance staker) amount) jsZero)
        eqn:Hrefused; rewrite HN.
      * exists node. split; assumption.
      * destruct (decide (id = nodeId)) as [-> | Hne].
        -- rewrite Hstaker in Hn. inversion Hn; subst staker.
           eexists. rewrite lookup_insert_eq. split; [reflexivity |]. cbn.
           destruct (nonneg_not_negative _ Hpos) as [Hbal _].
           apply not_negative_nonneg;
             [apply jsAdd_guarded; assumption |].
           apply not_true_iff_false. intro E.
           apply (jsAdd_nan _ amount Hpos) in E. cbn in Hfin.
           destruct E as [E | [_ E]]; destruct amount; discriminate.
        -- exists node. rewrite lookup_insert_ne by congruence.
           split; assumption.
    + unfold updateStakingBalance, bind, getNode. rewrite Hstaker. cbn.
      exists node. split; assumption.
Qed.

Lemma runNodeCalls_balance cs : finiteStakes cs -> forall w id node,
  nodes w !! id = Some node ->
  jsLe jsZero (staking_balance node) = true ->
  exists node',
    nodes (runNodeCalls env cs w) !! id = Some node' /\
    jsLe jsZero (staking_balance node') = true.
Proof.
  induction 1 as [| c cs Hc _ IH]; intros w id node Hn Hpos; cbn.
  - exists node. split; assumption.
  - destruct (runNodeCall_balance c w id node Hc Hn Hpos)
      as (n1 & Hn1 & Hpos1).
    apply (IH _ id n1 Hn1 Hpos1).
Qed.

(** X14.  Over any sequence of [fetchEntropy], [castVote] and
    [updateStakingBalance] calls, whether they succeed or throw: no node
    appears or disappears; a node keeps its identity, wallet, roles,
    governance settings, entropy agent and [reputation_score]; its
    [votes_cast] never goes down; a [staking_balance] that is not negative
    stays so, whatever the amounts are, and one that is at least zero
    stays at least zero when the amounts staked are finite numbers; the
    ritual store is untouched. *)
Theorem node_calls_keep_store cs w :
  let w' := runNodeCalls env cs w in
  ritualData w' = ritualData w /\
  (forall id, nodes w !! id = None -> nodes w' !! id = None) /\
  (forall id node,
     nodes w !! id = Some node ->
     exists node',
       nodes w' !! id = Some node' /\
       node_id node' = node_id node /\
       wallet_address node' = wallet_address node /\
       roles node' = roles node /\
       governance node' = governance node /\
       entropy_agent node' = entropy_agent node /\
       reputation_score node' = reputation_score node /\
       votes_cast node <= votes_cast node' /\
       (jsLt (staking_balance node) jsZero = false ->
        jsLt (staking_balance node') jsZero = false) /\
       (finiteStakes cs ->
        jsLe jsZero (staking_balance node) = true ->
        jsLe jsZero (staking_balance node') = true)).
Proof.
  cbn zeta. destruct (runNodeCalls_kept cs w) as (HR & HN & HS).
  split; [exact HR |]. split; [exact HN |].
  intros id node Hn. destruct (HS id node Hn) as (n' & Hn' & Hsame & Hv & Hb).
  destruct Hsame
    as (a1 & a2 & a3 & a4 & a5 & a6 & a7 & a8 & a9 & a10 & a11 & a12).
  exists n'. repeat split; try assumption.
  intros Hfin Hpos.
  destruct (runNodeCalls_balance cs Hfin w id node Hn Hpos)
    as (n2 & Hn2 & Hpos2).
  rewrite Hn' in Hn2. inversion Hn2; subst n2. exact Hpos2.
Qed.

(** X15.  A refusal to vote is permanent under the node controller.  The
    reputation credited through the chain adapter never reaches the
    stored [reputation_score], and roles never change: a node that
    [castVote] refuses stays refused after any sequence of entropy
    fetches, vote attempts and staking updates. *)
Theorem castVote_refusal_is_stable cs w nodeId node pid vote :
  nodes w !! nodeId = Some node ->
  includes "voter" (roles node) = false \/
  reputation_score node < proposalThreshold (governance node) ->
  let w' := runNodeCalls env cs w in
  exists e,
    castVote env nodeId pid vote w' = (Throw e, w') /\
    isAuthorizationError e.
Proof.
  intros Hnode Hrefused. cbn zeta.
  destruct (runNodeCalls_kept cs w) as (_ & _ & HS).
  destruct (HS nodeId node Hnode) as (n' & Hn' & Hsame & _).
  destruct Hsame
    as (_ & _ & _ & Hrep & _ & _ & _ & _ & _ & _ & Hroles & Hgov).
  unfold castVote, bind, getNode. rewrite Hn'. rewrite Hroles, Hrep, Hgov.
  destruct (includes "voter" (roles node)) eqn:Hrole; cbn.
  - destruct Hrefused as [Hno | Hlow]; [discriminate |].
    apply Z.ltb_lt in Hlow. rewrite Hlow.
    exists InsufficientReputation. split; [reflexivity | right; reflexivity].
  - exists NotAuthorizedToVote. split; [reflexivity | left; reflexivity].
Qed.

End NodeSequences.

(** ** Further properties of createNode *)

Section Registration.

Variable env : Env.

Ltac expose_ops H :=
  unfold createNode, castVote, updateStakingBalance, getNode in H;
  expose H.

(** X16.  Registration round trip.  After a successful [createNode],
    [getNode] under the returned id gives a node of type [entropy-node]
    carrying the descriptor's properties; the id is the descriptor's
    [node_id] when that is a non-empty string and a fresh UUID otherwise;
    nodes under other ids are untouched.  There is no uniqueness check: a
    node already stored under that id is replaced. *)
Theorem createNode_then_getNode data w nodeId w' :
  createNode env data w = (Ok nodeId, w') ->
  nodeId = match truthyStr (d_node_id data) with
           | Some given => given
           | None => uuid env (uuidReads w)
           end /\
  (forall other, other <> nodeId -> nodes w' !! other = nodes w !! other) /\
  exists node,
    getNode nodeId w' = (Ok node, w') /\
    node_id node = nodeId /\ node_type node = "entropy-node" /\
    wallet_address node = d_wallet_address data /\
    soulboundId node = d_soulboundId data /\
    username node = d_username data /\
    entropy_agent node = d_entropy_agent data /\
    transactionHooks node = d_transactionHooks data /\
    karmaWage node = d_karmaWage data /\
    roles node = d_roles data /\
    governance node = d_governance data /\
    votes_cast node = d_votes_cast data /\
    staking_balance node = d_staking_balance data.
Proof.
  intro Hrun. expose_ops Hrun.
  destruct (validateNode env data); cbn in Hrun; [| discriminate].
  destruct (truthyStr (d_node_id data)) as [given |]; cbn in Hrun;
    (destruct (chainAdapter env (history w)
                 (VerifySoulboundId (d_wallet_address data)
                    (d_soulboundId data))) as [msg | v];
     cbn in Hrun; [discriminate |]);
    (destruct (truthy v); cbn in Hrun; [| discriminate]);
    repeat branch Hrun; inversion Hrun; subst nodeId w'; cbn;
    (split; [reflexivity |]);
    (split; [intros other Hne; apply lookup_insert_ne; congruence |]);
    eexists; unfold getNode; cbn; rewrite lookup_insert_eq;
    (split; [reflexivity |]); cbn; repeat split.
Qed.

(** X17.  [createNode] stores nothing without a verified proof.  When the
    soulbound check resolves to a falsy value the call throws 'Invalid
    soulbound ID' for the wallet: no node is stored, none is registered
    on chain, nothing is logged.  More generally the node store changes
    only if the schema accepted the descriptor and the check resolved to
    a truthy value. *)
Theorem createNode_needs_verified_proof data w :
  let verify := VerifySoulboundId (d_wallet_address data)
                  (d_soulboundId data) in
  let r := (createNode env data w).1 in
  let w' := (createNode env data w).2 in
  (nodes w' = nodes w \/
   (validateNode env data = true /\
    exists v, chainAdapter env (history w) verify = Resolves v /\
              truthy v = true)) /\
  (forall v,
     validateNode env data = true ->
     chainAdapter env (history w) verify = Resolves v ->
     truthy v = false ->
     r = Throw (InvalidSoulboundId (d_wallet_address data)) /\
     nodes w' = nodes w /\ auditLog w' = auditLog w /\
     history w' = history w ++ [Invoked verify (Resolves v)]).
Proof.
  cbn zeta.
  destruct (createNode env data w) as [r w'] eqn:Hrun. cbn [fst snd].
  expose_ops Hrun. split.
  - destruct (validateNode env data); cbn in Hrun;
      [| inversion Hrun; subst; left; reflexivity].
    destruct (truthyStr (d_node_id data)) as [given |]; cbn in Hrun;
      (destruct (chainAdapter env (history w)
                   (VerifySoulboundId (d_wallet_address data)
                      (d_soulboundId data))) as [msg | v] eqn:Hv;
       cbn in Hrun; [inversion Hrun; subst; left; reflexivity |]);
      (destruct (truthy v) eqn:Ht; cbn in Hrun;
       [| inversion Hrun; subst; left; reflexivity]);
      right; split; [reflexivity | eauto | reflexivity | eauto].
  - intros v Hvalid Hv Ht. rewrite Hvalid in Hrun. cbn in Hrun.
    destruct (truthyStr (d_node_id data)) as [given |]; cbn in Hrun;
      rewrite Hv in Hrun; cbn in Hrun; rewrite Ht in Hrun; cbn in Hrun;
      inversion Hrun; subst r w'; repeat split.
Qed.

(** X18.  No rollback in [createNode].  The node is put in the local store
    before it is registered on chain: when the [registerNode] call
    rejects, [createNode] fails with that rejection, yet the node stays in
    the store (and [getNode] finds it); nothing is logged. *)
Theorem createNode_register_failure_keeps_node data w r w' d nid node msg :
  createNode env data w = (r, w') ->
  history w' = history w ++ d ->
  In (Invoked (RegisterNode nid node) (Rejects msg)) d ->
  r = Throw (AdapterRejected msg) /\
  getNode nid w' = (Ok node, w') /\
  auditLog w' = auditLog w.
Proof.
  intros Hrun Hd Hin. expose_ops Hrun.
  destruct (validateNode env data); cbn in Hrun.
  2: { inversion Hrun; subst.
       rewrite <- (app_nil_r (history w')) in Hd at 1.
       apply app_inv_head in Hd. subst d. destruct Hin. }
  destruct (truthyStr (d_node_id data)) as [given |]; cbn in Hrun;
    (destruct (chainAdapter env (history w)
                 (VerifySoulboundId (d_wallet_address data)
                    (d_soulboundId data))) as [m0 | v];
     cbn in Hrun;
     [| destruct (truthy v); cbn in Hrun]);
    repeat branch Hrun; inversion Hrun; subst r w'; clear Hrun;
    cbn [history record_event set_nodes set_auditLog] in Hd;
    rewrite <- ?app_assoc in Hd; apply app_inv_head in Hd; subst d;
    cbn in Hin;
    repeat (destruct Hin as [Hin | Hin]; [try discriminate Hin |]);
    try contradiction;
    inversion Hin; subst;
    (split; [reflexivity |]);
    (split; [unfold getNode; cbn; rewrite lookup_insert_eq; reflexivity |]);
    reflexivity.
Qed.

End Registration.

(** ** Scenarios for the further properties *)

Lemma customWorld_node pp voteHook :
  nodes (customWorld pp voteHook) !! "node-2" = Some (customNode pp voteHook).
Proof. vm_compute. reflexivity. Qed.

Lemma obligingEnv_resolves : collaboratorsResolve obligingEnv.
Proof. intros h c. destruct c; cbn; eauto. Qed.

Lemma initiateSignal_registers_witness :
  exists s,
    (initiateSignal steadyEnv "agentB" "price" VNull quorumWorld).1 = Ok s /\
    findSignal "uuid-1"
      (signals (ritualData
         (initiateSignal steadyEnv "agentB" "price" VNull quorumWorld).2))
      = Some (1%nat, s) /\
    verificationCount s = 0.
Proof.
  destruct (initiateSignal_registers steadyEnv "agentB" "price" VNull
              quorumWorld)
    as (s & _ & _ & _ & _ & _ & _ & Hc & _ & Hfresh & _ & Hok).
  exists s. split; [| split; [| exact Hc]].
  - apply Hok; [apply permissive_ritual | apply permissive_audit].
  - apply Hfresh. vm_compute. reflexivity.
Defined.

Lemma executeRitual_appends_witness :
  exists ritual,
    (executeRitual tickingEnv (Some "ritual-9") "agentA"
       [{| req_type := "mint"; req_target := "t1" |};
        {| req_type := "burn"; req_target := "t2" |}] emptyWorld).1
      = Ok ritual /\
    ritual_id ritual = "ritual-9" /\
    map actionKey (actions ritual) = [("mint", "t1"); ("burn", "t2")] /\
    map executedAt (actions ritual) = ["t0"; "t1"] /\
    ritual_timestamp ritual = "t2".
Proof.
  destruct (executeRitual_appends tickingEnv (Some "ritual-9") "agentA"
              [{| req_type := "mint"; req_target := "t1" |};
               {| req_type := "burn"; req_target := "t2" |}] emptyWorld)
    as (ritual & _ & Hid & _ & _ & Hkeys & Hlen & Hstamp & Hts & _ & _ & _
        & Hok).
  exists ritual. split; [| split; [exact Hid | split; [exact Hkeys |]]].
  - apply Hok; intro; reflexivity.
  - split; [| exact Hts].
    destruct (actions ritual) as [| a0 [| a1 [| a2 rest]]];
      try discriminate Hlen.
    cbn. rewrite (Hstamp 0%nat a0 eq_refl), (Hstamp 1%nat a1 eq_refl).
    reflexivity.
Defined.

Lemma verifyAll_counts_witness :
  exists s',
    findSignal "uuid-0"
      (signals (ritualData
         (verifyAll steadyEnv "uuid-0"
            [("v1", true); ("v1", true); ("v3", false)] quorumWorld)))
      = Some (0%nat, s') /\
    verificationCount s' = 5 /\ status s' = rejected.
Proof.
  destruct (verifyAll_counts steadyEnv "uuid-0"
              [("v1", true); ("v1", true); ("v3", false)] quorumWorld
              0%nat quorumSignal quorumWorld_signal)
    as (s' & Hf & _ & Hc & Hs).
  exists s'. split; [exact Hf |]. split; [exact Hc | exact Hs].
Defined.

Lemma rejected_votes_reach_quorum_witness :
  exists s1,
    findSignal "uuid-0"
      (signals (ritualData
         (verifyAll steadyEnv "uuid-0" [("v3", false); ("v4", false)]
            quorumWorld))) = Some (0%nat, s1) /\
    status s1 = rejected /\
    exists c ritual,
      (quorumConsensusCheck steadyEnv "uuid-0" 4
         (verifyAll steadyEnv "uuid-0" [("v3", false); ("v4", false)]
            quorumWorld)).1 = Ok c /\
      reached c = true /\
      approvalRitual "uuid-0" quorumSignal ritual.
Proof.
  destruct (rejected_votes_reach_quorum steadyEnv "uuid-0" 4
              [("v3", false); ("v4", false)] quorumWorld 0%nat quorumSignal
              quorumWorld_signal)
    as (s1 & Hf & Hs & Hc & _ & _ & Hritual).
  - discriminate.
  - repeat constructor.
  - cbn. lia.
  - cbn zeta in Hc, Hritual.
    destruct (Hritual eq_refl) as (ritual & _ & Happ & Hok).
    exists s1. split; [exact Hf |]. split; [exact Hs |].
    eexists. exists ritual. split; [exact (Hok eq_refl eq_refl) |].
    split; [exact Hc | exact Happ].
Defined.

Lemma ritual_calls_append_only_witness :
  exists s',
    signals (ritualData
      (runRitualCalls steadyEnv
         [DoVerify "uuid-0" "v9" false; DoQuorum "uuid-0" 1;
          DoInitiate "agentC" "note" VNull; DoQuorum "missing" 1]
         quorumWorld)) !! 0%nat = Some s' /\
    initiator s' = "agentA" /\ 2 <= verificationCount s'.
Proof.
  destruct (ritual_calls_append_only steadyEnv
              [DoVerify "uuid-0" "v9" false; DoQuorum "uuid-0" 1;
               DoInitiate "agentC" "note" VNull; DoQuorum "missing" 1]
              quorumWorld)
    as (_ & _ & _ & _ & _ & Hsig).
  destruct (Hsig 0%nat quorumSignal) as (s' & Hs' & _ & Hi & _ & _ & _ & Hc).
  - vm_compute. reflexivity.
  - exists s'. split; [exact Hs' |]. split; [exact Hi | exact Hc].
Defined.

Lemma fetchEntropy_post_processing_witness :
  exists d,
    history (fetchEntropy obligingEnv "node-2" 0 (customWorld hashing None)).2
      = history (customWorld hashing None) ++ d /\
    postProcessCalls d
      = [("hash", VStr "sha256", VStr "abc123",
          Resolves (VArr [VStr "abc123"]))] /\
    cacheWrites d = [("node-2", VArr [VStr "abc123"], 30)].
Proof.
  destruct (fetchEntropy_post_processing obligingEnv "node-2" 0
              (customWorld hashing None) (customNode hashing None)
              {| pp_type := "hash"; pp_callback := VStr "sha256" |}
              (fetchEntropy obligingEnv "node-2" 0
                 (customWorld hashing None)).1
              (fetchEntropy obligingEnv "node-2" 0
                 (customWorld hashing None)).2)
    as (d & Hd & Hcase).
  - apply customWorld_node.
  - reflexivity.
  - discriminate.
  - apply surjective_pairing.
  - exists d. split; [exact Hd |].
    assert (Hq : d = drop 2 (history (fetchEntropy obligingEnv "node-2" 0
                                        (customWorld hashing None)).2)).
    { apply (app_inv_head (history (customWorld hashing None))).
      rewrite <- Hd. vm_compute. reflexivity. }
    rewrite Hq. vm_compute. split; reflexivity.
Defined.

Lemma fetchEntropy_without_postProcess_witness :
  (fetchEntropy obligingEnv "node-2" 0 (customWorld None None)).1
    = Throw (TypeError "postProcess") /\
  auditLog (fetchEntropy obligingEnv "node-2" 0 (customWorld None None)).2
    = auditLog (customWorld None None).
Proof.
  destruct (fetchEntropy_without_postProcess obligingEnv "node-2" 0
              (customWorld None None) (customNode None None)
              (fetchEntropy obligingEnv "node-2" 0 (customWorld None None)).1
              (fetchEntropy obligingEnv "node-2" 0 (customWorld None None)).2)
    as (_ & d & _ & _ & Ha).
  - apply customWorld_node.
  - reflexivity.
  - apply surjective_pairing.
  - split; [vm_compute; reflexivity | exact Ha].
Defined.

Lemma fetchEntropy_audit_witness :
  auditLog (fetchEntropy obligingEnv "node-2" 0
              (customWorld passthrough None)).2
  = auditLog (customWorld passthrough None)
    ++ [fetchAuditEntry obligingEnv "node-2" 0 (customNode passthrough None)
          (customWorld passthrough None)].
Proof.
  destruct (fetchEntropy_audit obligingEnv "node-2" 0
              (customWorld passthrough None) (customNode passthrough None)
              (fetchEntropy obligingEnv "node-2" 0
                 (customWorld passthrough None)).1
              (fetchEntropy obligingEnv "node-2" 0
                 (customWorld passthrough None)).2)
    as (Hok & _).
  - apply customWorld_node.
  - apply surjective_pairing.
  - apply (Hok {| entropy := VStr "abc123" |}). vm_compute. reflexivity.
Defined.

Lemma fetchEntropy_late_failures_witness :
  (fetchEntropy karmaFailingEnv "node-2" 0 (customWorld passthrough None)).1
    = Throw (AdapterRejected "refused") /\
  reputationCredits
    (drop 2 (history (fetchEntropy karmaFailingEnv "node-2" 0
                        (customWorld passthrough None)).2)) = [].
Proof.
  destruct (fetchEntropy_late_failures karmaFailingEnv "node-2" 0
              (customWorld passthrough None) (customNode passthrough None)
              (fetchEntropy karmaFailingEnv "node-2" 0
                 (customWorld passthrough None)).1
              (fetchEntropy karmaFailingEnv "node-2" 0
                 (customWorld passthrough None)).2
              (drop 2 (history (fetchEntropy karmaFailingEnv "node-2" 0
                                  (customWorld passthrough None)).2)))
    as (_ & Hkarma).
  - apply customWorld_node.
  - apply surjective_pairing.
  - vm_compute. reflexivity.
  - destruct (Hkarma "refused") as (Hr & _ & Hrep).
    + vm_compute. auto.
    + split; [exact Hr | exact Hrep].
Defined.

Lemma castVote_success_effects_witness :
  exists d,
    history (castVote obligingEnv "node-2" (VStr "p1") (VBool true)
               (customWorld passthrough None)).2
      = history (customWorld passthrough None) ++ d /\
    voteSubmissions d = [("0xgov", "0xbob", VStr "p1", VBool true)] /\
    reputationCredits d = [("0xbob", (3 # 10)%Q)].
Proof.
  destruct (castVote_success_effects obligingEnv "node-2" (VStr "p1")
              (VBool true) (customWorld passthrough None)
              (customNode passthrough None) "Vote cast successfully"
              (castVote obligingEnv "node-2" (VStr "p1") (VBool true)
                 (customWorld passthrough None)).2)
    as (_ & d & Hd & Hv & _ & Hr & _).
  - apply customWorld_node.
  - vm_compute. reflexivity.
  - exists d. split; [exact Hd |]. split; [exact Hv | exact Hr].
Defined.

Lemma castVote_hook_failure_keeps_vote_witness :
  (castVote hooksFailingEnv "node-2" (VStr "p1") (VBool true)
     (customWorld passthrough (Some "onVote"))).1
    = Throw (AdapterRejected "refused") /\
  exists node',
    nodes (castVote hooksFailingEnv "node-2" (VStr "p1") (VBool true)
             (customWorld passthrough (Some "onVote"))).2 !! "node-2"
      = Some node' /\
    votes_cast node' = 5.
Proof.
  destruct (castVote_hook_failure_keeps_vote hooksFailingEnv "node-2"
              (VStr "p1") (VBool true)
              (customWorld passthrough (Some "onVote"))
              (customNode passthrough (Some "onVote"))
              (castVote hooksFailingEnv "node-2" (VStr "p1") (VBool true)
                 (customWorld passthrough (Some "onVote"))).1
              (castVote hooksFailingEnv "node-2" (VStr "p1") (VBool true)
                 (customWorld passthrough (Some "onVote"))).2
              (drop 2 (history
                 (castVote hooksFailingEnv "node-2" (VStr "p1") (VBool true)
                    (customWorld passthrough (Some "onVote"))).2))
              "onVote" "refused")
    as (Hr & (node' & Hn & Hv) & _).
  - apply customWorld_node.
  - apply surjective_pairing.
  - vm_compute. reflexivity.
  - vm_compute. auto.
  - split; [exact Hr |]. exists node'. split; [exact Hn | exact Hv].
Defined.

Lemma castVote_repeats_witness :
  exists node',
    nodes (repeatedVotes obligingEnv "node-2" (VStr "p1") (VBool true) 3
             (customWorld passthrough None)).2 !! "node-2" = Some node' /\
    votes_cast node' = 7.
Proof.
  destruct (castVote_repeats obligingEnv "node-2" (VStr "p1") (VBool true) 3
              (customWorld passthrough None) (customNode passthrough None))
    as (_ & node' & Hn & Hv).
  - apply customWorld_node.
  - reflexivity.
  - cbn. lia.
  - apply obligingEnv_resolves.
  - apply permissive_audit.
  - exists node'. split; [exact Hn | exact Hv].
Defined.

Lemma node_calls_keep_store_witness :
  exists node',
    nodes (runNodeCalls karmaFailingEnv
             [DoStake "node-2" (ofInt (-30)); DoFetch "node-2" 0;
              DoVote "node-2" (VStr "p1") VNull; DoStake "node-2" (ofInt 10)]
             (customWorld passthrough None)) !! "node-2" = Some node' /\
    reputation_score node' = 60 /\
    jsLe jsZero (staking_balance node') = true.
Proof.
  destruct (node_calls_keep_store karmaFailingEnv
              [DoStake "node-2" (ofInt (-30)); DoFetch "node-2" 0;
               DoVote "node-2" (VStr "p1") VNull; DoStake "node-2" (ofInt 10)]
              (customWorld passthrough None))
    as (_ & _ & Hkept).
  destruct (Hkept "node-2" (customNode passthrough None)
              (customWorld_node passthrough None))
    as (node' & Hn & _ & _ & _ & _ & _ & Hrep & _ & _ & Hbal).
  exists node'. split; [exact Hn |]. split; [exact Hrep |].
  apply Hbal; [| reflexivity].
  repeat constructor.
Defined.

Lemma castVote_refusal_is_stable_witness :
  exists e,
    castVote steadyEnv "node-1" (VStr "p1") VNull
      (runNodeCalls steadyEnv [DoFetch "node-1" 0; DoFetch "node-1" 0]
         lowReputationWorld)
    = (Throw e,
       runNodeCalls steadyEnv [DoFetch "node-1" 0; DoFetch "node-1" 0]
         lowReputationWorld) /\
    isAuthorizationError e.
Proof.
  apply (castVote_refusal_is_stable steadyEnv
           [DoFetch "node-1" 0; DoFetch "node-1" 0] lowReputationWorld
           "node-1" (demoNode 3 10 None)).
  - vm_compute. reflexivity.
  - right. cbn. lia.
Defined.

Lemma createNode_then_getNode_witness :
  exists node,
    getNode "node-2"
      (createNode obligingEnv (customData passthrough None) votingWorld).2
    = (Ok node,
       (createNode obligingEnv (customData passthrough None) votingWorld).2) /\
    wallet_address node = "0xbob" /\
    nodes (createNode obligingEnv (customData passthrough None)
             votingWorld).2 !! "node-1"
      = nodes votingWorld !! "node-1".
Proof.
  destruct (createNode_then_getNode obligingEnv (customData passthrough None)
              votingWorld "node-2"
              (createNode obligingEnv (customData passthrough None)
                 votingWorld).2)
    as (_ & Hothers & node & Hget & _ & _ & Hwallet & _).
  - vm_compute. reflexivity.
  - exists node. split; [exact Hget |]. split; [exact Hwallet |].
    apply Hothers. discriminate.
Defined.

Lemma createNode_needs_verified_proof_witness :
  (createNode unverifiedEnv (customData passthrough None) emptyWorld).1
    = Throw (InvalidSoulboundId "0xbob") /\
  nodes (createNode unverifiedEnv (customData passthrough None) emptyWorld).2
    = nodes emptyWorld.
Proof.
  destruct (createNode_needs_verified_proof unverifiedEnv
              (customData passthrough None) emptyWorld)
    as (_ & Hfalsy).
  destruct (Hfalsy (VBool false)) as (Hr & Hn & _);
    [reflexivity | reflexivity | reflexivity |].
  split; [exact Hr | exact Hn].
Defined.

Lemma createNode_register_failure_keeps_node_witness :
  (createNode registerFailingEnv (customData passthrough None) emptyWorld).1
    = Throw (AdapterRejected "refused") /\
  getNode "node-2"
    (createNode registerFailingEnv (customData passthrough None) emptyWorld).2
  = (Ok (customNode passthrough None),
     (createNode registerFailingEnv (customData passthrough None)
        emptyWorld).2).
Proof.
  destruct (createNode_register_failure_keeps_node registerFailingEnv
              (customData passthrough None) emptyWorld
              (createNode registerFailingEnv (customData passthrough None)
                 emptyWorld).1
              (createNode registerFailingEnv (customData passthrough None)
                 emptyWorld).2
              (history (createNode registerFailingEnv
                          (customData passthrough None) emptyWorld).2)
              "node-2" (customNode passthrough None) "refused")
    as (Hr & Hget & _).
  - apply surjective_pairing.
  - reflexivity.
  - vm_compute. auto.
  - split; [exact Hr | exact Hget].
Defined.

(** ** createProject and toggleAdRevenue *)

Section ProjectClaims.

Import Projects.

Variable env : Env.

Ltac expose_project H :=
  unfold createProject, toggleAdRevenue, pbind, pret, pthrow, lift,
    set_extras, getNode in H;
  expose H.

(** What one [createProject] call does to the stores, for a creator. *)
Lemma createProject_store nodeId pid pw node :
  nodes (base pw) !! nodeId = Some node ->
  includes "creator" (roles node) = true ->
  let projectId := match truthyStr pid with
                   | Some given => given
                   | None => uuid env (uuidReads (base pw))
                   end in
  let r := (createProject env nodeId pid pw).1 in
  let pw' := (createProject env nodeId pid pw).2 in
  extras pw'
    = <[nodeId :=
          {| projects_owned := Some (owned nodeId pw ++ [projectId]);
             ad_revenue_opt_in := ad_revenue_opt_in (extrasOf nodeId pw) |}]>
        (extras pw) /\
  nodes (base pw') = nodes (base pw) /\
  (r = POk projectId \/ exists e, r = PThrow (Core e)) /\
  (collaboratorsResolve env -> auditAccepted env -> r = POk projectId).
Proof.
  intros Hnode Hrole. cbn zeta.
  destruct (createProject env nodeId pid pw) as [r pw'] eqn:Hrun.
  cbn [fst snd]. expose_project Hrun. rewrite Hnode in Hrun. cbn in Hrun.
  rewrite Hrole in Hrun. cbn in Hrun.
  destruct (truthyStr pid) as [given |]; cbn in Hrun;
    (destruct (hookOf onProjectCreate node) as [hk |]; cbn in Hrun);
    repeat branch Hrun; inversion Hrun; subst r pw'; cbn;
    (split; [reflexivity |]); (split; [reflexivity |]);
    (split; [first [left; reflexivity | right; eauto] |]);
    intros Hres Haa;
    try reflexivity;
    try (rewrite Haa in *; discriminate);
    repeat match goal with
           | H : chainAdapter env ?h ?c = Rejects _ |- _ =>
               destruct (Hres h c) as [? E]; rewrite E in H; discriminate
           end.
Qed.

(** X19.  [createProject] refuses a node without the [creator] role and
    then changes nothing.  For a creator it appends the project id (the
    given one when it is a non-empty string, a drawn UUID otherwise) at
    the end of the node's [projects_owned], starting the list when the
    node had none; the id is recorded before the hook, the credits and the
    audit log are tried, so it stays recorded when one of them fails. *)
Theorem createProject_records nodeId pid pw node :
  nodes (base pw) !! nodeId = Some node ->
  let projectId := match truthyStr pid with
                   | Some given => given
                   | None => uuid env (uuidReads (base pw))
                   end in
  let r := (createProject env nodeId pid pw).1 in
  let pw' := (createProject env nodeId pid pw).2 in
  (includes "creator" (roles node) = false ->
   r = PThrow NotAuthorizedToCreateProjects /\ pw' = pw) /\
  (includes "creator" (roles node) = true ->
   owned nodeId pw' = owned nodeId pw ++ [projectId] /\
   ad_revenue_opt_in (extrasOf nodeId pw')
     = ad_revenue_opt_in (extrasOf nodeId pw) /\
   (forall other, other <> nodeId ->
      extras pw' !! other = extras pw !! other) /\
   nodes (base pw') = nodes (base pw) /\
   (r = POk projectId \/ exists e, r = PThrow (Core e)) /\
   (collaboratorsResolve env -> auditAccepted env -> r = POk projectId)).
Proof.
  intro Hnode. cbn zeta. split.
  - intro Hrole. unfold createProject, pbind, lift, getNode, pthrow.
    rewrite Hnode. cbn. rewrite Hrole. cbn. destruct pw; split; reflexivity.
  - intro Hrole.
    destruct (createProject_store nodeId pid pw node Hnode Hrole)
      as (Hx & Hn & Hr & Hok).
    cbn zeta in Hx, Hn, Hr, Hok.
    unfold owned at 1. unfold extrasOf at 1 2. rewrite Hx, lookup_insert_eq.
    cbn. split; [reflexivity |]. split; [reflexivity |].
    split; [intros other Hne; apply lookup_insert_ne; congruence |].
    split; [exact Hn |]. split; [exact Hr | exact Hok].
Qed.

(** X20.  Project ids accumulate in call order and are never
    de-duplicated: after [createProject] calls for the non-empty ids
    [ids], a creator's [projects_owned] is the old list followed by [ids],
    repeats included, whatever the collaborators answer. *)
Theorem createProjects_accumulate nodeId (ids : list string) : forall pw node,
  nodes (base pw) !! nodeId = Some node ->
  includes "creator" (roles node) = true ->
  Forall (fun i => i <> "") ids ->
  owned nodeId (createProjects env nodeId (map Some ids) pw)
    = owned nodeId pw ++ ids.
Proof.
  induction ids as [| i ids IH]; intros pw node Hnode Hrole Hids.
  - cbn. rewrite app_nil_r. reflexivity.
  - cbn [map createProjects].
    inversion Hids as [| ? ? Hi Hrest]; subst.
    destruct (createProject_store nodeId (Some i) pw node Hnode Hrole)
      as (Hx & Hn & _).
    cbn zeta in Hx, Hn.
    assert (Htruthy : truthyStr (Some i) = Some i).
    { unfold truthyStr. apply String.eqb_neq in Hi. rewrite Hi. reflexivity. }
    rewrite Htruthy in Hx.
    rewrite (IH _ node); [| rewrite Hn; exact Hnode | exact Hrole | exact Hrest].
    unfold owned at 1. unfold extrasOf at 1. rewrite Hx, lookup_insert_eq.
    cbn. rewrite <- app_assoc. reflexivity.
Qed.

(** X21.  [toggleAdRevenue] does not toggle: for any registered node,
    whatever its roles, it stores the value it is given, so repeating a
    call changes nothing further; [projects_owned] and the node itself
    are left alone.  The flag is written before the audit log is tried. *)
Theorem toggleAdRevenue_stores nodeId optIn pw node :
  nodes (base pw) !! nodeId = Some node ->
  let r := (toggleAdRevenue env nodeId optIn pw).1 in
  let pw' := (toggleAdRevenue env nodeId optIn pw).2 in
  ad_revenue_opt_in (extrasOf nodeId pw') = optIn /\
  owned nodeId pw' = owned nodeId pw /\
  nodes (base pw') = nodes (base pw) /\
  extras (toggleAdRevenue env nodeId optIn pw').2 = extras pw' /\
  (r = POk optIn \/ r = PThrow (Core ValidationFailed)) /\
  (auditAccepted env -> r = POk optIn).
Proof.
  intro Hnode. cbn zeta.
  assert (Hstep : forall pw0,
    nodes (base pw0) !! nodeId = Some node ->
    extras (toggleAdRevenue env nodeId optIn pw0).2
      = <[nodeId := {| projects_owned := projects_owned (extrasOf nodeId pw0);
                       ad_revenue_opt_in := optIn |}]> (extras pw0) /\
    nodes (base (toggleAdRevenue env nodeId optIn pw0).2) = nodes (base pw0) /\
    ((toggleAdRevenue env nodeId optIn pw0).1 = POk optIn \/
     (toggleAdRevenue env nodeId optIn pw0).1 = PThrow (Core ValidationFailed)) /\
    (auditAccepted env -> (toggleAdRevenue env nodeId optIn pw0).1 = POk optIn)).
  { intros pw0 Hn0.
    destruct (toggleAdRevenue env nodeId optIn pw0) as [r0 pw1] eqn:Hrun.
    cbn [fst snd]. expose_project Hrun. rewrite Hn0 in Hrun. cbn in Hrun.
    repeat branch Hrun; inversion Hrun; subst r0 pw1; cbn;
      (split; [reflexivity |]); (split; [reflexivity |]);
      (split; [auto |]); intro Haa;
      try reflexivity; rewrite Haa in *; discriminate. }
  destruct (Hstep pw Hnode) as (Hx & Hn & Hr & Hok).
  assert (Hnode' : nodes (base (toggleAdRevenue env nodeId optIn pw).2)
                     !! nodeId = Some node) by (rewrite Hn; exact Hnode).
  destruct (Hstep _ Hnode') as (Hx2 & _).
  split; [| split; [| split; [exact Hn | split; [| split; assumption]]]].
  - unfold extrasOf. rewrite Hx, lookup_insert_eq. reflexivity.
  - unfold owned, extrasOf at 1. rewrite Hx, lookup_insert_eq. reflexivity.
  - rewrite Hx2. unfold extrasOf at 1. rewrite Hx, lookup_insert_eq. cbn.
    apply insert_insert_eq.
Qed.

End ProjectClaims.

(** ** Scenarios for createProject and toggleAdRevenue *)

Lemma projectWorld_node :
  nodes (Projects.base projectWorld) !! "node-1" = Some (demoNode 3 50 None).
Proof. vm_compute. reflexivity. Qed.

Lemma createProject_records_witness :
  (Projects.createProject steadyEnv "node-2" (Some "proj-1") voterOnlyWorld).1
    = Projects.PThrow Projects.NotAuthorizedToCreateProjects /\
  Projects.owned "node-1"
    (Projects.createProject steadyEnv "node-1" (Some "proj-1") projectWorld).2
    = ["proj-1"] /\
  (Projects.createProject steadyEnv "node-1" (Some "proj-1") projectWorld).1
    = Projects.POk "proj-1".
Proof.
  split; [| split].
  - destruct (createProject_records steadyEnv "node-2" (Some "proj-1")
                voterOnlyWorld (customNode passthrough None))
      as [Hrefused _].
    + apply customWorld_node.
    + apply Hrefused. reflexivity.
  - destruct (createProject_records steadyEnv "node-1" (Some "proj-1")
                projectWorld (demoNode 3 50 None) projectWorld_node)
      as [_ Hcreator].
    destruct Hcreator as (Howned & _); [reflexivity |].
    exact Howned.
  - destruct (createProject_records steadyEnv "node-1" (Some "proj-1")
                projectWorld (demoNode 3 50 None) projectWorld_node)
      as [_ Hcreator].
    destruct Hcreator as (_ & _ & _ & _ & _ & Hok); [reflexivity |].
    apply Hok; [apply steadyEnv_resolves | apply permissive_audit].
Defined.

Lemma createProjects_accumulate_witness :
  Projects.owned "node-1"
    (Projects.createProjects hookFailingEnv "node-1"
       (map Some ["a"; "b"; "a"]) projectWorld)
  = ["a"; "b"; "a"].
Proof.
  apply (createProjects_accumulate hookFailingEnv "node-1" ["a"; "b"; "a"]
           projectWorld (demoNode 3 50 None) projectWorld_node).
  - reflexivity.
  - repeat constructor; discriminate.
Defined.

Lemma toggleAdRevenue_stores_witness :
  Projects.ad_revenue_opt_in
    (Projects.extrasOf "node-2"
       (Projects.toggleAdRevenue steadyEnv "node-2" (VBool true)
          voterOnlyWorld).2) = VBool true /\
  (Projects.toggleAdRevenue steadyEnv "node-2" (VBool true) voterOnlyWorld).1
    = Projects.POk (VBool true).
Proof.
  destruct (toggleAdRevenue_stores steadyEnv "node-2" (VBool true)
              voterOnlyWorld (customNode passthrough None))
    as (Hflag & _ & _ & _ & _ & Hok).
  - apply customWorld_node.
  - split; [exact Hflag |]. apply Hok. apply permissive_audit.
Defined.

(** ** The dating controller *)

Section DatingMatches.

Import Dating.

Variable env : DEnv.

Ltac dexpose H :=
  unfold createProfile, verifyProfile, createMatch, updateMatchStatus,
    createInteraction, getPlatform, runHook, call, stamp, instant, log,
    lift, dbind, dret, dthrow, put_platform, with_core, advanceClock in H;
  unfold logComplianceEvent, now, randomUUID, bind, modify, ret, throw in H;
  cbn in H.

Ltac dbranch H :=
  match type of H with
  | context [datingAdapter ?e ?h ?c] =>
      let E := fresh "Hout" in
      destruct (datingAdapter e h c) eqn:E; cbn in H
  | context [validateExchange ?e ?l] =>
      let E := fresh "Hval" in destruct (validateExchange e l) eqn:E; cbn in H
  end.

(** Discharge the case of a rejection or a failed validation under the
    assumption that the collaborators oblige. *)
Ltac obliging Hres Haa :=
  try reflexivity;
  try (rewrite Haa in *; discriminate);
  repeat match goal with
         | H : datingAdapter env ?h ?c = Rejects _ |- _ =>
             destruct (Hres h c) as [? E]; rewrite E in H; discriminate
         end.

Lemma createMatch_store platformId who1 who2 score dw p x y :
  platforms dw !! platformId = Some p ->
  verifiedProfile who1 p = Some x ->
  verifiedProfile who2 p = Some y ->
  let m := newMatch env who1 who2 score dw in
  let r := (createMatch env platformId who1 who2 score dw).1 in
  let dw' := (createMatch env platformId who1 who2 score dw).2 in
  platforms dw'
    = <[platformId := set_matches (matches (platform p) ++ [m]) p]>
        (platforms dw) /\
  (r = DOk (match_id m) \/ exists e, r = DThrow e) /\
  (adapterResolves env -> auditAccepted (coreEnv env) ->
   r = DOk (match_id m)).
Proof.
  intros Hp H1 H2. cbn zeta.
  destruct (createMatch env platformId who1 who2 score dw) as [r dw'] eqn:Hrun.
  cbn [fst snd]. dexpose Hrun. rewrite Hp in Hrun. cbn in Hrun.
  rewrite H1, H2 in Hrun. cbn in Hrun.
  destruct (hook onMatch p) as [hk |]; cbn in Hrun;
    repeat dbranch Hrun; inversion Hrun; subst r dw'; cbn;
    (split; [reflexivity |]);
    (split; [first [left; reflexivity | right; eauto] |]);
    intros Hres Haa; obliging Hres Haa.
Qed.

(** X22.  [createMatch] needs a verified profile for each of the two
    agents; otherwise it throws and changes nothing.  When both exist it
    appends a pending match between them whose compatibility score is the
    given one clamped to [0, 100] and whose expiry is seven days after the
    clock reading; the match is in the store before the hook, the karma
    payments and the registration are tried.  Nothing requires the two
    agents to differ. *)
Theorem createMatch_records platformId who1 who2 score dw p :
  platforms dw !! platformId = Some p ->
  let r := (createMatch env platformId who1 who2 score dw).1 in
  let dw' := (createMatch env platformId who1 who2 score dw).2 in
  (verifiedProfile who1 p = None \/ verifiedProfile who2 p = None ->
   r = DThrow ProfilesMissingOrUnverified /\ dw' = dw) /\
  (is_Some (verifiedProfile who1 p) -> is_Some (verifiedProfile who2 p) ->
   exists m,
     matchesOf platformId dw' = matchesOf platformId dw ++ [m] /\
     profilesOf platformId dw' = profilesOf platformId dw /\
     agent1 m = who1 /\ agent2 m = who2 /\ match_status m = "pending" /\
     0 <= compatibilityScore m <= 100 /\
     (0 <= score <= 100 -> compatibilityScore m = score) /\
     (score < 0 -> compatibilityScore m = 0) /\
     (100 < score -> compatibilityScore m = 100) /\
     expiry m
       = Some (clockMs env (S (dateReads (core dw))) + 604800000) /\
     (r = DOk (match_id m) \/ exists e, r = DThrow e) /\
     (adapterResolves env -> auditAccepted (coreEnv env) ->
      r = DOk (match_id m))).
Proof.
  intro Hp. cbn zeta. split.
  - intro Hmissing. unfold createMatch, dbind, getPlatform, dthrow.
    rewrite Hp.
    destruct Hmissing as [H | H]; rewrite H;
      [| destruct (verifiedProfile who1 p)]; split; reflexivity.
  - intros [x H1] [y H2].
    destruct (createMatch_store platformId who1 who2 score dw p x y Hp H1 H2)
      as (Hstore & Hr & Hok).
    cbn zeta in Hstore, Hr, Hok.
    exists (newMatch env who1 who2 score dw).
    unfold matchesOf, profilesOf. rewrite Hstore, lookup_insert_eq, Hp. cbn.
    repeat split; try reflexivity; try assumption; lia.
Qed.

Lemma updateMatchStatus_store platformId matchId who st dw p i m :
  platforms dw !! platformId = Some p ->
  list_find (fun m => match_id m = matchId) (matches (platform p))
    = Some (i, m) ->
  isParticipant who m = true ->
  includes st ["accepted"; "rejected"] = true ->
  let m' := restamp st (dateISO (coreEnv env) (dateReads (core dw))) m in
  let r := (updateMatchStatus env platformId matchId who st dw).1 in
  let dw' := (updateMatchStatus env platformId matchId who st dw).2 in
  platforms dw'
    = <[platformId := set_matches (<[i := m']> (matches (platform p))) p]>
        (platforms dw) /\
  (r = DOk st \/ exists e, r = DThrow e /\ e <> MatchNotFoundOrUnauthorized
                           /\ e <> InvalidStatus) /\
  (adapterResolves env -> auditAccepted (coreEnv env) -> r = DOk st).
Proof.
  intros Hp Hfind Hpart Hst. cbn zeta.
  destruct (updateMatchStatus env platformId matchId who st dw)
    as [r dw'] eqn:Hrun.
  cbn [fst snd]. dexpose Hrun. rewrite Hp in Hrun. cbn in Hrun.
  rewrite Hfind in Hrun. cbn in Hrun. rewrite Hpart in Hrun. cbn in Hrun.
  unfold includes in Hst. cbn in Hst. rewrite Hst in Hrun. cbn in Hrun.
  destruct (String.eqb st "accepted"); cbn in Hrun;
    repeat dbranch Hrun; inversion Hrun; subst r dw'; cbn;
    (split; [reflexivity |]);
    (split; [first [left; reflexivity
                   | right; eexists; repeat split; discriminate] |]);
    intros Hres Haa; obliging Hres Haa.
Qed.

(** X23.  [updateMatchStatus] changes a match only for one of its two
    agents and only to [accepted] or [rejected]; a stranger, an unknown
    match id or any other status throws and changes nothing.  When it
    goes through, the match found first under that id takes the new status
    whatever its status was (a rejected or expired match can be accepted),
    keeping its id, agents, score and expiry; the other matches are
    untouched. *)
Theorem updateMatchStatus_gate platformId matchId who st dw p :
  platforms dw !! platformId = Some p ->
  let run := updateMatchStatus env platformId matchId who st dw in
  match list_find (fun m => match_id m = matchId) (matches (platform p)) with
  | None => run = (DThrow MatchNotFoundOrUnauthorized, dw)
  | Some (i, m) =>
      (agent1 m <> who -> agent2 m <> who ->
       run = (DThrow MatchNotFoundOrUnauthorized, dw)) /\
      (agent1 m = who \/ agent2 m = who ->
       st <> "accepted" -> st <> "rejected" ->
       run = (DThrow InvalidStatus, dw)) /\
      (agent1 m = who \/ agent2 m = who ->
       st = "accepted" \/ st = "rejected" ->
       exists m',
         matchesOf platformId run.2 !! i = Some m' /\
         match_status m' = st /\
         match_id m' = match_id m /\ agent1 m' = agent1 m /\
         agent2 m' = agent2 m /\
         compatibilityScore m' = compatibilityScore m /\
         expiry m' = expiry m /\
         length (matchesOf platformId run.2) = length (matches (platform p)) /\
         (forall j, j <> i ->
            matchesOf platformId run.2 !! j = matches (platform p) !! j) /\
         (adapterResolves env -> auditAccepted (coreEnv env) ->
          run.1 = DOk st))
  end.
Proof.
  intro Hp. cbn zeta.
  destruct (list_find (fun m => match_id m = matchId) (matches (platform p)))
    as [[i m] |] eqn:Hfind.
  - assert (Hpart : isParticipant who m = true <->
                    (agent1 m = who \/ agent2 m = who)).
    { unfold isParticipant. rewrite orb_true_iff, !String.eqb_eq.
      reflexivity. }
    split; [| split].
    + intros H1 H2. unfold updateMatchStatus, dbind, getPlatform, dthrow.
      rewrite Hp, Hfind.
      destruct (isParticipant who m) eqn:E; [| reflexivity].
      destruct Hpart as [Hyes _]. destruct (Hyes eq_refl); contradiction.
    + intros Hwho Ha Hr. apply Hpart in Hwho.
      unfold updateMatchStatus, dbind, getPlatform, dthrow.
      rewrite Hp, Hfind, Hwho. cbn.
      apply String.eqb_neq in Ha, Hr. rewrite Ha, Hr. reflexivity.
    + intros Hwho Hst. apply Hpart in Hwho.
      assert (Hinc : includes st ["accepted"; "rejected"] = true).
      { unfold includes. cbn.
        destruct Hst as [-> | ->]; cbn; reflexivity. }
      destruct (updateMatchStatus_store platformId matchId who st dw p i m
                  Hp Hfind Hwho Hinc) as (Hstore & _ & Hok).
      cbn zeta in Hstore, Hok.
      apply list_find_Some in Hfind. destruct Hfind as (Hl & _ & _).
      assert (Hlen : (i < length (matches (platform p)))%nat)
        by (eapply lookup_lt_Some; eassumption).
      eexists. unfold matchesOf. rewrite Hstore, lookup_insert_eq. cbn.
      split; [apply list_lookup_insert_eq; exact Hlen |].
      cbn. repeat split; try reflexivity.
      * apply length_insert.
      * intros j Hj. apply list_lookup_insert_ne. congruence.
      * exact Hok.
  - unfold updateMatchStatus, dbind, getPlatform, dthrow.
    rewrite Hp, Hfind. reflexivity.
Qed.

Lemma acceptedBetween_sym a b m :
  acceptedBetween a b m = acceptedBetween b a m.
Proof.
  unfold acceptedBetween. f_equal. apply orb_comm.
Qed.

Lemma existsb_same {A} (f g : A -> bool) (l : list A) :
  (forall x, f x = g x) -> existsb f l = existsb g l.
Proof.
  intro H. induction l as [| x l IH]; cbn; [reflexivity |].
  rewrite H, IH. reflexivity.
Qed.

Lemma createInteraction_store platformId data dw p :
  platforms dw !! platformId = Some p ->
  validateInteraction env data = true ->
  existsb (acceptedBetween (id_agent1 data) (id_agent2 data))
    (matches (platform p)) = true ->
  let r := (createInteraction env platformId data dw).1 in
  let dw' := (createInteraction env platformId data dw).2 in
  exists i,
    platforms dw'
      = <[platformId := set_interactions (interactions (platform p) ++ [i]) p]>
          (platforms dw) /\
    int_agent1 i = id_agent1 data /\ int_agent2 i = id_agent2 data /\
    int_type i = id_type data /\
    int_id i = match truthyStr (id_id data) with
               | Some given => given
               | None => uuid (coreEnv env) (uuidReads (core dw))
               end /\
    (r = DOk (int_id i) \/ exists e, r = DThrow e /\ e <> NoAcceptedMatch) /\
    (adapterResolves env -> auditAccepted (coreEnv env) -> r = DOk (int_id i)).
Proof.
  intros Hp Hvalid Hgate. cbn zeta.
  destruct (createInteraction env platformId data dw) as [r dw'] eqn:Hrun.
  cbn [fst snd]. dexpose Hrun. rewrite Hp in Hrun. cbn in Hrun.
  rewrite Hvalid in Hrun. cbn in Hrun. rewrite Hgate in Hrun. cbn in Hrun.
  destruct (truthyStr (id_id data)) as [given |]; cbn in Hrun;
    (destruct (hook onInteract p) as [hk |]; cbn in Hrun);
    repeat dbranch Hrun; inversion Hrun; subst r dw'; cbn;
    eexists; (split; [reflexivity |]); cbn;
    do 4 (split; [reflexivity |]);
    (split; [first [left; reflexivity
                   | right; eexists; split; [reflexivity | discriminate]] |]);
    intros Hres Haa; obliging Hres Haa.
Qed.

(** X24.  [createInteraction] is gated by an accepted match between the
    two agents, and the gate does not care which of them is [agent1]:
    without such a match the call throws 'No accepted match found' and
    changes nothing, for the request and for the request with the agents
    exchanged alike; with one, the interaction is appended with the agents
    as given and the matches are left alone. *)
Theorem createInteraction_gate platformId data dw p :
  platforms dw !! platformId = Some p ->
  validateInteraction env data = true ->
  validateInteraction env (swapAgents data) = true ->
  let open := existsb (acceptedBetween (id_agent1 data) (id_agent2 data))
                (matches (platform p)) in
  let run := createInteraction env platformId data dw in
  let back := createInteraction env platformId (swapAgents data) dw in
  (open = false ->
   run = (DThrow NoAcceptedMatch, dw) /\
   back = (DThrow NoAcceptedMatch, dw)) /\
  (open = true ->
   run.1 <> DThrow NoAcceptedMatch /\ back.1 <> DThrow NoAcceptedMatch /\
   matchesOf platformId run.2 = matches (platform p) /\
   exists i,
     interactionsOf platformId run.2 = interactions (platform p) ++ [i] /\
     int_agent1 i = id_agent1 data /\ int_agent2 i = id_agent2 data /\
     (adapterResolves env -> auditAccepted (coreEnv env) ->
      run.1 = DOk (int_id i))).
Proof.
  intros Hp Hvalid Hvalid'. cbn zeta.
  assert (Hsym :
    existsb (acceptedBetween (id_agent1 (swapAgents data))
               (id_agent2 (swapAgents data))) (matches (platform p))
    = existsb (acceptedBetween (id_agent1 data) (id_agent2 data))
        (matches (platform p))).
  { cbn. apply existsb_same. intro m. apply acceptedBetween_sym. }
  split.
  - intro Hclosed.
    unfold createInteraction, dbind, getPlatform, dthrow. rewrite Hp.
    rewrite Hvalid, Hvalid'. cbn [negb].
    rewrite Hsym, Hclosed. split; reflexivity.
  - intro Hopen.
    destruct (createInteraction_store platformId data dw p Hp Hvalid Hopen)
      as (i & Hstore & Ha1 & Ha2 & _ & _ & Hr & Hok).
    rewrite <- Hsym in Hopen.
    destruct (createInteraction_store platformId (swapAgents data) dw p Hp
                Hvalid' Hopen) as (i' & _ & _ & _ & _ & _ & Hr' & _).
    split; [| split; [| split]].
    + destruct Hr as [-> | (e & -> & He)]; [discriminate | congruence].
    + destruct Hr' as [-> | (e & -> & He)]; [discriminate | congruence].
    + unfold matchesOf. rewrite Hstore, lookup_insert_eq. reflexivity.
    + exists i. unfold interactionsOf. rewrite Hstore, lookup_insert_eq.
      cbn. repeat split; assumption.
Qed.

(** X25.  Accepting opens the door.  Once either agent of a match has
    called [updateMatchStatus] with [accepted], [createInteraction]
    between the two agents, in either order, is no longer refused for want
    of an accepted match, even when the adapter or the audit log failed
    during the acceptance (the status is written before they are
    tried). *)
Theorem accepted_match_opens_interaction platformId matchId who dw p i m data :
  platforms dw !! platformId = Some p ->
  list_find (fun m => match_id m = matchId) (matches (platform p))
    = Some (i, m) ->
  agent1 m = who \/ agent2 m = who ->
  (id_agent1 data = agent1 m /\ id_agent2 data = agent2 m) \/
  (id_agent1 data = agent2 m /\ id_agent2 data = agent1 m) ->
  validateInteraction env data = true ->
  let dw1 := (updateMatchStatus env platformId matchId who "accepted" dw).2 in
  (createInteraction env platformId data dw1).1 <> DThrow NoAcceptedMatch /\
  length (interactionsOf platformId
            (createInteraction env platformId data dw1).2)
    = S (length (interactions (platform p))).
Proof.
  intros Hp Hfind Hwho Hpair Hvalid. cbn zeta.
  assert (Hpart : isParticipant who m = true).
  { unfold isParticipant. rewrite orb_true_iff, !String.eqb_eq. exact Hwho. }
  destruct (updateMatchStatus_store platformId matchId who "accepted" dw p i m
              Hp Hfind Hpart eq_refl) as (Hstore & _).
  cbn zeta in Hstore.
  set (dw1 := (updateMatchStatus env platformId matchId who "accepted" dw).2)
    in *.
  set (m' := restamp "accepted"
               (dateISO (coreEnv env) (dateReads (core dw))) m) in *.
  set (p1 := set_matches (<[i := m']> (matches (platform p))) p) in *.
  assert (Hp1 : platforms dw1 !! platformId = Some p1)
    by (rewrite Hstore; apply lookup_insert_eq).
  assert (Hopen : existsb (acceptedBetween (id_agent1 data) (id_agent2 data))
                    (matches (platform p1)) = true).
  { apply existsb_exists. exists m'. split.
    - apply list_elem_of_In. cbn. apply list_elem_of_lookup. exists i.
      apply list_lookup_insert_eq.
      apply list_find_Some in Hfind. destruct Hfind as (Hl & _).
      eapply lookup_lt_Some; eassumption.
    - unfold acceptedBetween. cbn.
      destruct Hpair as [[-> ->] | [-> ->]];
        rewrite !String.eqb_refl; cbn; [reflexivity |].
      rewrite orb_true_r. reflexivity. }
  destruct (createInteraction_store platformId data dw1 p1 Hp1 Hvalid Hopen)
    as (x & Hstore2 & _ & _ & _ & _ & Hr & _).
  split.
  - destruct Hr as [-> | (e & -> & He)]; [discriminate | congruence].
  - unfold interactionsOf. rewrite Hstore2, lookup_insert_eq. cbn.
    rewrite length_app. cbn. lia.
Qed.

End DatingMatches.

Section DatingProfiles.

Import Dating.

Variable env : DEnv.

Ltac dexpose H :=
  unfold createProfile, verifyProfile, createMatch, updateMatchStatus,
    createInteraction, getPlatform, runHook, call, stamp, instant, log,
    lift, dbind, dret, dthrow, put_platform, with_core, advanceClock in H;
  unfold logComplianceEvent, now, randomUUID, bind, modify, ret, throw in H;
  cbn in H.

Ltac dbranch H :=
  match type of H with
  | context [datingAdapter ?e ?h ?c] =>
      let E := fresh "Hout" in
      destruct (datingAdapter e h c) eqn:E; cbn in H
  | context [validateExchange ?e ?l] =>
      let E := fresh "Hval" in destruct (validateExchange e l) eqn:E; cbn in H
  end.

(** X26.  [verifyProfile] runs the [onVerify] hook before it touches the
    profile: when the hook rejects, the call fails and the profile is left
    as it was.  When there is no hook, or the hook resolves, the profile
    found first under that id becomes verified (before the adapter and
    the audit log are tried), keeps its id and agent, and its agent can
    from then on be matched; other profiles are untouched.  An unknown
    profile id throws 'Profile not found' and changes nothing. *)
Theorem verifyProfile_hook_first platformId profileId dw p :
  platforms dw !! platformId = Some p ->
  let run := verifyProfile env platformId profileId dw in
  match list_find (fun q => prof_id q = profileId) (profiles (platform p)) with
  | None => run = (DThrow ProfileNotFound, dw)
  | Some (i, q) =>
      (forall hk msg,
         hook onVerify p = Some hk ->
         datingAdapter env (calls dw)
           (RunHook hk (verifyHookArg platformId profileId)) = Rejects msg ->
         run.1 = DThrow (Rejected msg) /\ platforms run.2 = platforms dw) /\
      (hook onVerify p = None \/
       (exists hk v,
          hook onVerify p = Some hk /\
          datingAdapter env (calls dw)
            (RunHook hk (verifyHookArg platformId profileId)) = Resolves v) ->
       exists p' q',
         platforms run.2 !! platformId = Some p' /\
         profiles (platform p') !! i = Some q' /\
         verified q' = true /\ prof_id q' = prof_id q /\ agent q' = agent q /\
         is_Some (verifiedProfile (agent q) p') /\
         matches (platform p') = matches (platform p) /\
         (forall j, j <> i ->
            profiles (platform p') !! j = profiles (platform p) !! j))
  end.
Proof.
  intro Hp. cbn zeta.
  destruct (list_find (fun q => prof_id q = profileId) (profiles (platform p)))
    as [[i q] |] eqn:Hfind.
  - assert (Hlen : (i < length (profiles (platform p)))%nat).
    { apply list_find_Some in Hfind. destruct Hfind as (Hl & _).
      eapply lookup_lt_Some; eassumption. }
    destruct (verifyProfile env platformId profileId dw) as [r dw'] eqn:Hrun.
    cbn [fst snd]. dexpose Hrun. rewrite Hp in Hrun. cbn in Hrun.
    rewrite Hfind in Hrun. cbn in Hrun. unfold verifyHookArg. split.
    + intros hk msg Hhk Hrej. rewrite Hhk in Hrun. cbn in Hrun.
      rewrite Hrej in Hrun. cbn in Hrun. inversion Hrun; subst.
      split; reflexivity.
    + intros Hgo.
      assert (Hstore :
        platforms dw'
        = <[platformId :=
              set_profiles
                (<[i := mark_verified
                          (dateISO (coreEnv env) (dateReads (core dw))) q]>
                   (profiles (platform p))) p]> (platforms dw)).
      { destruct Hgo as [Hnone | (hk & v & Hhk & Hres)].
        - rewrite Hnone in Hrun. cbn in Hrun.
          repeat dbranch Hrun; inversion Hrun; reflexivity.
        - rewrite Hhk in Hrun. cbn in Hrun. rewrite Hres in Hrun.
          cbn in Hrun.
          repeat dbranch Hrun; inversion Hrun; reflexivity. }
      eexists. eexists. rewrite Hstore, lookup_insert_eq.
      split; [reflexivity |]. cbn.
      split; [apply list_lookup_insert_eq; exact Hlen |]. cbn.
      do 3 (split; [reflexivity |]).
      split.
      { unfold verifiedProfile. cbn. apply fmap_is_Some.
        eapply list_find_elem_of.
        - apply list_elem_of_lookup. exists i.
          apply list_lookup_insert_eq. exact Hlen.
        - cbn. split; reflexivity. }
      split; [reflexivity |].
      intros j Hj. apply list_lookup_insert_ne. congruence.
  - unfold verifyProfile, dbind, getPlatform, dthrow. rewrite Hp, Hfind.
    reflexivity.
Qed.

(** X27.  [createProfile] is refused, leaving the store as it was, when
    the platform does not allow user profiles, when the schema rejects the
    data, or when the soulbound check resolves to a falsy value.
    Otherwise the profile is appended to the platform's profiles, under
    the given id when that is a non-empty string and a drawn UUID
    otherwise; it carries the [verified] flag of the submitted data, so a
    profile submitted as verified can be matched without [verifyProfile]
    ever being called. *)
Theorem createProfile_gate platformId data dw p :
  platforms dw !! platformId = Some p ->
  let run := createProfile env platformId data dw in
  let check := datingAdapter env (calls dw)
                 (VerifySoulbound (pd_agent data) (pd_soulboundId data)) in
  (allowUserProfiles (platform p) = false ->
   run = (DThrow UserProfilesNotAllowed, dw)) /\
  (allowUserProfiles (platform p) = true ->
   validateProfile env data = false ->
   run = (DThrow DatingValidationFailed, dw)) /\
  (allowUserProfiles (platform p) = true ->
   validateProfile env data = true ->
   forall v, check = Resolves v ->
   if truthy v then
     exists q,
       profilesOf platformId run.2 = profiles (platform p) ++ [q] /\
       prof_id q = match truthyStr (pd_id data) with
                   | Some given => given
                   | None => uuid (coreEnv env) (uuidReads (core dw))
                   end /\
       agent q = pd_agent data /\ verified q = pd_verified data /\
       matchesOf platformId run.2 = matches (platform p) /\
       (pd_verified data = true ->
        forall p', platforms run.2 !! platformId = Some p' ->
                   is_Some (verifiedProfile (pd_agent data) p'))
   else
     run.1 = DThrow (InvalidSoulboundAgent (pd_agent data)) /\
     platforms run.2 = platforms dw).
Proof.
  intro Hp. cbn zeta. split; [| split].
  - intro Hno. unfold createProfile, dbind, getPlatform, dthrow.
    rewrite Hp, Hno. reflexivity.
  - intros Hyes Hbad. unfold createProfile, dbind, getPlatform, dthrow.
    rewrite Hp, Hyes, Hbad. reflexivity.
  - intros Hyes Hgood v Hcheck.
    destruct (createProfile env platformId data dw) as [r dw'] eqn:Hrun.
    cbn [fst snd]. dexpose Hrun. rewrite Hp in Hrun. cbn in Hrun.
    rewrite Hyes, Hgood in Hrun. cbn in Hrun. rewrite Hcheck in Hrun.
    cbn in Hrun.
    destruct (truthy v); cbn in Hrun.
    + assert (Hstore : exists q,
        platforms dw'
        = <[platformId := set_profiles (profiles (platform p) ++ [q]) p]>
            (platforms dw) /\
        prof_id q = match truthyStr (pd_id data) with
                    | Some given => given
                    | None => uuid (coreEnv env) (uuidReads (core dw))
                    end /\
        agent q = pd_agent data /\ verified q = pd_verified data).
      { destruct (truthyStr (pd_id data)) as [given |]; cbn in Hrun;
          repeat dbranch Hrun; inversion Hrun;
          eexists; (split; [reflexivity |]); repeat split. }
      destruct Hstore as (q & Hstore & Hid & Hagent & Hver).
      exists q. unfold profilesOf, matchesOf.
      rewrite Hstore, lookup_insert_eq. cbn.
      split; [reflexivity |]. split; [exact Hid |].
      split; [exact Hagent |]. split; [exact Hver |].
      split; [reflexivity |].
      intros Hpre p' Hp'. inversion Hp'; subst p'.
      unfold verifiedProfile. cbn. apply fmap_is_Some.
      eapply (list_find_elem_of _ _ q).
      * apply elem_of_app. right. apply list_elem_of_singleton.
        reflexivity.
      * split; [exact Hagent | rewrite Hver; exact Hpre].
    + inversion Hrun; subst. split; reflexivity.
Qed.

End DatingProfiles.

Section DatingExpiry.

Import Dating.

Variable env : DEnv.

(** With nothing due from position [i] on, the loop does nothing. *)
Lemma expireFrom_idle platformId t (n : nat) : forall i dw p,
  platforms dw !! platformId = Some p ->
  (forall j m, (i <= j)%nat -> matches (platform p) !! j = Some m ->
               isDue t m = false) ->
  expireFrom env platformId t i n dw = (DOk tt, dw).
Proof.
  induction n as [| n IH]; intros i dw p Hp Hidle; cbn [expireFrom];
    [reflexivity |].
  unfold dbind at 1. unfold getPlatform. rewrite Hp.
  destruct (matches (platform p) !! i) as [m |] eqn:Hm; [| reflexivity].
  rewrite (Hidle i m (le_n i) Hm). unfold dbind, dret.
  apply (IH (S i) dw p Hp). intros j mj Hj. apply Hidle. lia.
Qed.

(** With collaborators that oblige, the loop expires exactly the matches
    that are due from position [i] on. *)
Lemma expireFrom_obliging platformId t :
  adapterResolves env -> auditAccepted (coreEnv env) ->
  forall (n i : nat) dw p,
  platforms dw !! platformId = Some p ->
  (i + n)%nat = length (matches (platform p)) ->
  exists dw' p',
    expireFrom env platformId t i n dw = (DOk tt, dw') /\
    platforms dw' !! platformId = Some p' /\
    length (matches (platform p')) = length (matches (platform p)) /\
    (forall j m,
       matches (platform p) !! j = Some m ->
       exists m',
         matches (platform p') !! j = Some m' /\
         ((i <= j)%nat -> isDue t m = true ->
          match_status m' = "expired" /\ sameMatch m m') /\
         ((j < i)%nat \/ isDue t m = false -> m' = m)).
Proof.
  intros Hres Haa. induction n as [| n IH]; intros i dw p Hp Hlen.
  - exists dw, p. split; [reflexivity |]. split; [exact Hp |].
    split; [reflexivity |]. intros j m Hj. exists m.
    split; [exact Hj |]. split; [| reflexivity].
    intros Hij _. apply lookup_lt_Some in Hj. lia.
  - cbn [expireFrom]. unfold dbind at 1. unfold getPlatform. rewrite Hp.
    destruct (lookup_lt_is_Some_2 (matches (platform p)) i) as [m Hm];
      [lia |].
    rewrite Hm. destruct (isDue t m) eqn:Hdue.
    + unfold dbind, stamp, log, put_platform, call.
      unfold dbind, lift, now, with_core, logComplianceEvent, bind, modify,
        ret, dret. cbn.
      repeat match goal with
             | |- context [datingAdapter env ?h ?c] =>
                 let v := fresh "v" in
                 let E := fresh "E" in
                 destruct (Hres h c) as [v E]; rewrite E; cbn
             | |- context [validateExchange (coreEnv env) ?l] =>
                 rewrite (Haa l); cbn
             end.
      match goal with
      | |- context [expireFrom env platformId t (S i) n ?w] =>
          destruct (IH (S i) w
                      (set_matches
                         (<[i := restamp "expired"
                                   (dateISO (coreEnv env)
                                      (dateReads (core dw))) m]>
                            (matches (platform p))) p))
            as (dw' & p' & Hrun & Hp' & Hlen' & Hall)
      end.
      { cbn. apply lookup_insert_eq. }
      { cbn. rewrite length_insert. lia. }
      exists dw', p'. split; [exact Hrun |]. split; [exact Hp' |].
      cbn in Hlen'. rewrite length_insert in Hlen'.
      split; [exact Hlen' |].
      intros j mj Hj. destruct (decide (j = i)) as [-> | Hne].
      * rewrite Hm in Hj. inversion Hj; subst mj.
        destruct (Hall i (restamp "expired"
                            (dateISO (coreEnv env) (dateReads (core dw))) m))
          as (m' & Hm' & _ & Hkeep).
        { cbn. apply list_lookup_insert_eq.
          eapply lookup_lt_Some; eassumption. }
        rewrite (Hkeep (or_introl (Nat.lt_succ_diag_r i))) in Hm'.
        eexists. split; [exact Hm' |]. split.
        -- intros _ _. split; [reflexivity |]. repeat split.
        -- intros [Hlt | Hno]; [lia | congruence].
      * destruct (Hall j mj) as (m' & Hm' & Hexp & Hkeep).
        { cbn. rewrite list_lookup_insert_ne by congruence. exact Hj. }
        exists m'. split; [exact Hm' |]. split.
        -- intros Hij Hd. apply Hexp; [lia | exact Hd].
        -- intros [Hlt | Hno]; apply Hkeep; [left; lia | right; exact Hno].
    + unfold dbind at 1. unfold dret at 1.
      destruct (IH (S i) dw p Hp) as (dw' & p' & Hrun & Hp' & Hlen' & Hall);
        [lia |].
      exists dw', p'. split; [exact Hrun |]. split; [exact Hp' |].
      split; [exact Hlen' |].
      intros j mj Hj. destruct (Hall j mj Hj) as (m' & Hm' & Hexp & Hkeep).
      exists m'. split; [exact Hm' |]. split.
      * intros Hij Hd. apply Hexp; [| exact Hd].
        destruct (decide (j = i)) as [-> | Hne]; [| lia].
        rewrite Hm in Hj. inversion Hj; subst mj. congruence.
      * intros [Hlt | Hno]; apply Hkeep; [| right; exact Hno].
        destruct (decide (j = i)) as [-> | Hne]; [lia | left; lia].
Qed.

(** X28.  [checkExpiredMatches] reads the clock once and judges every
    match of the platform against that instant: a match is due when it has
    an expiry strictly before it and is not already [expired].  With
    nothing due the call changes nothing but the clock, whatever the
    collaborators would answer.  With collaborators that oblige, exactly
    the due matches become [expired], keeping id, agents, score and
    expiry, the others are untouched, and nothing is due any more at that
    instant. *)
Theorem checkExpiredMatches_marks_due platformId dw p :
  platforms dw !! platformId = Some p ->
  let t := clockMs env (dateReads (core dw)) in
  let run := checkExpiredMatches env platformId dw in
  (Forall (fun m => isDue t m = false) (matches (platform p)) ->
   run = (DOk tt, with_core (advanceClock 1 (core dw)) dw)) /\
  (adapterResolves env -> auditAccepted (coreEnv env) ->
   run.1 = DOk tt /\
   length (matchesOf platformId run.2) = length (matches (platform p)) /\
   (forall j m,
      matches (platform p) !! j = Some m ->
      exists m',
        matchesOf platformId run.2 !! j = Some m' /\
        (isDue t m = true -> match_status m' = "expired" /\ sameMatch m m') /\
        (isDue t m = false -> m' = m)) /\
   Forall (fun m' => isDue t m' = false) (matchesOf platformId run.2)).
Proof.
  intro Hp. cbn zeta. split.
  - intro Hidle. unfold checkExpiredMatches, dbind at 1 2.
    unfold getPlatform, instant. rewrite Hp.
    apply (expireFrom_idle platformId _ _ 0%nat _ p); [exact Hp |].
    intros j m _ Hj. rewrite Forall_forall in Hidle. apply Hidle.
    eapply list_elem_of_lookup_2. exact Hj.
  - intros Hres Haa.
    destruct (expireFrom_obliging platformId
                (clockMs env (dateReads (core dw))) Hres Haa
                (length (matches (platform p))) 0%nat
                (with_core (advanceClock 1 (core dw)) dw) p Hp eq_refl)
      as (dw' & p' & Hrun & Hp' & Hlen & Hall).
    assert (Heq : checkExpiredMatches env platformId dw = (DOk tt, dw')).
    { unfold checkExpiredMatches, dbind, getPlatform, instant. rewrite Hp.
      exact Hrun. }
    rewrite Heq. cbn [fst snd].
    unfold matchesOf. rewrite Hp'.
    split; [reflexivity |]. split; [exact Hlen |].
    assert (Heach : forall j m,
      matches (platform p) !! j = Some m ->
      exists m',
        matches (platform p') !! j = Some m' /\
        (isDue (clockMs env (dateReads (core dw))) m = true ->
         match_status m' = "expired" /\ sameMatch m m') /\
        (isDue (clockMs env (dateReads (core dw))) m = false -> m' = m)).
    { intros j m Hj. destruct (Hall j m Hj) as (m' & Hm' & Hexp & Hkeep).
      exists m'. split; [exact Hm' |]. split.
      - intro Hd. apply Hexp; [lia | exact Hd].
      - intro Hno. apply Hkeep. right. exact Hno. }
    split; [exact Heach |].
    apply Forall_lookup. intros j m' Hm'.
    destruct (lookup_lt_is_Some_2 (matches (platform p)) j) as [m Hm].
    { rewrite <- Hlen. eapply lookup_lt_Some. exact Hm'. }
    destruct (Heach j m Hm) as (m2 & Hm2 & Hexp & Hkeep).
    rewrite Hm' in Hm2. inversion Hm2; subst m2.
    destruct (isDue (clockMs env (dateReads (core dw))) m) eqn:Hd.
    + destruct (Hexp eq_refl) as [Hst _]. unfold isDue. rewrite Hst.
      destruct (expiry m'); [| reflexivity].
      cbn. apply andb_false_r.
    + rewrite (Hkeep eq_refl). exact Hd.
Qed.

End DatingExpiry.

Section DatingSequences.

Import Dating.

Variable env : DEnv.

Ltac dexpose H :=
  unfold createProfile, verifyProfile, createMatch, updateMatchStatus,
    createInteraction, getPlatform, runHook, call, stamp, instant, log,
    lift, dbind, dret, dthrow, put_platform, with_core, advanceClock in H;
  unfold logComplianceEvent, now, randomUUID, bind, modify, ret, throw in H;
  cbn in H.

Ltac dbranch H :=
  match type of H with
  | context [datingAdapter ?e ?h ?c] =>
      let E := fresh "Hout" in
      destruct (datingAdapter e h c) eqn:E; cbn in H
  | context [validateExchange ?e ?l] =>
      let E := fresh "Hval" in destruct (validateExchange e l) eqn:E; cbn in H
  end.

Lemma sameMatch_refl m : sameMatch m m.
Proof. unfold sameMatch. repeat split. Qed.

Lemma platformKept_refl p : platformKept p p.
Proof.
  unfold platformKept. split; [reflexivity |]. split; [| split; [| auto]].
  - intros i q Hq. exists q. repeat split; auto.
  - intros i m Hm. exists m. split; [exact Hm | apply sameMatch_refl].
Qed.

Lemma platformKept_trans p1 p2 p3 :
  platformKept p1 p2 -> platformKept p2 p3 -> platformKept p1 p3.
Proof.
  intros (I1 & P1 & M1 & S1) (I2 & P2 & M2 & S2). unfold platformKept.
  split; [etransitivity; eassumption |]. split; [| split; [| auto]].
  - intros i q Hq. destruct (P1 i q Hq) as (q2 & Hq2 & a1 & a2 & a3).
    destruct (P2 i q2 Hq2) as (q3 & Hq3 & b1 & b2 & b3).
    exists q3. split; [exact Hq3 |]. repeat split; try congruence. auto.
  - intros i m Hm. destruct (M1 i m Hm) as (m2 & Hm2 & Hs2).
    destruct (M2 i m2 Hm2) as (m3 & Hm3 & Hs3).
    exists m3. split; [exact Hm3 |].
    destruct Hs2 as (a1 & a2 & a3 & a4 & a5 & a6).
    destruct Hs3 as (b1 & b2 & b3 & b4 & b5 & b6).
    unfold sameMatch. repeat split; congruence.
Qed.

Lemma platformStep_kept p p' : platformStep p p' -> platformKept p p'.
Proof.
  intros [(q & ->) | [(i & q & st & Hq & ->) | [(m & Hm & ->)
          | [(i & m & st & stmp & Hm & ->) | (x & ->)]]]];
    unfold platformKept; cbn.
  - split; [reflexivity |]. split; [| split; [| auto]].
    + intros j qj Hj. exists qj.
      split; [apply lookup_app_l_Some; exact Hj | repeat split; auto].
    + intros j mj Hj. exists mj. split; [exact Hj | apply sameMatch_refl].
  - split; [reflexivity |]. split; [| split; [| auto]].
    + intros j qj Hj. destruct (decide (j = i)) as [-> | Hne].
      * rewrite Hq in Hj. inversion Hj; subst qj.
        exists (mark_verified st q).
        split; [apply list_lookup_insert_eq; eapply lookup_lt_Some;
                eassumption |].
        repeat split.
      * exists qj. rewrite list_lookup_insert_ne by congruence.
        split; [exact Hj | repeat split; auto].
    + intros j mj Hj. exists mj. split; [exact Hj | apply sameMatch_refl].
  - split; [reflexivity |]. split; [| split].
    + intros j qj Hj. exists qj. split; [exact Hj | repeat split; auto].
    + intros j mj Hj. exists mj.
      split; [apply lookup_app_l_Some; exact Hj | apply sameMatch_refl].
    + intro Hall. apply Forall_app. split; [exact Hall |].
      constructor; [exact Hm | constructor].
  - split; [reflexivity |]. split; [| split].
    + intros j qj Hj. exists qj. split; [exact Hj | repeat split; auto].
    + intros j mj Hj. destruct (decide (j = i)) as [-> | Hne].
      * rewrite Hm in Hj. inversion Hj; subst mj.
        exists (restamp st stmp m).
        split; [apply list_lookup_insert_eq; eapply lookup_lt_Some;
                eassumption |].
        unfold sameMatch. repeat split.
      * exists mj. rewrite list_lookup_insert_ne by congruence.
        split; [exact Hj | apply sameMatch_refl].
    + intro Hall. apply Forall_insert; [exact Hall |].
      rewrite Forall_lookup in Hall. exact (Hall i m Hm).
  - split; [apply prefix_app_r; reflexivity |]. split; [| split; [| auto]].
    + intros j qj Hj. exists qj. split; [exact Hj | repeat split; auto].
    + intros j mj Hj. exists mj. split; [exact Hj | apply sameMatch_refl].
Qed.

Lemma storeKept_refl dw : storeKept dw dw.
Proof.
  split; [auto |]. intros pid p Hp. exists p.
  split; [exact Hp | apply platformKept_refl].
Qed.

Lemma storeKept_trans d1 d2 d3 :
  storeKept d1 d2 -> storeKept d2 d3 -> storeKept d1 d3.
Proof.
  intros (N1 & S1) (N2 & S2). split; [auto |].
  intros pid p Hp. destruct (S1 pid p Hp) as (p2 & Hp2 & K2).
  destruct (S2 pid p2 Hp2) as (p3 & Hp3 & K3).
  exists p3. split; [exact Hp3 | eapply platformKept_trans; eassumption].
Qed.

Lemma storeKept_same dw dw' : platforms dw' = platforms dw -> storeKept dw dw'.
Proof.
  intro H. unfold storeKept. rewrite H. apply storeKept_refl.
Qed.

Lemma storeKept_step dw dw' pid p p' :
  platforms dw !! pid = Some p ->
  platforms dw' = <[pid := p']> (platforms dw) ->
  platformStep p p' ->
  storeKept dw dw'.
Proof.
  intros Hp Hstore Hstep. unfold storeKept. rewrite Hstore. split.
  - intros other Hnone. destruct (decide (other = pid)) as [-> | Hne].
    + rewrite Hp in Hnone. discriminate.
    + rewrite lookup_insert_ne by congruence. exact Hnone.
  - intros other q Hq. destruct (decide (other = pid)) as [-> | Hne].
    + rewrite Hp in Hq. inversion Hq; subst q. exists p'.
      rewrite lookup_insert_eq. split; [reflexivity |].
      apply platformStep_kept. exact Hstep.
    + exists q. rewrite lookup_insert_ne by congruence.
      split; [exact Hq | apply platformKept_refl].
Qed.

(** Close a case of a symbolic run: the store is as it was, or one
    platform took one step. *)
Ltac settle Hp :=
  first
    [ apply storeKept_same; reflexivity
    | eapply storeKept_step;
      [ exact Hp | cbn; reflexivity | ];
      first
        [ left; eexists; reflexivity
        | right; left; do 3 eexists; split; [| reflexivity]; eassumption
        | right; right; left; eexists; split; [| reflexivity];
          unfold scoreInRange; cbn; lia
        | right; right; right; left; do 4 eexists;
          split; [| reflexivity]; eassumption
        | right; right; right; right; eexists; reflexivity ] ].

Lemma createProfile_kept platformId data dw :
  storeKept dw (createProfile env platformId data dw).2.
Proof.
  destruct (createProfile env platformId data dw) as [r dw'] eqn:Hrun.
  cbn [snd]. dexpose Hrun.
  destruct (platforms dw !! platformId) as [p |] eqn:Hp; cbn in Hrun;
    [| inversion Hrun; apply storeKept_refl].
  destruct (allowUserProfiles (platform p)); cbn in Hrun;
    [| inversion Hrun; apply storeKept_refl].
  destruct (validateProfile env data); cbn in Hrun;
    [| inversion Hrun; apply storeKept_refl].
  dbranch Hrun; [inversion Hrun; settle Hp |].
  destruct (truthy v); cbn in Hrun; [| inversion Hrun; settle Hp].
  destruct (truthyStr (pd_id data)) as [given |]; cbn in Hrun;
    repeat dbranch Hrun; inversion Hrun; settle Hp.
Qed.

Lemma verifyProfile_kept platformId profileId dw :
  storeKept dw (verifyProfile env platformId profileId dw).2.
Proof.
  destruct (verifyProfile env platformId profileId dw) as [r dw'] eqn:Hrun.
  cbn [snd]. dexpose Hrun.
  destruct (platforms dw !! platformId) as [p |] eqn:Hp; cbn in Hrun;
    [| inversion Hrun; apply storeKept_refl].
  destruct (list_find (fun q => prof_id q = profileId) (profiles (platform p)))
    as [[i q] |] eqn:Hfind; cbn in Hrun;
    [| inversion Hrun; apply storeKept_refl].
  apply list_find_Some in Hfind. destruct Hfind as (Hq & _).
  destruct (hook onVerify p) as [hk |]; cbn in Hrun;
    repeat dbranch Hrun; inversion Hrun; settle Hp.
Qed.

Lemma createMatch_kept platformId who1 who2 score dw :
  storeKept dw (createMatch env platformId who1 who2 score dw).2.
Proof.
  destruct (createMatch env platformId who1 who2 score dw) as [r dw'] eqn:Hrun.
  cbn [snd]. dexpose Hrun.
  destruct (platforms dw !! platformId) as [p |] eqn:Hp; cbn in Hrun;
    [| inversion Hrun; apply storeKept_refl].
  destruct (verifiedProfile who1 p); cbn in Hrun;
    [| inversion Hrun; apply storeKept_refl].
  destruct (verifiedProfile who2 p); cbn in Hrun;
    [| inversion Hrun; apply storeKept_refl].
  destruct (hook onMatch p) as [hk |]; cbn in Hrun;
    repeat dbranch Hrun; inversion Hrun; settle Hp.
Qed.

Lemma updateMatchStatus_kept platformId matchId who st dw :
  storeKept dw (updateMatchStatus env platformId matchId who st dw).2.
Proof.
  destruct (updateMatchStatus env platformId matchId who st dw)
    as [r dw'] eqn:Hrun.
  cbn [snd]. dexpose Hrun.
  destruct (platforms dw !! platformId) as [p |] eqn:Hp; cbn in Hrun;
    [| inversion Hrun; apply storeKept_refl].
  destruct (list_find (fun m => match_id m = matchId) (matches (platform p)))
    as [[i m] |] eqn:Hfind; cbn in Hrun;
    [| inversion Hrun; apply storeKept_refl].
  apply list_find_Some in Hfind. destruct Hfind as (Hm & _).
  destruct (isParticipant who m); cbn in Hrun;
    [| inversion Hrun; apply storeKept_refl].
  destruct (String.eqb st "accepted"); cbn in Hrun;
    [| destruct (String.eqb st "rejected"); cbn in Hrun;
       [| inversion Hrun; apply storeKept_refl]];
    repeat dbranch Hrun; inversion Hrun; settle Hp.
Qed.

Lemma createInteraction_kept platformId data dw :
  storeKept dw (createInteraction env platformId data dw).2.
Proof.
  destruct (createInteraction env platformId data dw) as [r dw'] eqn:Hrun.
  cbn [snd]. dexpose Hrun.
  destruct (platforms dw !! platformId) as [p |] eqn:Hp; cbn in Hrun;
    [| inversion Hrun; apply storeKept_refl].
  destruct (validateInteraction env data); cbn in Hrun;
    [| inversion Hrun; apply storeKept_refl].
  destruct (existsb (acceptedBetween (id_agent1 data) (id_agent2 data))
              (matches (platform p))); cbn in Hrun;
    [| inversion Hrun; apply storeKept_refl].
  destruct (truthyStr (id_id data)) as [given |]; cbn in Hrun;
    (destruct (hook onInteract p) as [hk |]; cbn in Hrun);
    repeat dbranch Hrun; inversion Hrun; settle Hp.
Qed.

Lemma expireFrom_kept platformId t (n : nat) : forall i dw,
  storeKept dw (expireFrom env platformId t i n dw).2.
Proof.
  induction n as [| n IH]; intros i dw; cbn [expireFrom];
    [apply storeKept_refl |].
  unfold dbind at 1. unfold getPlatform.
  destruct (platforms dw !! platformId) as [p |] eqn:Hp;
    [| apply storeKept_refl].
  destruct (matches (platform p) !! i) as [m |] eqn:Hm;
    [| apply storeKept_refl].
  destruct (isDue t m).
  - unfold dbind at 1.
    match goal with
    | |- context [match ?body dw with _ => _ end] =>
        assert (Hbody : storeKept dw (body dw).2);
        [| destruct (body dw) as [[u | e] dw1]; cbn [snd] in *;
           [eapply storeKept_trans; [exact Hbody | apply IH] | exact Hbody]]
    end.
    match goal with
    | |- storeKept dw (?body dw).2 =>
        destruct (body dw) as [r dw1] eqn:Hrun
    end.
    cbn [snd]. dexpose Hrun.
    repeat dbranch Hrun; inversion Hrun; settle Hp.
  - unfold dbind at 1. unfold dret at 1. apply IH.
Qed.

Lemma checkExpiredMatches_kept platformId dw :
  storeKept dw (checkExpiredMatches env platformId dw).2.
Proof.
  unfold checkExpiredMatches, dbind, getPlatform, instant.
  destruct (platforms dw !! platformId) as [p |] eqn:Hp;
    [| apply storeKept_refl].
  eapply storeKept_trans; [| apply expireFrom_kept].
  apply storeKept_same. reflexivity.
Qed.

Lemma runCall_kept c dw : storeKept dw (runCall env c dw).
Proof.
  destruct c; cbn [runCall].
  - apply createProfile_kept.
  - apply verifyProfile_kept.
  - apply createMatch_kept.
  - apply updateMatchStatus_kept.
  - apply createInteraction_kept.
  - apply checkExpiredMatches_kept.
Qed.

Lemma runCalls_kept cs : forall dw, storeKept dw (runCalls env cs dw).
Proof.
  induction cs as [| c cs IH]; intro dw; cbn; [apply storeKept_refl |].
  eapply storeKept_trans; [apply runCall_kept | apply IH].
Qed.

(** X29.  Whatever sequence of profile creations, verifications, match
    creations, status updates, interactions and expiry sweeps is run, and
    whichever of them fail: no platform appears or disappears; every
    profile stays at its position with its id and agent, and once verified
    stays verified; every match stays at its position with its id, agents,
    score, creation time and expiry; the interactions only grow at the end;
    and when all compatibility scores of a platform were within [0, 100]
    they still are. *)
Theorem dating_calls_keep_store cs dw :
  let dw' := runCalls env cs dw in
  (forall pid, platforms dw !! pid = None -> platforms dw' !! pid = None) /\
  (forall pid p,
     platforms dw !! pid = Some p ->
     exists p',
       platforms dw' !! pid = Some p' /\
       interactions (platform p) `prefix_of` interactions (platform p') /\
       (forall i q,
          profiles (platform p) !! i = Some q ->
          exists q',
            profiles (platform p') !! i = Some q' /\
            prof_id q' = prof_id q /\ agent q' = agent q /\
            (verified q = true -> verified q' = true)) /\
       (forall i m,
          matches (platform p) !! i = Some m ->
          exists m', matches (platform p') !! i = Some m' /\ sameMatch m m') /\
       (Forall (fun m => 0 <= compatibilityScore m <= 100)
          (matches (platform p)) ->
        Forall (fun m => 0 <= compatibilityScore m <= 100)
          (matches (platform p')))).
Proof.
  exact (runCalls_kept cs dw).
Qed.

End DatingSequences.

Section ToolsBreakpoints.

Import Tools.

Variable env : TEnv.

Lemma hasBreakpoint_In line l : hasBreakpoint line l = true <-> In line l.
Proof.
  unfold hasBreakpoint. rewrite existsb_exists. split.
  - intros (x & Hx & Heq). apply Z.eqb_eq in Heq. subst x. exact Hx.
  - intro H. exists line. split; [exact H | apply Z.eqb_refl].
Qed.

Lemma addBreakpoint_store userId line tw :
  toolsData (addBreakpoint env userId line tw).2
  = if hasBreakpoint line (breakpoints (toolsData tw))
    then toolsData tw
    else set_breakpoints (breakpoints (toolsData tw) ++ [line]) (toolsData tw).
Proof.
  unfold addBreakpoint.
  destruct (hasBreakpoint line (breakpoints (toolsData tw))); cbn [negb];
    match goal with
    | |- context [validateTools env ?d] => destruct (validateTools env d)
    end; cbn [negb snd toolsData]; try reflexivity;
    match goal with
    | |- context [logComplianceEvent ?e ?a ?b ?c ?w] =>
        destruct (logComplianceEvent e a b c w) as [[x | x] w']
    end; reflexivity.
Qed.

Lemma addBreakpoint_step userId line tw :
  let d := toolsData tw in
  let d' := toolsData (addBreakpoint env userId line tw).2 in
  breakpoints d `prefix_of` breakpoints d' /\
  (NoDup (breakpoints d) -> NoDup (breakpoints d')) /\
  (forall l, In l (breakpoints d') <-> In l (breakpoints d) \/ l = line) /\
  watchVariables d' = watchVariables d /\ rest d' = rest d.
Proof.
  cbn zeta. rewrite addBreakpoint_store.
  destruct (hasBreakpoint line (breakpoints (toolsData tw))) eqn:Hhas.
  - apply hasBreakpoint_In in Hhas.
    split; [reflexivity |]. split; [auto |].
    split; [| split; reflexivity].
    intro l. split; [auto |]. intros [H | ->]; assumption.
  - assert (Hnot : ~ In line (breakpoints (toolsData tw))).
    { intro H. apply hasBreakpoint_In in H. congruence. }
    cbn. split; [apply prefix_app_r; reflexivity |]. split.
    + intro Hnd. apply NoDup_app. split; [exact Hnd |]. split.
      * intros x Hx Hx'. apply list_elem_of_singleton in Hx'. subst x.
        apply Hnot. apply list_elem_of_In. exact Hx.
      * apply NoDup_singleton.
    + split; [| split; reflexivity].
      intro l. rewrite in_app_iff. cbn. intuition congruence.
Qed.

(** X30.  The breakpoints of the code editor behave as a set kept in
    order of first insertion.  After any series of [addBreakpoint]
    requests, whatever each was answered: the breakpoints that were there
    are still there, in front and in order; exactly the requested lines
    have been added; a list without duplicates stays without duplicates;
    and the watch variables and the rest of the tools data are untouched.
    A request the schema refuses is answered 400 and leaves its
    breakpoint in the list all the same. *)
Theorem addBreakpoint_keeps_set reqs tw :
  let d := toolsData tw in
  let d' := toolsData (addBreakpoints env reqs tw) in
  (breakpoints d `prefix_of` breakpoints d' /\
   (NoDup (breakpoints d) -> NoDup (breakpoints d')) /\
   (forall l, In l (breakpoints d') <->
              In l (breakpoints d) \/ In l (map snd reqs)) /\
   watchVariables d' = watchVariables d /\ rest d' = rest d) /\
  (forall userId line,
     let run := addBreakpoint env userId line tw in
     (res_status run.1 = 200 \/ res_status run.1 = 400) /\
     In line (breakpoints (toolsData run.2)) /\
     (validateTools env (toolsData run.2) = false ->
      run.1 = {| res_status := 400; res_body := Message ValidationFailed |} /\
      core run.2 = core tw) /\
     toolsData (addBreakpoint env userId line run.2).2 = toolsData run.2).
Proof.
  cbn zeta. split.
  - revert tw. induction reqs as [| [u line] reqs IH]; intro tw.
    + cbn. split; [reflexivity |]. split; [auto |].
      split; [| split; reflexivity]. intro l. tauto.
    + change (addBreakpoints env ((u, line) :: reqs) tw)
        with (addBreakpoints env reqs (addBreakpoint env u line tw).2).
      destruct (IH (addBreakpoint env u line tw).2)
        as (Hpre & Hnd & Hin & Hw & Hr).
      destruct (addBreakpoint_step u line tw)
        as (Hpre1 & Hnd1 & Hin1 & Hw1 & Hr1).
      cbn zeta in *.
      split; [etransitivity; eassumption |]. split; [auto |].
      split; [| split; congruence].
      intro l. rewrite Hin, Hin1. cbn. intuition congruence.
  - intros userId line.
    destruct (addBreakpoint_step userId line tw) as (_ & _ & Hin & _).
    cbn zeta in Hin.
    split; [| split; [| split]].
    + unfold addBreakpoint.
      match goal with
      | |- context [validateTools env ?d] => destruct (validateTools env d)
      end; cbn [negb]; [| right; reflexivity].
      match goal with
      | |- context [logComplianceEvent ?e ?a ?b ?c ?w] =>
          destruct (logComplianceEvent e a b c w) as [[x | x] w']
      end; [left | right]; reflexivity.
    + apply Hin. right. reflexivity.
    + rewrite addBreakpoint_store. unfold addBreakpoint.
      intro Hbad.
      destruct (hasBreakpoint line (breakpoints (toolsData tw)));
        cbn [negb] in *; rewrite Hbad; split; reflexivity.
    + rewrite (addBreakpoint_store userId line (addBreakpoint env userId line tw).2).
      assert (Hhas : hasBreakpoint line
                (breakpoints (toolsData (addBreakpoint env userId line tw).2))
              = true).
      { apply hasBreakpoint_In. apply Hin. right. reflexivity. }
      rewrite Hhas. reflexivity.
Qed.

End ToolsBreakpoints.

(** ** Scenarios of the dating controller *)

Lemma datingWorld_platform :
  Dating.platforms datingWorld !! "plat-1" = Some datingPlatform.
Proof. vm_compute. reflexivity. Qed.

Lemma acceptedWorld_platform :
  Dating.platforms acceptedWorld !! "plat-1" = Some acceptedPlatform.
Proof. vm_compute. reflexivity. Qed.

Lemma datingEnv_resolves : Dating.adapterResolves datingEnv.
Proof. intros h c. eexists. reflexivity. Qed.

Lemma firstMatch_found :
  list_find (fun m => Dating.match_id m = "m-1")
    (Dating.matches (Dating.platform datingPlatform))
  = Some (0%nat, firstMatch).
Proof. vm_compute. reflexivity. Qed.

Lemma carol_found :
  list_find (fun q => Dating.prof_id q = "p-carol")
    (Dating.profiles (Dating.platform datingPlatform))
  = Some (2%nat, carol).
Proof. vm_compute. reflexivity. Qed.

Lemma createMatch_records_witness :
  (Dating.createMatch datingEnv "plat-1" "alice" "carol" 80 datingWorld).1
    = Dating.DThrow Dating.ProfilesMissingOrUnverified /\
  exists m,
    Dating.matchesOf "plat-1"
      (Dating.createMatch datingEnv "plat-1" "alice" "bob" 150 datingWorld).2
    = Dating.matchesOf "plat-1" datingWorld ++ [m] /\
    Dating.compatibilityScore m = 100.
Proof.
  split.
  - destruct (createMatch_records datingEnv "plat-1" "alice" "carol" 80
                datingWorld datingPlatform datingWorld_platform)
      as [Hmissing _].
    destruct Hmissing as [Hr _]; [right; vm_compute; reflexivity | exact Hr].
  - destruct (createMatch_records datingEnv "plat-1" "alice" "bob" 150
                datingWorld datingPlatform datingWorld_platform)
      as [_ Hboth].
    destruct Hboth as (m & Hm & _ & _ & _ & _ & _ & _ & _ & Hcap & _).
    + eexists. vm_compute. reflexivity.
    + eexists. vm_compute. reflexivity.
    + exists m. split; [exact Hm | apply Hcap; lia].
Defined.

Lemma updateMatchStatus_gate_witness :
  Dating.updateMatchStatus datingEnv "plat-1" "m-1" "carol" "accepted"
    datingWorld
    = (Dating.DThrow Dating.MatchNotFoundOrUnauthorized, datingWorld) /\
  exists m',
    Dating.matchesOf "plat-1"
      (Dating.updateMatchStatus datingEnv "plat-1" "m-1" "alice" "accepted"
         datingWorld).2 !! 0%nat = Some m' /\
    Dating.match_status m' = "accepted".
Proof.
  split.
  - pose proof (updateMatchStatus_gate datingEnv "plat-1" "m-1" "carol"
                  "accepted" datingWorld datingPlatform datingWorld_platform)
      as H.
    cbn zeta in H. rewrite firstMatch_found in H.
    destruct H as [Hstranger _]. apply Hstranger; cbn; discriminate.
  - pose proof (updateMatchStatus_gate datingEnv "plat-1" "m-1" "alice"
                  "accepted" datingWorld datingPlatform datingWorld_platform)
      as H.
    cbn zeta in H. rewrite firstMatch_found in H.
    destruct H as (_ & _ & Hgo).
    destruct Hgo as (m' & Hm' & Hst & _);
      [left; reflexivity | left; reflexivity |].
    exists m'. split; [exact Hm' | exact Hst].
Defined.

Lemma createInteraction_gate_witness :
  Dating.createInteraction datingEnv "plat-1" helloData datingWorld
    = (Dating.DThrow Dating.NoAcceptedMatch, datingWorld) /\
  exists i,
    Dating.interactionsOf "plat-1"
      (Dating.createInteraction datingEnv "plat-1" helloData acceptedWorld).2
    = [i] /\
    Dating.int_agent1 i = "alice".
Proof.
  split.
  - destruct (createInteraction_gate datingEnv "plat-1" helloData datingWorld
                datingPlatform datingWorld_platform eq_refl eq_refl)
      as [Hclosed _].
    destruct Hclosed as [Hrun _]; [vm_compute; reflexivity | exact Hrun].
  - destruct (createInteraction_gate datingEnv "plat-1" helloData acceptedWorld
                acceptedPlatform acceptedWorld_platform eq_refl eq_refl)
      as [_ Hopen].
    destruct Hopen as (_ & _ & _ & i & Hi & Ha & _);
      [vm_compute; reflexivity |].
    exists i. split; [exact Hi | exact Ha].
Defined.

Lemma accepted_match_opens_interaction_witness :
  (Dating.createInteraction datingEnv "plat-1" helloData
     (Dating.updateMatchStatus datingEnv "plat-1" "m-1" "alice" "accepted"
        datingWorld).2).1
    <> Dating.DThrow Dating.NoAcceptedMatch.
Proof.
  destruct (accepted_match_opens_interaction datingEnv "plat-1" "m-1" "alice"
              datingWorld datingPlatform 0%nat firstMatch helloData
              datingWorld_platform firstMatch_found)
    as [Hopen _].
  - left. reflexivity.
  - left. split; reflexivity.
  - reflexivity.
  - exact Hopen.
Defined.

Lemma verifyProfile_hook_first_witness :
  exists p' q',
    Dating.platforms
      (Dating.verifyProfile datingEnv "plat-1" "p-carol" datingWorld).2
      !! "plat-1" = Some p' /\
    Dating.profiles (Dating.platform p') !! 2%nat = Some q' /\
    Dating.verified q' = true /\ Dating.agent q' = "carol".
Proof.
  pose proof (verifyProfile_hook_first datingEnv "plat-1" "p-carol"
                datingWorld datingPlatform datingWorld_platform) as H.
  cbn zeta in H. rewrite carol_found in H.
  destruct H as [_ Hgo].
  destruct Hgo as (p' & q' & Hp' & Hq' & Hv & _ & Ha & _).
  - right. exists "verifyHook", (VBool true). split; reflexivity.
  - exists p', q'. repeat split; assumption.
Defined.

Lemma createProfile_gate_witness :
  exists q,
    Dating.profilesOf "plat-1"
      (Dating.createProfile datingEnv "plat-1" daveData datingWorld).2
    = [alice; bob; carol] ++ [q] /\
    Dating.agent q = "dave" /\ Dating.verified q = false.
Proof.
  destruct (createProfile_gate datingEnv "plat-1" daveData datingWorld
              datingPlatform datingWorld_platform)
    as (_ & _ & Hgo).
  pose proof (Hgo eq_refl eq_refl (VBool true) eq_refl) as H.
  cbn [truthy] in H.
  destruct H as (q & Hq & _ & Ha & Hv & _).
  exists q. repeat split; assumption.
Defined.

Lemma checkExpiredMatches_marks_due_witness :
  (Dating.checkExpiredMatches datingEnv "plat-1" datingWorld).1
    = Dating.DOk tt /\
  exists m',
    Dating.matchesOf "plat-1"
      (Dating.checkExpiredMatches datingEnv "plat-1" datingWorld).2 !! 0%nat
    = Some m' /\
    Dating.match_status m' = "expired".
Proof.
  destruct (checkExpiredMatches_marks_due datingEnv "plat-1" datingWorld
              datingPlatform datingWorld_platform)
    as [_ Hgo].
  destruct (Hgo datingEnv_resolves (permissive_audit _))
    as (Hok & _ & Heach & _).
  split; [exact Hok |].
  destruct (Heach 0%nat firstMatch eq_refl) as (m' & Hm' & Hdue & _).
  exists m'. split; [exact Hm' |]. apply Hdue. vm_compute. reflexivity.
Defined.

Lemma dating_calls_keep_store_witness :
  exists p' q' m',
    Dating.platforms (Dating.runCalls datingEnv datingDay datingWorld)
      !! "plat-1" = Some p' /\
    Dating.profiles (Dating.platform p') !! 0%nat = Some q' /\
    Dating.agent q' = "alice" /\ Dating.verified q' = true /\
    Dating.matches (Dating.platform p') !! 1%nat = Some m' /\
    Dating.sameMatch laterMatch m' /\
    Forall (fun m => 0 <= Dating.compatibilityScore m <= 100)
      (Dating.matches (Dating.platform p')).
Proof.
  destruct (dating_calls_keep_store datingEnv datingDay datingWorld)
    as [_ Hkept].
  destruct (Hkept "plat-1" datingPlatform datingWorld_platform)
    as (p' & Hp' & _ & Hprofiles & Hmatches & Hscores).
  destruct (Hprofiles 0%nat alice eq_refl) as (q' & Hq' & _ & Ha & Hv).
  destruct (Hmatches 1%nat laterMatch eq_refl) as (m' & Hm' & Hsame).
  exists p', q', m'. split; [exact Hp' |]. split; [exact Hq' |].
  split; [exact Ha |]. split; [apply Hv; reflexivity |].
  split; [exact Hm' |]. split; [exact Hsame |].
  apply Hscores. repeat constructor; cbn; lia.
Defined.

Lemma addBreakpoint_keeps_set_witness :
  NoDup (Tools.breakpoints
           (Tools.toolsData
              (Tools.addBreakpoints strictToolsEnv
                 [("dev", 7); ("dev", 3); ("ops", 7)] toolsWorld))) /\
  Tools.res_status (Tools.addBreakpoint strictToolsEnv "dev" (-1) toolsWorld).1
    = 400 /\
  In (-1) (Tools.breakpoints
             (Tools.toolsData
                (Tools.addBreakpoint strictToolsEnv "dev" (-1) toolsWorld).2)).
Proof.
  destruct (addBreakpoint_keeps_set strictToolsEnv
              [("dev", 7); ("dev", 3); ("ops", 7)] toolsWorld)
    as [(_ & Hnd & _) _].
  destruct (addBreakpoint_keeps_set strictToolsEnv [] toolsWorld)
    as [_ Hone].
  destruct (Hone "dev" (-1)) as (_ & Hin & Hbad & _).
  split; [apply Hnd; apply NoDup_singleton |].
  split; [| exact Hin].
  destruct Hbad as [Hres _]; [vm_compute; reflexivity |].
  rewrite Hres. reflexivity.
Defined.
